(** * Progressive bracket evaluation of the tax-ca repository

    Shallow embedding of the bracket arithmetic found in the repository:
    - [Provincial]: [calculateProvincialTax] and [getProvincialData] of
      tests/api/endpoints/provincial-variations.spec.ts (the table-driven
      bracket loop, surtax, credit and rates);
    - [Federal]: the five-bracket cascade of [calculateIncomeTax]
      (tests/api/endpoints/tax-calculation.spec.ts) and of
      [calculateFederalTax] (tests/api/integration/complete-tax-flow.spec.ts),
      with the Quebec abatement and the credit floor;
    - [Api]: [incomeTaxRequestSchema] (api/src/schemas/index.ts) and the
      [validateRequest] middleware (api/src/middleware/validation.ts);
    - [Core]: the library functions of src/taxes/income-tax.ts, whose
      source is not available and which are modelled from the
      specification;
    - [Walk]: the bracket loop restricted to finite incomes, the form in
      which the properties are proved.

    Numbers.  A JavaScript [number] is modelled by [JsNum.num]: an exact
    rational, [+Infinity], [-Infinity] or [NaN].  Rounding of binary
    floating point and the sign of zero are not modelled; every finite
    operation is exact. *)

From Stdlib Require Import QArith Qminmax Qround Qpower Lqa ZArith Lia List
  String Ascii Bool.
Import ListNotations.
Open Scope Q_scope.

#[local] Set Warnings "-register-all".

(** ** JavaScript numbers *)

Module JsNum.

Inductive num : Type :=
| Fin (q : Q)
| PInf
| NInf
| NaN.

(** Strict comparison on rationals, as a boolean. *)
Definition Qltb (a b : Q) : bool := negb (Qle_bool b a).

(** [a > b]; any comparison with [NaN] is false. *)
Definition gt (a b : num) : bool :=
  match a, b with
  | NaN, _ | _, NaN => false
  | Fin x, Fin y => Qltb y x
  | Fin _, PInf => false
  | Fin _, NInf => true
  | PInf, PInf => false
  | PInf, _ => true
  | NInf, _ => false
  end.

(** [a <= b]. *)
Definition le (a b : num) : bool :=
  match a, b with
  | NaN, _ | _, NaN => false
  | Fin x, Fin y => Qle_bool x y
  | Fin _, PInf => true
  | Fin _, NInf => false
  | PInf, PInf => true
  | PInf, _ => false
  | NInf, _ => true
  end.

Definition add (a b : num) : num :=
  match a, b with
  | NaN, _ | _, NaN => NaN
  | Fin x, Fin y => Fin (x + y)
  | PInf, NInf | NInf, PInf => NaN
  | PInf, _ | _, PInf => PInf
  | NInf, _ | _, NInf => NInf
  end.

Definition sub (a b : num) : num :=
  match a, b with
  | NaN, _ | _, NaN => NaN
  | Fin x, Fin y => Fin (x - y)
  | PInf, PInf | NInf, NInf => NaN
  | PInf, _ | _, NInf => PInf
  | NInf, _ | _, PInf => NInf
  end.

(** Sign of an infinity scaled by a finite factor. *)
Definition scaleInf (positive : bool) (y : Q) : num :=
  if Qeq_bool y 0 then NaN
  else if Bool.eqb positive (Qltb 0 y) then PInf else NInf.

Definition mul (a b : num) : num :=
  match a, b with
  | NaN, _ | _, NaN => NaN
  | Fin x, Fin y => Fin (x * y)
  | PInf, Fin y | Fin y, PInf => scaleInf true y
  | NInf, Fin y | Fin y, NInf => scaleInf false y
  | PInf, PInf | NInf, NInf => PInf
  | PInf, NInf | NInf, PInf => NaN
  end.

(** Division; a zero divisor is taken as [+0]. *)
Definition div (a b : num) : num :=
  match a, b with
  | NaN, _ | _, NaN => NaN
  | Fin x, Fin y =>
      if Qeq_bool y 0
      then (if Qeq_bool x 0 then NaN else if Qltb 0 x then PInf else NInf)
      else Fin (x / y)
  | Fin _, _ => Fin 0
  | PInf, Fin y => if Qle_bool 0 y then PInf else NInf
  | NInf, Fin y => if Qle_bool 0 y then NInf else PInf
  | _, _ => NaN
  end.

(** [Math.max(a, b)] and [Math.min(a, b)]: [NaN] when an argument is. *)
Definition Math_max (a b : num) : num :=
  match a, b with
  | NaN, _ | _, NaN => NaN
  | _, _ => if le a b then b else a
  end.

Definition Math_min (a b : num) : num :=
  match a, b with
  | NaN, _ | _, NaN => NaN
  | _, _ => if le a b then a else b
  end.

(** Truthiness of a number: [0] and [NaN] are falsy. *)
Definition truthy (a : num) : bool :=
  match a with
  | Fin x => negb (Qeq_bool x 0)
  | NaN => false
  | _ => true
  end.

(** [a || b] on numbers. *)
Definition or_else (a b : num) : num := if truthy a then a else b.

(** [Number.isFinite]. *)
Definition isFinite (a : num) : bool :=
  match a with Fin _ => true | _ => false end.

(** [n] is the finite number [q], up to equality of fractions. *)
Definition is_fin (n : num) (q : Q) : Prop :=
  match n with Fin x => x == q | _ => False end.

End JsNum.

Import JsNum.

Notation "n =F= q" := (is_fin n q) (at level 70, no associativity).

(** ** tests/api/endpoints/provincial-variations.spec.ts *)

Module Provincial.

(** An entry of [taxBrackets]; [max] is absent or [null] on the top
    bracket. *)
Record Bracket : Type := {
  min : Q;
  max : option Q;
  rate : Q
}.

Record Surtax : Type := {
  threshold1 : Q;
  threshold2 : Q;
  rate1 : Q;
  rate2 : Q
}.

(** The shape of data/provinces/*.json as the mock reads it. *)
Record ProvincialData : Type := {
  basicPersonalAmount : Q;
  taxBrackets : list Bracket;
  surtax : option Surtax
}.

(** [bracket.max || Infinity]. *)
Definition bracketMax (bracket : Bracket) : num :=
  match max bracket with
  | Some m => or_else (Fin m) PInf
  | None => PInf
  end.

(** One iteration of [for (const bracket of provincialData.taxBrackets)];
    the state is the pair [(tax, marginalRate)]. *)
Definition bracketStep (taxableIncome : num) (st : num * num)
    (bracket : Bracket) : num * num :=
  let '(tax, marginalRate) := st in
  let bracketMin := Fin (min bracket) in
  let bracketMax := bracketMax bracket in
  if gt taxableIncome bracketMin then
    let taxableInBracket :=
      Math_min (sub taxableIncome bracketMin) (sub bracketMax bracketMin) in
    let tax := add tax (mul taxableInBracket (Fin (rate bracket))) in
    if gt taxableIncome bracketMin && le taxableIncome bracketMax
    then (tax, Fin (rate bracket))
    else (tax, marginalRate)
  else (tax, marginalRate).

(** The whole loop, from [tax = 0] and [marginalRate = 0]. *)
Definition bracketLoop (brackets : list Bracket) (taxableIncome : num)
    : num * num :=
  fold_left (bracketStep taxableIncome) brackets (Fin 0, Fin 0).

(** The Ontario surtax block, entered when [province === 'ON'] and the
    data carries a [surtax] object. *)
Definition surtaxOf (province : string) (data : ProvincialData)
    (tax : num) : num :=
  match surtax data with
  | Some s =>
      if String.eqb province "ON" then
        let t1 := Fin (threshold1 s) in
        let t2 := Fin (threshold2 s) in
        let s0 := Fin 0 in
        let s1 :=
          if gt tax t1
          then add s0 (mul (Math_min (sub tax t1) (sub t2 t1))
                           (Fin (rate1 s)))
          else s0 in
        if gt tax t2
        then add s1 (mul (sub tax t2) (Fin (rate2 s)))
        else s1
      else Fin 0
  | None => Fin 0
  end.

(** [provincialData.taxBrackets[0]?.rate || 0.05]. *)
Definition firstRate (data : ProvincialData) : num :=
  match taxBrackets data with
  | b :: _ => or_else (Fin (rate b)) (Fin 0.05)
  | [] => Fin 0.05
  end.

(** [Math.max(0, tax - credit)], the credit floor of every calculator. *)
Definition applyCredit (tax credit : num) : num :=
  Math_max (Fin 0) (sub tax credit).

(** [income > 0 ? totalTax / income : 0]. *)
Definition effectiveRate (totalTax income : num) : num :=
  if gt income (Fin 0) then div totalTax income else Fin 0.

Record Result : Type := {
  province : string;
  taxableIncome : num;
  taxOwing : num;
  surtaxAmount : num;
  nonRefundableCredits : num;
  netTax : num;
  finalTax : num;
  marginalRate : num;
  effectiveRateOf : num;
  federalAbatement : num;
  federalTaxReduction : num
}.

Section WithData.

(** The two imported JSON documents; [quebecData.federalAbatement] is
    the only field read outside [ProvincialData]. *)
Variables ontarioData quebecData : ProvincialData.
Variable quebecFederalAbatement : Q.

Definition defaultData : ProvincialData := {|
  basicPersonalAmount := 12000;
  taxBrackets := [ {| min := 0; max := Some 50000; rate := 0.10 |} ];
  surtax := None
|}.

Definition getProvincialData (province : string) : ProvincialData :=
  if String.eqb province "ON" then ontarioData
  else if String.eqb province "QC" then quebecData
  else defaultData.

Definition calculateProvincialTax (income : num) (province : string)
    : Result :=
  let provincialData := getProvincialData province in
  let basicPersonal := Fin (basicPersonalAmount provincialData) in
  let taxableIncome := Math_max (Fin 0) (sub income basicPersonal) in
  let '(tax, marginalRate) :=
    bracketLoop (taxBrackets provincialData) taxableIncome in
  let surtax := surtaxOf province provincialData tax in
  let totalTax := add tax surtax in
  let basicPersonalCredit := mul basicPersonal (firstRate provincialData) in
  let netTax := applyCredit totalTax basicPersonalCredit in
  let isQC := String.eqb province "QC" in
  {| province := province;
     taxableIncome := taxableIncome;
     taxOwing := totalTax;
     surtaxAmount := surtax;
     nonRefundableCredits := basicPersonalCredit;
     netTax := netTax;
     finalTax := netTax;
     marginalRate := marginalRate;
     effectiveRateOf := effectiveRate totalTax income;
     federalAbatement :=
       if isQC then Fin quebecFederalAbatement else Fin 0;
     federalTaxReduction :=
       if isQC
       then mul (mul income (Fin 0.15)) (Fin quebecFederalAbatement)
       else Fin 0 |}.

End WithData.

End Provincial.

(** ** tests/api/endpoints/tax-calculation.spec.ts and
       tests/api/integration/complete-tax-flow.spec.ts *)

Module Federal.

Import Provincial.

(** The federal block of [calculateIncomeTax]: [federalTax] is assigned
    the first bracket and each further bracket is added under its own
    guard. *)
Definition federalTaxOf (taxableIncome : num) : num :=
  if gt taxableIncome (Fin 0) then
    let federalTax := mul (Math_min taxableIncome (Fin 53359)) (Fin 0.15) in
    let federalTax :=
      if gt taxableIncome (Fin 53359)
      then add federalTax
             (mul (Math_min (sub taxableIncome (Fin 53359)) (Fin 53358))
                  (Fin 0.205))
      else federalTax in
    let federalTax :=
      if gt taxableIncome (Fin 106717)
      then add federalTax
             (mul (Math_min (sub taxableIncome (Fin 106717)) (Fin 58309))
                  (Fin 0.26))
      else federalTax in
    let federalTax :=
      if gt taxableIncome (Fin 165026)
      then add federalTax
             (mul (Math_min (sub taxableIncome (Fin 165026)) (Fin 70000))
                  (Fin 0.29))
      else federalTax in
    if gt taxableIncome (Fin 235026)
    then add federalTax (mul (sub taxableIncome (Fin 235026)) (Fin 0.33))
    else federalTax
  else Fin 0.

Definition basicPersonalAmount : num := Fin 15000.

(** [params.rrspContribution || 0] on the optional parameter. *)
Definition rrspOrZero (rrspContribution : option num) : num :=
  match rrspContribution with
  | Some r => or_else r (Fin 0)
  | None => Fin 0
  end.

Definition taxableIncomeOf (totalIncome : num)
    (rrspContribution : option num) : num :=
  Math_max (Fin 0)
    (sub (sub totalIncome (rrspOrZero rrspContribution))
         basicPersonalAmount).

(** The members that the [federal] object of [calculateIncomeTax] and the
    result of [calculateFederalTax] have in common. *)
Record FederalResult : Type := {
  taxableIncome : num;
  taxOwing : num;
  nonRefundableCredits : num;
  netTax : num;
  finalTax : num
}.

Definition calculateIncomeTax_federal (totalIncome : num)
    (rrspContribution : option num) : FederalResult :=
  let taxableIncome := taxableIncomeOf totalIncome rrspContribution in
  let federalTax := federalTaxOf taxableIncome in
  let credits := mul basicPersonalAmount (Fin 0.15) in
  {| taxableIncome := add taxableIncome basicPersonalAmount;
     taxOwing := federalTax;
     nonRefundableCredits := credits;
     netTax := applyCredit federalTax credits;
     finalTax := applyCredit federalTax credits |}.

(** [if (province === 'QC') { tax *= 0.835; }] of [calculateFederalTax]:
    the Quebec abatement of 16.5%. *)
Definition applyAbatement (tax : num) (province : string) : num :=
  if String.eqb province "QC" then mul tax (Fin 0.835) else tax.

(** The bracket block of [calculateFederalTax]: the same cascade, every
    bracket added to [tax = 0]. *)
Definition flowTaxOf (taxableBase : num) : num :=
  let tax := Fin 0 in
  if gt taxableBase (Fin 0) then
    let tax := add tax (mul (Math_min taxableBase (Fin 53359)) (Fin 0.15)) in
    let tax :=
      if gt taxableBase (Fin 53359)
      then add tax
             (mul (Math_min (sub taxableBase (Fin 53359)) (Fin 53358))
                  (Fin 0.205))
      else tax in
    let tax :=
      if gt taxableBase (Fin 106717)
      then add tax
             (mul (Math_min (sub taxableBase (Fin 106717)) (Fin 58309))
                  (Fin 0.26))
      else tax in
    let tax :=
      if gt taxableBase (Fin 165026)
      then add tax
             (mul (Math_min (sub taxableBase (Fin 165026)) (Fin 70000))
                  (Fin 0.29))
      else tax in
    if gt taxableBase (Fin 235026)
    then add tax (mul (sub taxableBase (Fin 235026)) (Fin 0.33))
    else tax
  else tax.

Definition calculateFederalTax (taxableIncome : num) (province : string)
    : FederalResult :=
  let taxableBase := Math_max (Fin 0) (sub taxableIncome basicPersonalAmount) in
  let tax := applyAbatement (flowTaxOf taxableBase) province in
  let basicPersonalCredit := mul basicPersonalAmount (Fin 0.15) in
  let netTax := applyCredit tax basicPersonalCredit in
  {| taxableIncome := add taxableBase basicPersonalAmount;
     taxOwing := tax;
     nonRefundableCredits := basicPersonalCredit;
     netTax := netTax;
     finalTax := netTax |}.

End Federal.

(** ** api/src/schemas/index.ts, api/src/middleware/validation.ts and the
       service class of api/src *)

Module Api.

(** A parsed JSON document, [req.body].  A JSON numeral is finite; one so
    large that parsing yields [Infinity] exceeds every [maximum] of the
    schemas. *)
Inductive json : Type :=
| JNull
| JBool (b : bool)
| JNum (n : Q)
| JStr (s : string)
| JArr (items : list json)
| JObj (members : list (string * json)).

Inductive JsonType : Type := TObject | TNumber | TString.

(** The keywords the request schemas use on a property.  [default] is an
    annotation: the validator is built without [useDefaults]. *)
Record PropertySchema : Type := {
  type : JsonType;
  minimum : option Q;
  maximum : option Q;
  enum : option (list string)
}.

Record ObjectSchema : Type := {
  properties : list (string * PropertySchema);
  required : list string;
  additionalProperties : bool
}.

Definition incomeTaxRequestSchema : ObjectSchema := {|
  properties :=
    [ ("grossIncome"%string,
        {| type := TNumber; minimum := Some 0; maximum := Some 10000000;
           enum := None |});
      ("province"%string,
        {| type := TString; minimum := None; maximum := None;
           enum := Some [ "AB"; "BC"; "MB"; "NB"; "NL"; "NS"; "NT"; "NU";
                          "ON"; "PE"; "QC"; "SK"; "YT" ]%string |});
      ("year"%string,
        {| type := TNumber; minimum := Some 2000; maximum := Some 2030;
           enum := None |});
      ("inflationRate"%string,
        {| type := TNumber; minimum := Some (-0.1); maximum := Some 0.3;
           enum := None |});
      ("yearsToInflate"%string,
        {| type := TNumber; minimum := Some 0; maximum := Some 50;
           enum := None |}) ];
  required := [ "grossIncome"; "province" ]%string;
  additionalProperties := false
|}.

(** [new Ajv({ allErrors: true, removeAdditional: true })]. *)
Record AjvOptions : Type := {
  allErrors : bool;
  removeAdditional : bool
}.

Definition ajv : AjvOptions :=
  {| allErrors := true; removeAdditional := true |}.

(** [data[key]] on an object; [None] is [undefined]. *)
Fixpoint lookup (key : string) (members : list (string * json))
    : option json :=
  match members with
  | [] => None
  | (k, v) :: rest => if String.eqb k key then Some v else lookup key rest
  end.

Definition hasType (t : JsonType) (v : json) : bool :=
  match t, v with
  | TObject, JObj _ => true
  | TNumber, JNum _ => true
  | TString, JStr _ => true
  | _, _ => false
  end.

(** [minimum] and [maximum] constrain numbers only. *)
Definition inRange (s : PropertySchema) (v : json) : bool :=
  match v with
  | JNum n =>
      match minimum s with Some lo => Qle_bool lo n | None => true end
      && match maximum s with Some hi => Qle_bool n hi | None => true end
  | _ => true
  end.

Definition inEnum (s : PropertySchema) (v : json) : bool :=
  match enum s with
  | None => true
  | Some allowed =>
      match v with
      | JStr x => existsb (String.eqb x) allowed
      | _ => false
      end
  end.

Definition validProperty (s : PropertySchema) (v : json) : bool :=
  hasType (type s) v && inRange s v && inEnum s v.

Definition declared (s : ObjectSchema) (key : string) : bool :=
  existsb (fun p => String.eqb (fst p) key) (properties s).

(** The compiled validator on an object: the validity flag and the
    object as validation leaves it.  With [removeAdditional: true] a
    member that [additionalProperties: false] forbids is deleted and
    raises no error. *)
Definition validateObject (opts : AjvOptions) (s : ObjectSchema)
    (members : list (string * json)) : bool * list (string * json) :=
  let propertiesOk :=
    forallb (fun p => match lookup (fst p) members with
                      | Some v => validProperty (snd p) v
                      | None => true
                      end) (properties s) in
  let requiredOk :=
    forallb (fun k => match lookup k members with
                      | Some _ => true
                      | None => false
                      end) (required s) in
  let strip := negb (additionalProperties s) && removeAdditional opts in
  let additionalOk :=
    additionalProperties s || removeAdditional opts
    || forallb (fun m => declared s (fst m)) members in
  let members' :=
    if strip then filter (fun m => declared s (fst m)) members
    else members in
  (propertiesOk && requiredOk && additionalOk, members').

(** [type: 'object'] at the root, then the object keywords. *)
Definition validate (opts : AjvOptions) (s : ObjectSchema) (data : json)
    : bool * json :=
  match data with
  | JObj members =>
      let '(ok, members') := validateObject opts s members in
      (ok, JObj members')
  | _ => (false, data)
  end.

(** What the middleware does with a request: answer it, or call
    [next()] on the body as validation left it.  The error text is not
    modelled. *)
Inductive Outcome : Type :=
| Respond (status : Z) (success : bool) (code : string)
| Next (body : json).

Definition validateRequest (s : ObjectSchema) (body : json) : Outcome :=
  let '(valid, body') := validate ajv s body in
  if valid then Next body'
  else Respond 400 false "VALIDATION_ERROR".

(** [router.post('/income-tax', validateRequest(incomeTaxRequestSchema),
    asyncHandler(calculateIncomeTax))]: the controller runs only when
    the middleware calls [next()]. *)
Inductive Reply (R : Type) : Type :=
| Rejected (status : Z) (code : string)
| Handled (result : R).
Arguments Rejected {R} status code.
Arguments Handled {R} result.

Definition postIncomeTax {R : Type} (calculateIncomeTax : json -> R)
    (body : json) : Reply R :=
  match validateRequest incomeTaxRequestSchema body with
  | Respond status _ code => Rejected status code
  | Next body' => Handled (calculateIncomeTax body')
  end.

(** [request.grossIncome] as the controller reads it from the body. *)
Definition grossIncomeOf (body : json) : option Q :=
  match body with
  | JObj members =>
      match lookup "grossIncome" members with
      | Some (JNum n) => Some n
      | _ => None
      end
  | _ => None
  end.

(** The body satisfies the schema, written out keyword by keyword. *)
Definition numberIn (lo hi : Q) (v : json) : Prop :=
  match v with JNum n => lo <= n /\ n <= hi | _ => False end.

Definition optionalNumberIn (lo hi : Q) (v : option json) : Prop :=
  match v with Some x => numberIn lo hi x | None => True end.

Definition provinceCodes : list string :=
  [ "AB"; "BC"; "MB"; "NB"; "NL"; "NS"; "NT"; "NU";
    "ON"; "PE"; "QC"; "SK"; "YT" ]%string.

Definition conforms (body : json) : Prop :=
  match body with
  | JObj members =>
      (exists g, lookup "grossIncome" members = Some g
                 /\ numberIn 0 10000000 g)
      /\ (exists p, lookup "province" members = Some (JStr p)
                    /\ In p provinceCodes)
      /\ optionalNumberIn 2000 2030 (lookup "year" members)
      /\ optionalNumberIn (-0.1) 0.3 (lookup "inflationRate" members)
      /\ optionalNumberIn 0 50 (lookup "yearsToInflate" members)
  | _ => False
  end.

(** ** The service class (api/src), over the library it imports *)

Record IncomeTaxRequest : Type := {
  grossIncome : num;
  province : string;
  inflationRate : option num;
  yearsToInflate : option num
}.

Record IncomeTaxResponse : Type := {
  r_grossIncome : num;
  r_province : string;
  federalTax : num;
  provincialTax : num;
  totalTax : num;
  afterTaxIncome : num;
  effectiveTaxRate : num;
  marginalTaxRate : num
}.

Section Service.

(** The functions of dist/taxes/income-tax.js and dist/utils/math.js
    the service calls; they are not among the sources. *)
Variable Rates : Type.
Variables getFederalTaxAmount getProvincialTaxAmount getTotalTaxAmount
  : string -> num -> num -> num -> num.
Variable getTaxRates : string -> Rates.
Variable getRate : Rates -> num -> num -> num -> num.
Variable roundToPrecision : num -> Z -> num.

Definition withDefault (v : option num) (d : num) : num :=
  match v with Some x => x | None => d end.

Definition calculateIncomeTax (request : IncomeTaxRequest)
    : IncomeTaxResponse :=
  let grossIncome := grossIncome request in
  let province := province request in
  let inflationRate := withDefault (inflationRate request) (Fin 0) in
  let yearsToInflate := withDefault (yearsToInflate request) (Fin 0) in
  let federalTax :=
    getFederalTaxAmount province grossIncome inflationRate yearsToInflate in
  let provincialTax :=
    getProvincialTaxAmount province grossIncome inflationRate
      yearsToInflate in
  let totalTax :=
    getTotalTaxAmount province grossIncome inflationRate yearsToInflate in
  let afterTaxIncome := sub grossIncome totalTax in
  let effectiveTaxRate :=
    if gt grossIncome (Fin 0) then div totalTax grossIncome else Fin 0 in
  let federalRates := getTaxRates "CA" in
  let provincialRates := getTaxRates province in
  let federalMarginalRate :=
    getRate federalRates grossIncome inflationRate yearsToInflate in
  let provincialMarginalRate :=
    getRate provincialRates grossIncome inflationRate yearsToInflate in
  let marginalTaxRate := add federalMarginalRate provincialMarginalRate in
  {| r_grossIncome := roundToPrecision grossIncome 2;
     r_province := province;
     federalTax := roundToPrecision federalTax 2;
     provincialTax := roundToPrecision provincialTax 2;
     totalTax := roundToPrecision totalTax 2;
     afterTaxIncome := roundToPrecision afterTaxIncome 2;
     effectiveTaxRate := roundToPrecision effectiveTaxRate 4;
     marginalTaxRate := roundToPrecision marginalTaxRate 4 |}.

End Service.

End Api.

(** ** src/taxes/income-tax.ts, from the specification *)

Module Core.

(** Modelled from the spec: the jurisdiction codes of the missing
    src/misc/code-types.ts, thirteen regions and the federal code. *)
Inductive Jurisdiction : Type :=
| CA | AB | BC | MB | NB | NL | NS | NT | NU | ON | PE | QC | SK | YT.

(** Modelled from the spec: [BracketSegment] of the missing bracket data;
    [upperBound = None] is the unbounded top segment. *)
Record BracketSegment : Type := {
  lowerBound : Q;
  upperBound : option Q;
  marginalRate : Q
}.

(** Modelled from the spec: [BracketTable], one per jurisdiction and
    year, of the missing TAX_BRACKETS data. *)
Record BracketTable : Type := {
  jurisdiction : Jurisdiction;
  taxYear : Z;
  segments : list BracketSegment;
  baseCredit : Q;
  baseCreditRate : Q
}.

(** Modelled from the spec: the factor [(1 + inflationRate)^yearsToInflate]
    of the missing indexation code. *)
Definition inflationFactor (inflationRate : Q) (yearsToInflate : nat) : Q :=
  (1 + inflationRate) ^ Z.of_nat yearsToInflate.

(** Modelled from the spec: indexation of one segment of the missing
    library; an unbounded upper limit stays unbounded and the rate is
    kept. *)
Definition indexSegment (factor : Q) (s : BracketSegment) : BracketSegment :=
  {| lowerBound := lowerBound s * factor;
     upperBound := option_map (fun u => u * factor) (upperBound s);
     marginalRate := marginalRate s |}.

(** Modelled from the spec: [indexTable] of the missing library, which
    multiplies every bound and the base credit by the inflation factor. *)
Definition indexTable (table : BracketTable) (inflationRate : Q)
    (yearsToInflate : nat) : BracketTable :=
  let factor := inflationFactor inflationRate yearsToInflate in
  {| jurisdiction := jurisdiction table;
     taxYear := taxYear table;
     segments := map (indexSegment factor) (segments table);
     baseCredit := baseCredit table * factor;
     baseCreditRate := baseCreditRate table |}.

(** Modelled from the spec: the input policy of the missing
    [getFederalTaxAmount]; a negative or non-finite income is taken as
    zero. *)
Definition clampToZero (income : num) : Q :=
  match income with
  | Fin x => if Qle_bool 0 x then x else 0
  | _ => 0
  end.

(** Modelled from the spec: the incomes the policy of the missing
    [getFederalTaxAmount] replaces by zero: negative, infinite or [NaN]. *)
Definition negativeOrNonFinite (income : num) : Prop :=
  match income with
  | Fin x => x < 0
  | _ => True
  end.

(** Modelled from the spec: [clamp(income, lowerBound, upperBound)] of
    the missing evaluator. *)
Definition clamp (income lower : Q) (upper : option Q) : Q :=
  let capped :=
    match upper with
    | Some hi => if Qle_bool income hi then income else hi
    | None => income
    end in
  if Qle_bool lower capped then capped else lower.

(** Modelled from the spec: [portionInSegment] of the missing
    evaluator. *)
Definition portionInSegment (income : Q) (s : BracketSegment) : Q :=
  clamp income (lowerBound s) (upperBound s) - lowerBound s.

(** Modelled from the spec: the stop test [income <= segment.upperBound]
    of the missing evaluator. *)
Definition reaches (income : Q) (s : BracketSegment) : bool :=
  match upperBound s with
  | Some hi => Qle_bool income hi
  | None => true
  end.

(** Modelled from the spec: the walk of the missing evaluator over the
    segments in ascending order, accumulating
    [portionInSegment * marginalRate] and stopping at the first segment
    the income does not exceed. *)
Fixpoint accumulate (segs : list BracketSegment) (income : Q) : Q :=
  match segs with
  | [] => 0
  | s :: rest =>
      portionInSegment income s * marginalRate s
      + (if reaches income s then 0 else accumulate rest income)
  end.

(** Modelled from the spec: [evaluateTax] of the missing library, the
    input policy followed by the walk. *)
Definition evaluateTax (table : BracketTable) (income : num) : Q :=
  accumulate (segments table) (clampToZero income).

(** Modelled from the spec: the data-model invariant of the missing
    bracket tables, on one segment: a non-negative rate and, when
    bounded, [lowerBound <= upperBound] with an upper bound other than 0
    (a threshold of 0 is read as absent by [bracket.max || Infinity]). *)
Definition segmentOk (s : BracketSegment) : bool :=
  Qle_bool 0 (marginalRate s)
  && match upperBound s with
     | Some hi => Qle_bool (lowerBound s) hi && negb (Qeq_bool hi 0)
     | None => true
     end.

(** Modelled from the spec: the ordering invariant of the missing
    bracket tables: every segment but the last is bounded and ends no
    later than the next one starts (contiguous tables end exactly
    there). *)
Fixpoint wellFormed (segs : list BracketSegment) : bool :=
  match segs with
  | [] => true
  | s :: rest =>
      segmentOk s
      && match rest with
         | [] => true
         | next :: _ =>
             match upperBound s with
             | Some hi => Qle_bool hi (lowerBound next)
             | None => false
             end
         end
      && wellFormed rest
  end.

(** Modelled from the spec: the lowest lower bound of a missing bracket
    table, that of its first segment. *)
Definition lowestBound (segs : list BracketSegment) : option Q :=
  match segs with
  | [] => None
  | s :: _ => Some (lowerBound s)
  end.

(** Modelled from the spec: bound-for-bound equality of two segments of
    the missing data. *)
Definition sameSegment (a b : BracketSegment) : Prop :=
  lowerBound a == lowerBound b
  /\ match upperBound a, upperBound b with
     | Some x, Some y => x == y
     | None, None => True
     | _, _ => False
     end
  /\ marginalRate a == marginalRate b.

(** Modelled from the spec: bound-for-bound equality of two tables of
    the missing data, with equal codes, years and credits. *)
Definition sameTable (a b : BracketTable) : Prop :=
  jurisdiction a = jurisdiction b
  /\ taxYear a = taxYear b
  /\ Forall2 sameSegment (segments a) (segments b)
  /\ baseCredit a == baseCredit b
  /\ baseCreditRate a == baseCreditRate b.

(** The segment as an entry of [taxBrackets], field for field. *)
Definition toBracket (s : BracketSegment) : Provincial.Bracket :=
  {| Provincial.min := lowerBound s;
     Provincial.max := upperBound s;
     Provincial.rate := marginalRate s |}.

(** The table of the concrete scenarios:
    [[ {0, 50000, 0.15}, {50000, +inf, 0.26} ]]. *)
Definition scenarioSegments : list BracketSegment :=
  [ {| lowerBound := 0; upperBound := Some 50000; marginalRate := 0.15 |};
    {| lowerBound := 50000; upperBound := None; marginalRate := 0.26 |} ].

Definition scenarioTable : BracketTable :=
  {| jurisdiction := CA; taxYear := 2025; segments := scenarioSegments;
     baseCredit := 0; baseCreditRate := 0.15 |}.

End Core.

(** ** The bracket loop on finite incomes *)

Module Walk.

Import Provincial.

(** The finite value of [bracket.max || Infinity], if any. *)
Definition upper (b : Bracket) : option Q :=
  match max b with
  | Some m => if Qeq_bool m 0 then None else Some m
  | None => None
  end.

Definition qmin (a b : Q) : Q := if Qle_bool a b then a else b.

(** [taxableInBracket] for a finite income above [bracket.min]. *)
Definition inBracket (x : Q) (b : Bracket) : Q :=
  match upper b with
  | Some hi => qmin (x - min b) (hi - min b)
  | None => x - min b
  end.

(** [taxableIncome <= bracketMax] for a finite income. *)
Definition within (x : Q) (b : Bracket) : bool :=
  match upper b with
  | Some hi => Qle_bool x hi
  | None => true
  end.

(** [bracketStep] on rationals. *)
Definition stepQ (x : Q) (st : Q * Q) (b : Bracket) : Q * Q :=
  if Qltb (min b) x then
    (fst st + inBracket x b * rate b,
     if Qltb (min b) x && within x b then rate b else snd st)
  else st.

(** What one bracket adds to the tax. *)
Definition contribution (x : Q) (b : Bracket) : Q :=
  if Qltb (min b) x then inBracket x b * rate b else 0.

Fixpoint sumContributions (bs : list Bracket) (x : Q) : Q :=
  match bs with
  | [] => 0
  | b :: rest => contribution x b + sumContributions rest x
  end.

(** The income lies in the bracket: [min < x <= bracketMax]. *)
Definition holds (x : Q) (b : Bracket) : bool :=
  Qltb (min b) x && within x b.

(** The gross tax and the marginal rate the loop leaves for a finite
    taxable income, on a table given as segments. *)
Definition grossTax (segs : list Core.BracketSegment) (x : Q) : num :=
  fst (bracketLoop (map Core.toBracket segs) (Fin x)).

Definition marginalRateAt (segs : list Core.BracketSegment) (x : Q) : num :=
  snd (bracketLoop (map Core.toBracket segs) (Fin x)).

(** The brackets the cascades of [Federal] hard-code, as a table. *)
Definition federalSegments : list Core.BracketSegment :=
  [ {| Core.lowerBound := 0; Core.upperBound := Some 53359;
       Core.marginalRate := 0.15 |};
    {| Core.lowerBound := 53359; Core.upperBound := Some 106717;
       Core.marginalRate := 0.205 |};
    {| Core.lowerBound := 106717; Core.upperBound := Some 165026;
       Core.marginalRate := 0.26 |};
    {| Core.lowerBound := 165026; Core.upperBound := Some 235026;
       Core.marginalRate := 0.29 |};
    {| Core.lowerBound := 235026; Core.upperBound := None;
       Core.marginalRate := 0.33 |} ].

(** Provincial data carrying the scenario table, with no basic personal
    amount and no surtax. *)
Definition scenarioData : ProvincialData :=
  {| basicPersonalAmount := 0;
     taxBrackets := map Core.toBracket Core.scenarioSegments;
     surtax := None |}.

End Walk.

(** ** Further comparisons and [Math.floor] *)

Module JsMath.

(** [a < b] and [a >= b], false on [NaN] like the other comparisons. *)
Definition lt (a b : num) : bool := gt b a.

Definition ge (a b : num) : bool := le b a.

(** [Math.floor]. *)
Definition Math_floor (a : num) : num :=
  match a with
  | Fin x => Fin (inject_Z (Qfloor x))
  | _ => a
  end.

(** [v || 0] on a property that may be missing. *)
Definition orZero (v : option num) : num :=
  match v with
  | Some x => or_else x (Fin 0)
  | None => Fin 0
  end.

End JsMath.

(** ** The other helpers of
       tests/api/endpoints/provincial-variations.spec.ts *)

Module Benefits.

Import JsMath.

(** An entry of [ontarioData.healthPremium.brackets]; [max] is [null] on
    the last one. *)
Record PremiumBracket : Type := {
  min : Q;
  max : option Q;
  premium : Q
}.

(** The loop of [calculateOntarioHealthPremium]: the premium of the first
    bracket with [income >= min && (max === null || income < max)], or 0
    after the loop. *)
Fixpoint firstPremium (brackets : list PremiumBracket) (income : num)
    : num :=
  match brackets with
  | [] => Fin 0
  | bracket :: rest =>
      if ge income (Fin (min bracket))
         && match max bracket with
            | None => true
            | Some m => lt income (Fin m)
            end
      then Fin (premium bracket)
      else firstPremium rest income
  end.

(** The finite income lies in the bracket: [min <= x], and [x < max]
    when the bracket has a maximum. *)
Definition covers (bracket : PremiumBracket) (x : Q) : Prop :=
  min bracket <= x
  /\ match max bracket with
     | None => True
     | Some m => x < m
     end.

(** [calculateOntarioHealthPremium], with [ontarioData.healthPremium] as
    an optional list of brackets. *)
Definition calculateOntarioHealthPremium
    (healthPremium : option (list PremiumBracket)) (income : num) : num :=
  match healthPremium with
  | None => Fin 0
  | Some brackets => firstPremium brackets income
  end.

(** [quebecData.refundableCredits?.solidarity?.[status]]. *)
Record SolidarityCredit : Type := {
  maxCredit : Q;
  incomeThreshold : Q;
  clawbackRate : Q
}.

Inductive Status : Type := single | couple.

Definition calculateQuebecSolidarityCredit
    (solidarity : Status -> option SolidarityCredit)
    (income : num) (status : Status) : num :=
  match solidarity status with
  | None => Fin 0
  | Some creditData =>
      let credit := Fin (maxCredit creditData) in
      if gt income (Fin (incomeThreshold creditData)) then
        let reduction :=
          mul (sub income (Fin (incomeThreshold creditData)))
              (Fin (clawbackRate creditData)) in
        Math_max (Fin 0) (sub credit reduction)
      else credit
  end.

(** [provincialData.credits?.age]; its [incomeThreshold] and
    [clawbackRate] are the fields [ageIncomeThreshold] and
    [ageClawbackRate], and [clawbackRate] may be missing. *)
Record AgeCredit : Type := {
  maxAmount : Q;
  creditRate : Q;
  ageIncomeThreshold : Q;
  ageClawbackRate : option Q
}.

(** [ageCredit.clawbackRate || 0.15]. *)
Definition ageClawback (a : AgeCredit) : num :=
  match ageClawbackRate a with
  | Some r => or_else (Fin r) (Fin 0.15)
  | None => Fin 0.15
  end.

Section WithCredits.

(** [credits.age] of the two imported documents; the default data of
    [getProvincialData] has no [credits]. *)
Variables ontarioAge quebecAge : option AgeCredit.

Definition ageCreditOf (province : string) : option AgeCredit :=
  if String.eqb province "ON" then ontarioAge
  else if String.eqb province "QC" then quebecAge
  else None.

Definition calculateProvincialAgeCredit (income : num) (province : string)
    : num :=
  match ageCreditOf province with
  | None => Fin 0
  | Some ageCredit =>
      let credit :=
        mul (Fin (maxAmount ageCredit)) (Fin (creditRate ageCredit)) in
      if gt income (Fin (ageIncomeThreshold ageCredit)) then
        let reduction :=
          mul (sub income (Fin (ageIncomeThreshold ageCredit)))
              (ageClawback ageCredit) in
        Math_max (Fin 0) (sub credit reduction)
      else credit
  end.

End WithCredits.

(** [quebecData.contributions?.healthServices]. *)
Record HealthServices : Type := {
  threshold : Q;
  exemption : Q;
  hsfRate : Q
}.

Definition calculateQuebecHealthServicesFund
    (healthServices : option HealthServices) (income : num) : num :=
  match healthServices with
  | None => Fin 0
  | Some hsfData =>
      if le income (Fin (threshold hsfData)) then Fin 0
      else Math_max (Fin 0)
             (mul (sub income (Fin (exemption hsfData)))
                  (Fin (hsfRate hsfData)))
  end.

End Benefits.

(** ** [calculateContributions] of
       tests/api/integration/complete-tax-flow.spec.ts *)

Module Flow.

Import JsMath.

(** An entry of [income.employment]; every amount may be missing. *)
Record Employment : Type := {
  grossIncome : option num;
  cppContributions : option num;
  eiContributions : option num;
  incomeTaxDeducted : option num
}.

(** [persona.income] as [calculateContributions] reads it:
    [income.employment] and [income.other?.businessIncome]. *)
Record Income : Type := {
  employment : option (list Employment);
  businessIncome : option num
}.

(** [list.reduce((sum, emp) => sum + (emp.field || 0), 0)]. *)
Definition sumOf (field : Employment -> option num)
    (list : list Employment) : num :=
  fold_left (fun sum emp => add sum (orZero (field emp))) list (Fin 0).

(** [income.employment?.reduce(...) || 0]. *)
Definition totalOf (field : Employment -> option num) (income : Income)
    : num :=
  match employment income with
  | Some list => or_else (sumOf field list) (Fin 0)
  | None => Fin 0
  end.

Record Contributions : Type := {
  additionalCpp : num;
  additionalEi : num;
  cppRequired : num;
  eiRequired : num;
  cppPaid : num;
  eiPaid : num
}.

Definition calculateContributions (income : Income) : Contributions :=
  let employmentIncome := totalOf grossIncome income in
  let businessIncome := orZero (businessIncome income) in
  let totalPensionableIncome := add employmentIncome businessIncome in
  let cppRequired :=
    Math_min (mul totalPensionableIncome (Fin 0.0595)) (Fin 3754.45) in
  let eiRequired :=
    Math_min (mul employmentIncome (Fin 0.0229)) (Fin 1357.50) in
  let cppPaid := totalOf cppContributions income in
  let eiPaid := totalOf eiContributions income in
  {| additionalCpp := Math_max (Fin 0) (sub cppRequired cppPaid);
     additionalEi := Math_max (Fin 0) (sub eiRequired eiPaid);
     cppRequired := cppRequired;
     eiRequired := eiRequired;
     cppPaid := cppPaid;
     eiPaid := eiPaid |}.

(** An amount that is missing, a finite number or [NaN], but not an
    infinity. *)
Definition finiteAmount (v : option num) : Prop :=
  match v with
  | Some PInf | Some NInf => False
  | _ => True
  end.

Definition finiteEmployment (emp : Employment) : Prop :=
  finiteAmount (grossIncome emp)
  /\ finiteAmount (cppContributions emp)
  /\ finiteAmount (eiContributions emp)
  /\ finiteAmount (incomeTaxDeducted emp).

Definition finiteIncome (income : Income) : Prop :=
  finiteAmount (businessIncome income)
  /\ match employment income with
     | Some list => Forall finiteEmployment list
     | None => True
     end.

End Flow.

(** ** The other request schemas, the API key check and the route chain *)

Module Gateway.

Import Api.

Definition incomeProperty : PropertySchema :=
  {| type := TNumber; minimum := Some 0; maximum := Some 10000000;
     enum := None |}.

Definition provinceProperty : PropertySchema :=
  {| type := TString; minimum := None; maximum := None;
     enum := Some provinceCodes |}.

Definition yearProperty : PropertySchema :=
  {| type := TNumber; minimum := Some 2000; maximum := Some 2030;
     enum := None |}.

Definition cppContributionRequestSchema : ObjectSchema := {|
  properties := [ ("income"%string, incomeProperty);
                  ("year"%string, yearProperty) ];
  required := [ "income"%string ];
  additionalProperties := false
|}.

Definition eiContributionRequestSchema : ObjectSchema := {|
  properties := [ ("income"%string, incomeProperty);
                  ("province"%string, provinceProperty);
                  ("year"%string, yearProperty) ];
  required := [ "income"; "province" ]%string;
  additionalProperties := false
|}.

Definition capitalGainsRequestSchema : ObjectSchema := {|
  properties := [ ("capitalGains"%string, incomeProperty);
                  ("province"%string, provinceProperty);
                  ("year"%string, yearProperty) ];
  required := [ "capitalGains"; "province" ]%string;
  additionalProperties := false
|}.

(** Every required name is declared under [properties]. *)
Definition requiredDeclared (s : ObjectSchema) : bool :=
  forallb (declared s) (required s).

(** [s.split(',')]: the pieces between the commas, empty pieces
    included. *)
Fixpoint splitComma (s : string) : list string :=
  match s with
  | EmptyString => [ EmptyString ]
  | String c rest =>
      if Ascii.eqb c ","%char then EmptyString :: splitComma rest
      else match splitComma rest with
           | piece :: pieces => String c piece :: pieces
           | [] => [ String c EmptyString ]
           end
  end.

(** The string holds a comma. *)
Fixpoint hasComma (s : string) : bool :=
  match s with
  | EmptyString => false
  | String c rest => Ascii.eqb c ","%char || hasComma rest
  end.

Inductive AuthOutcome : Type :=
| Denied (status : Z) (code : string)
| Granted.

(** [process.env.VALID_API_KEYS?.split(',') || ['demo-key-123']]. *)
Definition validApiKeys (VALID_API_KEYS : option string) : list string :=
  match VALID_API_KEYS with
  | Some v => splitComma v
  | None => [ "demo-key-123"%string ]
  end.

(** [authenticate] on the [x-api-key] header; an empty header is falsy
    like a missing one. *)
Definition authenticate (VALID_API_KEYS : option string)
    (apiKey : option string) : AuthOutcome :=
  match apiKey with
  | None => Denied 401 "MISSING_API_KEY"
  | Some key =>
      if String.eqb key "" then Denied 401 "MISSING_API_KEY"
      else if existsb (String.eqb key) (validApiKeys VALID_API_KEYS)
           then Granted
           else Denied 401 "INVALID_API_KEY"
  end.

(** An error handed to [next()], as [errorHandler] reads it: the
    properties [statusCode] and [code] may be absent. *)
Record ThrownError : Type := {
  message : string;
  statusCode : option Z;
  code : option string
}.

(** [errorHandler]: an error that has both [statusCode] and [code] is
    answered with them, any other with 500 INTERNAL_ERROR. *)
Definition errorHandler {R : Type} (error : ThrownError) : Reply R :=
  match statusCode error, code error with
  | Some status, Some c => Rejected status c
  | _, _ => Rejected 500 "INTERNAL_ERROR"
  end.

(** The options of a [rateLimit(...)] of express-rate-limit: the window,
    the number of requests it allows and the [code] of its message. *)
Record RateLimit : Type := {
  windowMs : Z;
  max : Z;
  limitCode : string
}.

Definition generalLimiter : RateLimit :=
  {| windowMs := 15 * 60 * 1000; max := 100;
     limitCode := "RATE_LIMIT_EXCEEDED" |}.

Definition calculationLimiter : RateLimit :=
  {| windowMs := 1 * 60 * 1000; max := 30;
     limitCode := "CALCULATION_RATE_LIMIT_EXCEEDED" |}.

(** The limiter answers 429 with its message when [hits], the number of
    requests of the client it has counted in the current window, this
    one included, exceeds [max]. *)
Definition limited (options : RateLimit) (hits : Z) : bool :=
  (max options <? hits)%Z.

(** What [express.json()] and [express.urlencoded()] leave behind:
    [req.body], or the error they hand to [next()] when the body cannot
    be read. *)
Inductive BodyParse : Type :=
| Unreadable (error : ThrownError)
| Parsed (body : json).

(** A POST request to /api/calculate/income-tax as the chain sees it:
    the count of [generalLimiter], the outcome of the body parsers, the
    [x-api-key] header and the count of [calculationLimiter]. *)
Record ApiRequest : Type := {
  hits : Z;
  parsed : BodyParse;
  x_api_key : option string;
  calculationHits : Z
}.

(** The chain of server.ts and of the routers for this request, in the
    order of registration: [generalLimiter], the body parsers,
    [authenticate], then in the calculation router [calculationLimiter]
    and the income-tax route; an error of the parsers goes to
    [errorHandler].  [helmet()] and [cors()] only set headers on a POST
    and call [next()]. *)
Definition incomeTaxEndpoint {R : Type} (VALID_API_KEYS : option string)
    (calculateIncomeTax : json -> R) (req : ApiRequest) : Reply R :=
  if limited generalLimiter (hits req)
  then Rejected 429 (limitCode generalLimiter)
  else
    match parsed req with
    | Unreadable error => errorHandler error
    | Parsed body =>
        match authenticate VALID_API_KEYS (x_api_key req) with
        | Denied status c => Rejected status c
        | Granted =>
            if limited calculationLimiter (calculationHits req)
            then Rejected 429 (limitCode calculationLimiter)
            else postIncomeTax calculateIncomeTax body
        end
    end.

End Gateway.

(** ** The other methods of the service class (api/src) *)

Module CppService.

Record CPPContributionRequest : Type := {
  income : num;
  year : option num
}.

Record CPPContributionResponse : Type := {
  r_income : num;
  pensionableEarnings : num;
  baseContribution : num;
  enhancementContribution : num;
  totalContribution : num;
  r_year : num
}.

Section WithPlan.

(** [CPP.PENSIONABLE_EARNINGS] and [CPP.CONTRIBUTION_RATES] of the
    pension module, [roundToPrecision] of the math utilities and the
    current year of the clock. *)
Variables YMPE BASIC_EXEMPTION YAMPE BASE ENHANCEMENT_STEP_2 : Q.
Variable roundToPrecision : num -> Z -> num.
Variable currentYear : num.

(** [Math.max(0, Math.min(income, YMPE) - BASIC_EXEMPTION)]. *)
Definition pensionable (income : num) : num :=
  Math_max (Fin 0) (sub (Math_min income (Fin YMPE)) (Fin BASIC_EXEMPTION)).

(** [Math.max(0, Math.min(income, YAMPE) - YMPE)]. *)
Definition enhancedPensionable (income : num) : num :=
  Math_max (Fin 0) (sub (Math_min income (Fin YAMPE)) (Fin YMPE)).

(** [baseContribution + enhancementContribution], before rounding. *)
Definition total (income : num) : num :=
  add (mul (pensionable income) (Fin BASE))
      (mul (enhancedPensionable income) (Fin ENHANCEMENT_STEP_2)).

Definition calculateCPPContribution (request : CPPContributionRequest)
    : CPPContributionResponse :=
  let income := income request in
  let year := match year request with Some y => y | None => currentYear end in
  let pensionableEarnings := pensionable income in
  let baseContribution := mul pensionableEarnings (Fin BASE) in
  let enhancedPensionableEarnings := enhancedPensionable income in
  let enhancementContribution :=
    mul enhancedPensionableEarnings (Fin ENHANCEMENT_STEP_2) in
  let totalContribution := add baseContribution enhancementContribution in
  {| r_income := roundToPrecision income 2;
     pensionableEarnings := roundToPrecision pensionableEarnings 2;
     baseContribution := roundToPrecision baseContribution 2;
     enhancementContribution := roundToPrecision enhancementContribution 2;
     totalContribution := roundToPrecision totalContribution 2;
     r_year := year |}.

End WithPlan.

End CppService.

Module EiService.

Record EIContributionRequest : Type := {
  income : num;
  province : string;
  year : option num
}.

Record EIContributionResponse : Type := {
  r_income : num;
  r_province : string;
  insurableEarnings : num;
  premiumRate : num;
  contribution : num;
  r_year : num
}.

Section WithPlan.

(** [EI.MAX_INSURABLE_EARNINGS] and [EI.PREMIUM_RATES] of the insurance
    module. *)
Variables MAX_INSURABLE_EARNINGS PREMIUM_CA PREMIUM_QC : Q.
Variable roundToPrecision : num -> Z -> num.
Variable currentYear : num.

(** [province === 'QC' ? EI.PREMIUM_RATES.QC : EI.PREMIUM_RATES.CA]. *)
Definition rateOf (province : string) : Q :=
  if String.eqb province "QC" then PREMIUM_QC else PREMIUM_CA.

(** [Math.min(income, MAX_INSURABLE_EARNINGS) * premiumRate], before
    rounding. *)
Definition premium (income : num) (province : string) : num :=
  mul (Math_min income (Fin MAX_INSURABLE_EARNINGS)) (Fin (rateOf province)).

Definition calculateEIContribution (request : EIContributionRequest)
    : EIContributionResponse :=
  let income := income request in
  let province := province request in
  let year := match year request with Some y => y | None => currentYear end in
  let insurableEarnings := Math_min income (Fin MAX_INSURABLE_EARNINGS) in
  let premiumRate := Fin (rateOf province) in
  let contribution := mul insurableEarnings premiumRate in
  {| r_income := roundToPrecision income 2;
     r_province := province;
     insurableEarnings := roundToPrecision insurableEarnings 2;
     premiumRate := roundToPrecision premiumRate 6;
     contribution := roundToPrecision contribution 2;
     r_year := year |}.

End WithPlan.

(** The request the controller hands to the service: [req.body] read at
    the type [EIContributionRequest]; [None] when the body does not have
    that type. *)
Definition requestOf (body : Api.json) : option EIContributionRequest :=
  match body with
  | Api.JObj members =>
      match Api.lookup "income" members, Api.lookup "province" members with
      | Some (Api.JNum n), Some (Api.JStr p) =>
          match Api.lookup "year" members with
          | None =>
              Some {| income := Fin n; province := p; year := None |}
          | Some (Api.JNum y) =>
              Some {| income := Fin n; province := p;
                      year := Some (Fin y) |}
          | Some _ => None
          end
      | _, _ => None
      end
  | _ => None
  end.

End EiService.

Module DividendService.

Record DividendTaxRequest : Type := {
  dividendAmount : num;
  isEligible : bool;
  province : string
}.

(** [ELIGIBLE_DIVIDEND] and [NON_ELIGIBLE_DIVIDEND]: the gross-up factor
    and the credit rates, federal and by province. *)
Record DividendRates : Type := {
  GROSS_UP : Q;
  CA : Q;
  provincial : string -> Q
}.

Record DividendTaxResponse : Type := {
  originalDividend : num;
  grossedUpDividend : num;
  taxCredit : num;
  taxOnGrossedUp : num;
  netTax : num;
  afterTaxDividend : num;
  effectiveTaxRate : num
}.

Section WithRates.

(** The two rate tables of the dividend module, the lowest rates
    [TAX_BRACKETS.CA.RATES[0].RATE] and [TAX_BRACKETS[province].RATES[0].RATE]
    of the income-tax module, and [roundToPrecision]. *)
Variables ELIGIBLE_DIVIDEND NON_ELIGIBLE_DIVIDEND : DividendRates.
Variable lowestFederalRate : Q.
Variable lowestProvincialRate : string -> Q.
Variable roundToPrecision : num -> Z -> num.

(** The response before rounding. *)
Definition unrounded (request : DividendTaxRequest) : DividendTaxResponse :=
  let dividendAmount := dividendAmount request in
  let province := province request in
  let dividendRates :=
    if isEligible request then ELIGIBLE_DIVIDEND else NON_ELIGIBLE_DIVIDEND in
  let grossedUpDividend := mul dividendAmount (Fin (GROSS_UP dividendRates)) in
  let federalTaxCredit := mul grossedUpDividend (Fin (CA dividendRates)) in
  let provincialTaxCredit :=
    mul grossedUpDividend (Fin (provincial dividendRates province)) in
  let totalTaxCredit := add federalTaxCredit provincialTaxCredit in
  let federalRate := Fin lowestFederalRate in
  let provincialRate := Fin (lowestProvincialRate province) in
  let combinedRate := add federalRate provincialRate in
  let taxOnGrossedUp := mul grossedUpDividend combinedRate in
  let netTax := Math_max (Fin 0) (sub taxOnGrossedUp totalTaxCredit) in
  let afterTaxDividend := sub dividendAmount netTax in
  let effectiveTaxRate :=
    if gt dividendAmount (Fin 0) then div netTax dividendAmount else Fin 0 in
  {| originalDividend := dividendAmount;
     grossedUpDividend := grossedUpDividend;
     taxCredit := totalTaxCredit;
     taxOnGrossedUp := taxOnGrossedUp;
     netTax := netTax;
     afterTaxDividend := afterTaxDividend;
     effectiveTaxRate := effectiveTaxRate |}.

Definition calculateDividendTax (request : DividendTaxRequest)
    : DividendTaxResponse :=
  let u := unrounded request in
  {| originalDividend := roundToPrecision (originalDividend u) 2;
     grossedUpDividend := roundToPrecision (grossedUpDividend u) 2;
     taxCredit := roundToPrecision (taxCredit u) 2;
     taxOnGrossedUp := roundToPrecision (taxOnGrossedUp u) 2;
     netTax := roundToPrecision (netTax u) 2;
     afterTaxDividend := roundToPrecision (afterTaxDividend u) 2;
     effectiveTaxRate := roundToPrecision (effectiveTaxRate u) 4 |}.

End WithRates.

End DividendService.

(** ** src/utils/date.ts *)

Module DateUtil.

#[local] Open Scope Z_scope.

(** The UTC calendar fields of a valid [Date]: [getUTCFullYear()],
    [getUTCMonth()] (0 to 11) and [getUTCDate()] (1 to 31). *)
Record UTCDate : Type := {
  fullYear : Z;
  month : Z;
  date : Z
}.

Definition getMonthsDiff (firstDate secondDate : UTCDate) : Z :=
  let monthsDiff := month secondDate - month firstDate in
  let yearsDiff := fullYear secondDate - fullYear firstDate in
  monthsDiff + (12 * yearsDiff)
  - (if date secondDate <? date firstDate then 1 else 0).

Definition isLeapYear (y : Z) : bool :=
  (y mod 4 =? 0) && (negb (y mod 100 =? 0) || (y mod 400 =? 0)).

(** Days of month [m] (0 to 11) in year [y]. *)
Definition daysInMonth (y m : Z) : Z :=
  if m =? 1 then (if isLeapYear y then 29 else 28)
  else if (m =? 3) || (m =? 5) || (m =? 8) || (m =? 10) then 30
  else 31.

(** The fields are those of a calendar day. *)
Definition validDate (d : UTCDate) : bool :=
  (0 <=? month d) && (month d <=? 11)
  && (1 <=? date d) && (date d <=? daysInMonth (fullYear d) (month d)).

(** Every day of year [y] is within the 100,000,000 days on either side
    of 1 January 1970 that a [Date] can hold (the range runs from April
    -271821 to September 275760). *)
Definition wholeYearInRange (y : Z) : bool :=
  (-271820 <=? y) && (y <=? 275759).

(** [setUTCFullYear(y)] on the calendar fields, for a year [y] within the
    range of [Date] (outside it the date becomes invalid): the month and
    the day are kept, and a day past the end of the month in year [y] runs
    over into the next month (29 February becomes 1 March). *)
Definition setUTCFullYear (d : UTCDate) (y : Z) : UTCDate :=
  if date d <=? daysInMonth y (month d)
  then {| fullYear := y; month := month d; date := date d |}
  else {| fullYear := y; month := month d + 1;
          date := date d - daysInMonth y (month d) |}.

(** [addYearsToDate] for a whole number of years. *)
Definition addYearsToDate (d : UTCDate) (years : Z) : UTCDate :=
  setUTCFullYear d (fullYear d + years).

(** [firstDate] is not after [secondDate]. *)
Definition notAfter (firstDate secondDate : UTCDate) : Prop :=
  fullYear firstDate < fullYear secondDate
  \/ (fullYear firstDate = fullYear secondDate
      /\ (month firstDate < month secondDate
          \/ (month firstDate = month secondDate
              /\ date firstDate <= date secondDate))).

End DateUtil.

(** ** tests/api/fixtures/data-generator.ts *)

Module Generators.

Import JsMath.

(** [generateRandomIncome(min, max)], with the value of [Math.random()]
    as [random]. *)
Definition generateRandomIncome (random : num) (min max : num) : num :=
  add (Math_floor (mul random (add (sub max min) (Fin 1)))) min.

(** [generateRandomAge(min, max)], with the value of [Math.random()] as
    [random]. *)
Definition generateRandomAge (random : num) (min max : num) : num :=
  add (Math_floor (mul random (add (sub max min) (Fin 1)))) min.

(** [generateRRSPContribution(income)], with the value of
    [Math.random()] as [random]. *)
Definition generateRRSPContribution (random : num) (income : num) : num :=
  let maxContribution := Math_min (mul income (Fin 0.18)) (Fin 31560) in
  let contributionRate := mul random (Fin 0.15) in
  Math_min (Math_floor (mul income contributionRate)) maxContribution.

End Generators.

(** * Properties *)

(** ** Boolean comparisons on rationals *)

Lemma Qle_bool_false (a b : Q) : Qle_bool a b = false <-> b < a.
Proof.
  rewrite <- not_true_iff_false, Qle_bool_iff. split; intro H.
  - apply Qnot_le_lt; exact H.
  - apply Qlt_not_le; exact H.
Qed.

Lemma Qltb_true (a b : Q) : Qltb a b = true <-> a < b.
Proof. unfold Qltb. rewrite negb_true_iff. apply Qle_bool_false. Qed.

Lemma Qltb_false (a b : Q) : Qltb a b = false <-> b <= a.
Proof. unfold Qltb. rewrite negb_false_iff. apply Qle_bool_iff. Qed.

Lemma Qeq_bool_false (a b : Q) : Qeq_bool a b = false <-> ~ a == b.
Proof. rewrite <- not_true_iff_false, Qeq_bool_iff. tauto. Qed.

(** Turn every boolean comparison among the hypotheses into its
    proposition. *)
Ltac qprop :=
  repeat match goal with
  | H : Qle_bool _ _ = true |- _ => apply Qle_bool_iff in H
  | H : Qle_bool _ _ = false |- _ => apply Qle_bool_false in H
  | H : Qltb _ _ = true |- _ => apply Qltb_true in H
  | H : Qltb _ _ = false |- _ => apply Qltb_false in H
  | H : Qeq_bool _ _ = true |- _ => apply Qeq_bool_iff in H
  | H : Qeq_bool _ _ = false |- _ => apply Qeq_bool_false in H
  | H : _ && _ = true |- _ => apply andb_true_iff in H; destruct H
  | H : negb _ = true |- _ => apply negb_true_iff in H
  end.

(** Split on the first boolean comparison the goal tests. *)
Ltac qcase :=
  match goal with
  | |- context [Qle_bool ?a ?b] =>
      let E := fresh "E" in destruct (Qle_bool a b) eqn:E
  | |- context [Qltb ?a ?b] =>
      let E := fresh "E" in destruct (Qltb a b) eqn:E
  | |- context [Qeq_bool ?a ?b] =>
      let E := fresh "E" in destruct (Qeq_bool a b) eqn:E
  end.

(** The same on a comparison left inside a hypothesis. *)
Ltac qcase_in :=
  match goal with
  | H : context [Qle_bool ?a ?b] |- _ =>
      let E := fresh "E" in destruct (Qle_bool a b) eqn:E
  | H : context [Qltb ?a ?b] |- _ =>
      let E := fresh "E" in destruct (Qltb a b) eqn:E
  | H : context [Qeq_bool ?a ?b] |- _ =>
      let E := fresh "E" in destruct (Qeq_bool a b) eqn:E
  end.

Ltac qsolve :=
  repeat (qcase; simpl); qprop; repeat (qcase_in; qprop);
  simpl in *; try lra.

(** Case analysis that drops a branch as soon as its comparisons
    contradict each other. *)
Ltac qsplit :=
  repeat (qcase; qprop; cbv beta iota; try (exfalso; lra)).

(** ** The loop on a finite income is the loop on rationals *)

Section WalkFacts.

Import Provincial Walk.

Lemma bracketMax_upper (b : Bracket) :
  bracketMax b = match upper b with Some hi => Fin hi | None => PInf end.
Proof.
  unfold bracketMax, upper, or_else, truthy.
  destruct (max b) as [m|]; [|reflexivity].
  destruct (Qeq_bool m 0); reflexivity.
Qed.

Lemma bracketStep_fin (x t m : Q) (b : Bracket) :
  bracketStep (Fin x) (Fin t, Fin m) b
  = (Fin (fst (stepQ x (t, m) b)), Fin (snd (stepQ x (t, m) b))).
Proof.
  unfold bracketStep, stepQ, inBracket, within, qmin.
  rewrite bracketMax_upper. simpl.
  destruct (Qltb (min b) x); [|reflexivity].
  destruct (upper b) as [hi|]; simpl.
  - destruct (Qle_bool (x - min b) (hi - min b));
      destruct (Qle_bool x hi); reflexivity.
  - reflexivity.
Qed.

Lemma bracketFold_fin (bs : list Bracket) (x t m : Q) :
  fold_left (bracketStep (Fin x)) bs (Fin t, Fin m)
  = (Fin (fst (fold_left (stepQ x) bs (t, m))),
     Fin (snd (fold_left (stepQ x) bs (t, m)))).
Proof.
  revert t m. induction bs as [|b bs IH]; intros t m; [reflexivity|].
  cbn [fold_left]. rewrite bracketStep_fin.
  destruct (stepQ x (t, m) b) as [t' m'] eqn:E. cbn [fst snd]. apply IH.
Qed.

(** The tax component is the running total plus each bracket's
    contribution. *)
Lemma fold_tax (bs : list Bracket) (x t m : Q) :
  fst (fold_left (stepQ x) bs (t, m)) == t + sumContributions bs x.
Proof.
  revert t m. induction bs as [|b bs IH]; intros t m; simpl.
  - lra.
  - destruct (stepQ x (t, m) b) as [t' m'] eqn:E.
    rewrite IH. unfold stepQ, contribution in *.
    destruct (Qltb (min b) x); inversion E; subst; simpl; lra.
Qed.

(** The rate component is untouched by brackets that do not hold the
    income. *)
Lemma fold_rate_none (bs : list Bracket) (x t m : Q) :
  Forall (fun b => holds x b = false) bs ->
  snd (fold_left (stepQ x) bs (t, m)) = m.
Proof.
  revert t m. induction bs as [|b bs IH]; intros t m H; [reflexivity|].
  inversion H as [|? ? Hb Hbs]; subst. simpl.
  destruct (stepQ x (t, m) b) as [t' m'] eqn:E.
  rewrite (IH t' m' Hbs).
  unfold stepQ, holds in *.
  destruct (Qltb (min b) x); simpl in *.
  - rewrite Hb in E. inversion E; reflexivity.
  - inversion E; reflexivity.
Qed.

Lemma fold_rate_last (l1 l2 : list Bracket) (b : Bracket) (x t m : Q) :
  holds x b = true ->
  Forall (fun c => holds x c = false) l2 ->
  snd (fold_left (stepQ x) (l1 ++ b :: l2) (t, m)) = rate b.
Proof.
  intros Hb Hl2. rewrite fold_left_app. simpl.
  destruct (fold_left (stepQ x) l1 (t, m)) as [t1 m1].
  destruct (stepQ x (t1, m1) b) as [t' m'] eqn:E.
  rewrite (fold_rate_none l2 x t' m' Hl2).
  unfold stepQ, holds in *.
  apply andb_true_iff in Hb. destruct Hb as [H1 H2].
  rewrite H1, H2 in E. simpl in E. inversion E; reflexivity.
Qed.

End WalkFacts.

(** ** Contributions of well-formed tables *)

Section TableFacts.

Import Provincial Walk Core.

Lemma segmentOk_spec (s : BracketSegment) :
  segmentOk s = true ->
  0 <= marginalRate s
  /\ match upperBound s with
     | Some hi => lowerBound s <= hi /\ ~ hi == 0
     | None => True
     end.
Proof.
  unfold segmentOk. intro H. apply andb_true_iff in H. destruct H as [Hr Hb].
  split; [apply Qle_bool_iff; exact Hr|].
  destruct (upperBound s) as [hi|]; [|exact I].
  apply andb_true_iff in Hb. destruct Hb as [H1 H2].
  split; [apply Qle_bool_iff; exact H1|].
  apply negb_true_iff in H2. apply Qeq_bool_false; exact H2.
Qed.

Lemma upper_toBracket (s : BracketSegment) :
  segmentOk s = true -> upper (toBracket s) = upperBound s.
Proof.
  intro H. apply segmentOk_spec in H. destruct H as [_ H].
  unfold upper, toBracket; simpl.
  destruct (upperBound s) as [hi|]; [|reflexivity].
  destruct H as [_ Hz]. apply Qeq_bool_false in Hz. rewrite Hz. reflexivity.
Qed.

Lemma wellFormed_cons (s : BracketSegment) (rest : list BracketSegment) :
  wellFormed (s :: rest) = true ->
  segmentOk s = true /\ wellFormed rest = true.
Proof.
  simpl. intro H. apply andb_true_iff in H. destruct H as [H Hrest].
  apply andb_true_iff in H. destruct H as [Hs _]. split; assumption.
Qed.

(** In a well-formed table every later segment starts at or after the
    end of an earlier one. *)
Lemma wellFormed_after (s : BracketSegment) (rest : list BracketSegment) :
  wellFormed (s :: rest) = true -> rest <> [] ->
  exists hi, upperBound s = Some hi
             /\ Forall (fun c => hi <= lowerBound c) rest.
Proof.
  revert s. induction rest as [|next rest IH]; intros s Hwf Hne;
    [congruence|].
  pose proof (wellFormed_cons _ _ Hwf) as [_ Hwf'].
  simpl in Hwf. apply andb_true_iff in Hwf. destruct Hwf as [Hwf _].
  apply andb_true_iff in Hwf. destruct Hwf as [_ Hadj].
  destruct (upperBound s) as [hi|]; [|discriminate].
  apply Qle_bool_iff in Hadj.
  exists hi. split; [reflexivity|].
  constructor; [exact Hadj|].
  destruct rest as [|c rest']; [constructor|].
  destruct (IH next Hwf') as [hi' [Hu Hall]]; [discriminate|].
  pose proof (wellFormed_cons _ _ Hwf') as [Hok _].
  apply segmentOk_spec in Hok. destruct Hok as [_ Hok].
  rewrite Hu in Hok. destruct Hok as [Hle _].
  eapply Forall_impl; [|exact Hall].
  intros a Ha. simpl in Ha. lra.
Qed.

(** Only the last segment of a well-formed table can be unbounded. *)
Lemma wellFormed_unbounded (s : BracketSegment) (rest : list BracketSegment) :
  wellFormed (s :: rest) = true -> upperBound s = None -> rest = [].
Proof.
  intros Hwf Hu. destruct rest as [|n r]; [reflexivity|].
  destruct (wellFormed_after s (n :: r) Hwf) as [hi [H _]]; congruence.
Qed.

(** The portion of a finite income the loop taxes in a bracket. *)
Lemma taxed_portion (x : Q) (s : BracketSegment) :
  segmentOk s = true ->
  (if Qltb (lowerBound s) x then inBracket x (toBracket s) else 0)
  == portionInSegment x s.
Proof.
  intro Hok. unfold inBracket.
  rewrite (upper_toBracket s Hok).
  apply segmentOk_spec in Hok. destruct Hok as [_ Hb].
  unfold portionInSegment, clamp, qmin, toBracket; simpl.
  destruct (upperBound s) as [hi|].
  - destruct Hb as [Hle _]. qsolve.
  - qsolve.
Qed.

Lemma contribution_portion (x : Q) (s : BracketSegment) :
  segmentOk s = true ->
  contribution x (toBracket s) == portionInSegment x s * marginalRate s.
Proof.
  intro Hok. rewrite <- (taxed_portion x s Hok).
  unfold contribution, toBracket; simpl.
  destruct (Qltb (lowerBound s) x); simpl; lra.
Qed.

Lemma contribution_zero (x : Q) (b : Bracket) :
  x <= min b -> contribution x b = 0.
Proof.
  intro H. unfold contribution. apply Qltb_false in H. rewrite H. reflexivity.
Qed.

Lemma sumContributions_zero (bs : list Bracket) (x : Q) :
  Forall (fun b => x <= min b) bs -> sumContributions bs x == 0.
Proof.
  induction 1 as [|b bs Hb _ IH]; simpl; [reflexivity|].
  rewrite (contribution_zero x b Hb), IH. lra.
Qed.

(** The walk with its stop test adds up the same contributions as the
    loop, which visits every bracket. *)
Lemma accumulate_sum (segs : list BracketSegment) (x : Q) :
  wellFormed segs = true ->
  accumulate segs x == sumContributions (map toBracket segs) x.
Proof.
  induction segs as [|s rest IH]; intro Hwf; simpl; [reflexivity|].
  pose proof (wellFormed_cons _ _ Hwf) as [Hok Hrest].
  rewrite (contribution_portion x s Hok).
  unfold reaches.
  destruct (upperBound s) as [hi|] eqn:Hu.
  - destruct (Qle_bool x hi) eqn:E.
    + apply Qle_bool_iff in E.
      rewrite sumContributions_zero; [lra|].
      destruct rest as [|n r]; [constructor|].
      destruct (wellFormed_after s (n :: r) Hwf) as [hi' [Hu' Hall]];
        [discriminate|].
      rewrite Hu in Hu'. inversion Hu'; subst hi'.
      apply Forall_map. eapply Forall_impl; [|exact Hall].
      intros a Ha. simpl in *. lra.
    + rewrite (IH Hrest). lra.
  - rewrite (wellFormed_unbounded s rest Hwf Hu). simpl. lra.
Qed.

(** The taxed portion of one bracket grows with the income. *)
Lemma contribution_mono (x y : Q) (s : BracketSegment) :
  segmentOk s = true -> x <= y ->
  contribution x (toBracket s) <= contribution y (toBracket s).
Proof.
  intros Hok Hxy.
  rewrite !(contribution_portion _ s Hok).
  apply segmentOk_spec in Hok. destruct Hok as [Hr Hb].
  apply Qmult_le_compat_r; [|exact Hr].
  unfold portionInSegment, clamp.
  destruct (upperBound s) as [hi|].
  - destruct Hb as [Hle _]. qsolve.
  - qsolve.
Qed.

Lemma sumContributions_mono (segs : list BracketSegment) (x y : Q) :
  wellFormed segs = true -> x <= y ->
  sumContributions (map toBracket segs) x
  <= sumContributions (map toBracket segs) y.
Proof.
  induction segs as [|s rest IH]; intros Hwf Hxy; simpl; [lra|].
  pose proof (wellFormed_cons _ _ Hwf) as [Hok Hrest].
  pose proof (contribution_mono x y s Hok Hxy).
  pose proof (IH Hrest Hxy). lra.
Qed.

Lemma grossTax_fin (segs : list BracketSegment) (x : Q) :
  grossTax segs x
  = Fin (fst (fold_left (stepQ x) (map toBracket segs) (0, 0))).
Proof.
  unfold grossTax, bracketLoop. rewrite bracketFold_fin. reflexivity.
Qed.

Lemma grossTax_sum (segs : list BracketSegment) (x : Q) :
  grossTax segs x =F= sumContributions (map toBracket segs) x.
Proof.
  rewrite grossTax_fin. simpl. rewrite fold_tax. lra.
Qed.

Lemma marginalRateAt_fin (segs : list BracketSegment) (x : Q) :
  marginalRateAt segs x
  = Fin (snd (fold_left (stepQ x) (map toBracket segs) (0, 0))).
Proof.
  unfold marginalRateAt, bracketLoop. rewrite bracketFold_fin. reflexivity.
Qed.

End TableFacts.

(** ** The cascades of [Federal] are the loop on their table *)

Section CascadeFacts.

Import Provincial Walk Core Federal.

Lemma federalSegments_wellFormed : wellFormed federalSegments = true.
Proof. reflexivity. Qed.

Lemma federalTaxOf_sum (x : Q) :
  federalTaxOf (Fin x) =F= accumulate federalSegments x.
Proof.
  unfold federalTaxOf, accumulate, federalSegments, portionInSegment,
    clamp, reaches, gt, Math_min, le, sub, mul, add, is_fin; simpl.
  qsplit; lra.
Qed.

End CascadeFacts.

(** ** Indexation keeps a table well formed *)

Section IndexFacts.

Import Provincial Walk Core.

Lemma inflationFactor_pos (r : Q) (n : nat) :
  -1 < r -> 0 < inflationFactor r n.
Proof. intro H. unfold inflationFactor. apply Qpower_0_lt. lra. Qed.

Lemma inflationFactor_zero_years (r : Q) : inflationFactor r 0 == 1.
Proof. unfold inflationFactor. simpl. reflexivity. Qed.

Lemma segmentOk_index (f : Q) (s : BracketSegment) :
  0 < f -> segmentOk s = true -> segmentOk (indexSegment f s) = true.
Proof.
  intros Hf Hok. apply segmentOk_spec in Hok. destruct Hok as [Hr Hb].
  unfold segmentOk, indexSegment; simpl.
  apply andb_true_iff. split; [apply Qle_bool_iff; exact Hr|].
  destruct (upperBound s) as [hi|]; simpl; [|reflexivity].
  destruct Hb as [Hle Hnz].
  apply andb_true_iff. split.
  - apply Qle_bool_iff. apply Qmult_le_compat_r; lra.
  - apply negb_true_iff. apply Qeq_bool_false. intro Hz.
    apply Qmult_integral in Hz. destruct Hz; [tauto|lra].
Qed.

Lemma wellFormed_index (f : Q) (segs : list BracketSegment) :
  0 < f -> wellFormed segs = true ->
  wellFormed (map (indexSegment f) segs) = true.
Proof.
  intro Hf. induction segs as [|s rest IH]; intro Hwf; [reflexivity|].
  pose proof (wellFormed_cons _ _ Hwf) as [Hok Hrest].
  cbn [map wellFormed].
  rewrite (segmentOk_index f s Hf Hok), (IH Hrest).
  destruct rest as [|next r]; [reflexivity|].
  destruct (wellFormed_after s (next :: r) Hwf) as [hi [Hu Hall]];
    [discriminate|].
  inversion Hall as [|? ? Hn _]; subst.
  cbn [map]. unfold indexSegment at 1 2. cbn [upperBound lowerBound].
  rewrite Hu. cbn [option_map].
  replace (Qle_bool (hi * f) (lowerBound next * f)) with true; [reflexivity|].
  symmetry. apply Qle_bool_iff. apply Qmult_le_compat_r; lra.
Qed.

(** The first segment of a well-formed table has the lowest bound. *)
Lemma wellFormed_lowest (s : BracketSegment) (rest : list BracketSegment) :
  wellFormed (s :: rest) = true ->
  Forall (fun c => lowerBound s <= lowerBound c) (s :: rest).
Proof.
  intro Hwf. constructor; [lra|].
  destruct rest as [|n r]; [constructor|].
  destruct (wellFormed_after s (n :: r) Hwf) as [hi [Hu Hall]];
    [discriminate|].
  pose proof (wellFormed_cons _ _ Hwf) as [Hok _].
  apply segmentOk_spec in Hok. destruct Hok as [_ Hb].
  rewrite Hu in Hb. destruct Hb as [Hle _].
  eapply Forall_impl; [|exact Hall]. intros a Ha. simpl in Ha. lra.
Qed.

Lemma grossTax_below_lowest (segs : list BracketSegment) (lo x : Q) :
  wellFormed segs = true -> lowestBound segs = Some lo -> x <= lo ->
  sumContributions (map toBracket segs) x == 0.
Proof.
  intros Hwf Hlo Hx. destruct segs as [|s rest]; [discriminate|].
  simpl in Hlo. inversion Hlo; subst lo.
  apply sumContributions_zero. apply Forall_map.
  eapply Forall_impl; [|exact (wellFormed_lowest s rest Hwf)].
  intros a Ha. simpl in *. lra.
Qed.

Lemma clampToZero_mono (x y : Q) :
  x <= y -> clampToZero (Fin x) <= clampToZero (Fin y).
Proof. intro H. unfold clampToZero. qsolve. Qed.

Lemma clampToZero_below (x lo : Q) :
  0 <= lo -> x <= lo -> clampToZero (Fin x) <= lo.
Proof. intros H0 H. unfold clampToZero. qsolve. Qed.

End IndexFacts.

(** ** The claims on the bracket evaluator *)

Section EvaluatorClaims.

Import Provincial Walk Core Federal.

Lemma flowTaxOf_sum (x : Q) :
  flowTaxOf (Fin x) =F= accumulate federalSegments x.
Proof.
  unfold flowTaxOf, accumulate, federalSegments, portionInSegment,
    clamp, reaches, gt, Math_min, le, sub, mul, add, is_fin; simpl.
  qsplit; lra.
Qed.

(** C1. On every well-formed bracket table and every finite income the
    bracket loop of [calculateProvincialTax] returns the sum, over the
    segments in ascending order, of the portion of the income in the
    segment times the segment's rate; the hard-coded cascades of
    [calculateIncomeTax] and [calculateFederalTax] return the same sum on
    their table.  On [[{0, 50000, 0.15}, {50000, +inf, 0.26}]] and income
    75000 the result is 50000*0.15 + 25000*0.26 = 14000, not
    75000 * 0.26. *)
Theorem C1_bracket_accumulation :
  (forall (segs : list BracketSegment) (x : Q),
      wellFormed segs = true ->
      grossTax segs x =F= accumulate segs x)
  /\ (forall x : Q,
        federalTaxOf (Fin x) =F= accumulate federalSegments x
        /\ flowTaxOf (Fin x) =F= accumulate federalSegments x)
  /\ grossTax scenarioSegments 75000 =F= 50000 * 0.15 + 25000 * 0.26
  /\ grossTax scenarioSegments 75000 =F= 14000
  /\ ~ grossTax scenarioSegments 75000 =F= 75000 * 0.26
  /\ (forall abatement : Q,
        Provincial.taxOwing (calculateProvincialTax scenarioData scenarioData
                    abatement (Fin 75000) "ON") =F= 14000).
Proof.
  split; [|split; [|split; [|split; [|split]]]].
  - intros segs x Hwf.
    rewrite grossTax_fin. unfold is_fin.
    rewrite fold_tax, (accumulate_sum segs x Hwf). lra.
  - intro x. split; [apply federalTaxOf_sum | apply flowTaxOf_sum].
  - vm_compute. reflexivity.
  - vm_compute. reflexivity.
  - vm_compute. discriminate.
  - intro abatement. vm_compute. reflexivity.
Qed.

Lemma C1_bracket_accumulation_witness :
  grossTax federalSegments 120000 =F= accumulate federalSegments 120000.
Proof.
  apply (proj1 C1_bracket_accumulation federalSegments 120000).
  reflexivity.
Defined.

(** C2. On every well-formed table the gross tax of the bracket loop
    does not decrease when the income grows and is zero at or below the
    lowest bound; the same holds for [evaluateTax] on the table indexed
    with any inflation rate above -1 and any number of years, so
    [evaluateTax(table, 0) = 0] when the lowest bracket starts at 0. *)
Theorem C2_monotone_and_zero :
  (forall (segs : list BracketSegment) (x y : Q),
      wellFormed segs = true -> x <= y ->
      le (grossTax segs x) (grossTax segs y) = true)
  /\ (forall (segs : list BracketSegment) (lo x : Q),
        wellFormed segs = true -> lowestBound segs = Some lo -> x <= lo ->
        grossTax segs x =F= 0)
  /\ (forall (t : BracketTable) (r : Q) (n : nat) (x y : Q),
        wellFormed (segments t) = true -> -1 < r -> x <= y ->
        evaluateTax (indexTable t r n) (Fin x)
        <= evaluateTax (indexTable t r n) (Fin y))
  /\ (forall (t : BracketTable) (r : Q) (n : nat) (lo x : Q),
        wellFormed (segments t) = true -> -1 < r ->
        lowestBound (segments t) = Some lo -> 0 <= lo ->
        x <= lo * inflationFactor r n ->
        evaluateTax (indexTable t r n) (Fin x) == 0)
  /\ (forall (t : BracketTable),
        wellFormed (segments t) = true ->
        lowestBound (segments t) = Some 0 ->
        evaluateTax t (Fin 0) == 0).
Proof.
  repeat split.
  - intros segs x y Hwf Hxy.
    rewrite !grossTax_fin. simpl. apply Qle_bool_iff.
    rewrite !fold_tax.
    pose proof (sumContributions_mono segs x y Hwf Hxy). lra.
  - intros segs lo x Hwf Hlo Hx.
    rewrite grossTax_fin. simpl. rewrite fold_tax.
    rewrite (grossTax_below_lowest segs lo x Hwf Hlo Hx). lra.
  - intros t r n x y Hwf Hr Hxy.
    pose proof (wellFormed_index _ _ (inflationFactor_pos r n Hr) Hwf) as Hi.
    unfold evaluateTax. cbn [indexTable segments].
    rewrite !(accumulate_sum _ _ Hi).
    apply sumContributions_mono; [exact Hi|].
    apply clampToZero_mono; exact Hxy.
  - intros t r n lo x Hwf Hr Hlo H0 Hx.
    pose proof (inflationFactor_pos r n Hr) as Hf.
    pose proof (wellFormed_index _ _ Hf Hwf) as Hi.
    unfold evaluateTax. cbn [indexTable segments].
    rewrite (accumulate_sum _ _ Hi).
    apply (grossTax_below_lowest _ (lo * inflationFactor r n)); [exact Hi| |].
    + destruct (segments t) as [|s rest]; [discriminate|].
      simpl in *. inversion Hlo; subst. reflexivity.
    + apply clampToZero_below; [|exact Hx].
      apply Qmult_le_0_compat; lra.
  - intros t Hwf Hlo.
    unfold evaluateTax. rewrite (accumulate_sum _ _ Hwf).
    apply (grossTax_below_lowest _ 0 _ Hwf Hlo).
    unfold clampToZero. simpl. lra.
Qed.

Lemma C2_monotone_and_zero_witness :
  le (grossTax scenarioSegments 40000) (grossTax scenarioSegments 75000)
  = true.
Proof.
  apply (proj1 C2_monotone_and_zero scenarioSegments 40000 75000).
  - reflexivity.
  - vm_compute. discriminate.
Defined.

End EvaluatorClaims.

(** ** Position of a segment in a well-formed table *)

Section PositionFacts.

Import Provincial Walk Core.

Lemma wellFormed_suffix (l1 l2 : list BracketSegment) :
  wellFormed (l1 ++ l2) = true -> wellFormed l2 = true.
Proof.
  induction l1 as [|a l1 IH]; intro H; [exact H|].
  apply IH. exact (proj2 (wellFormed_cons _ _ H)).
Qed.

(** Every segment before [s] is bounded and ends at or before the start
    of [s]. *)
Lemma wellFormed_before (l1 l2 : list BracketSegment) (s : BracketSegment) :
  wellFormed (l1 ++ s :: l2) = true ->
  Forall (fun b => segmentOk b = true
                   /\ exists hb, upperBound b = Some hb
                                 /\ hb <= lowerBound s) l1.
Proof.
  induction l1 as [|a l1 IH]; intro Hwf; [constructor|].
  pose proof (wellFormed_cons _ _ Hwf) as [Hok Hrest].
  constructor; [|apply IH; exact Hrest].
  split; [exact Hok|].
  destruct (wellFormed_after a (l1 ++ s :: l2) Hwf) as [hi [Hu Hall]].
  - destruct l1; discriminate.
  - exists hi. split; [exact Hu|].
    rewrite Forall_forall in Hall. apply Hall.
    apply in_or_app. right. left. reflexivity.
Qed.

(** Every segment after [s] starts at or after the end of [s]. *)
Lemma wellFormed_behind (l2 : list BracketSegment) (s : BracketSegment)
    (x : Q) :
  wellFormed (s :: l2) = true -> reaches x s = true ->
  Forall (fun c => x <= lowerBound c) l2.
Proof.
  intros Hwf Hx. destruct l2 as [|n r]; [constructor|].
  destruct (wellFormed_after s (n :: r) Hwf) as [hi [Hu Hall]];
    [discriminate|].
  unfold reaches in Hx. rewrite Hu in Hx. apply Qle_bool_iff in Hx.
  eapply Forall_impl; [|exact Hall]. intros a Ha. simpl in Ha. lra.
Qed.

Lemma sumContributions_app (l1 l2 : list Bracket) (x : Q) :
  sumContributions (l1 ++ l2) x
  == sumContributions l1 x + sumContributions l2 x.
Proof. induction l1 as [|a l1 IH]; simpl; [lra | rewrite IH; lra]. Qed.

(** A bracket that ends at or below both incomes is taxed in full at
    both. *)
Lemma contribution_full (x y hb : Q) (b : BracketSegment) :
  segmentOk b = true -> upperBound b = Some hb -> hb <= x -> hb <= y ->
  contribution x (toBracket b) == contribution y (toBracket b).
Proof.
  intros Hok Hu Hx Hy.
  rewrite !(contribution_portion _ b Hok).
  apply segmentOk_spec in Hok. destruct Hok as [_ Hb]. rewrite Hu in Hb.
  destruct Hb as [Hle _].
  assert (P : portionInSegment x b == portionInSegment y b).
  { unfold portionInSegment, clamp. rewrite Hu. qsolve. }
  rewrite P. reflexivity.
Qed.

Lemma sumContributions_full (l1 : list BracketSegment) (lo x y : Q) :
  Forall (fun b => segmentOk b = true
                   /\ exists hb, upperBound b = Some hb /\ hb <= lo) l1 ->
  lo <= x -> lo <= y ->
  sumContributions (map toBracket l1) x
  == sumContributions (map toBracket l1) y.
Proof.
  intros H Hx Hy. induction H as [|b l1 [Hok [hb [Hu Hle]]] _ IH]; simpl;
    [reflexivity|].
  rewrite IH, (contribution_full x y hb b Hok Hu); [reflexivity|lra|lra].
Qed.

(** Inside a segment the contribution is linear in the income. *)
Lemma contribution_linear (x y : Q) (s : BracketSegment) :
  segmentOk s = true -> lowerBound s <= x -> x <= y -> reaches y s = true ->
  contribution y (toBracket s) - contribution x (toBracket s)
  == (y - x) * marginalRate s.
Proof.
  intros Hok Hlo Hxy Hy.
  rewrite !(contribution_portion _ s Hok).
  apply segmentOk_spec in Hok. destruct Hok as [_ Hb].
  assert (Px : portionInSegment x s == x - lowerBound s).
  { unfold portionInSegment, clamp, reaches in *.
    destruct (upperBound s) as [hi|]; qsolve. }
  assert (Py : portionInSegment y s == y - lowerBound s).
  { unfold portionInSegment, clamp, reaches in *.
    destruct (upperBound s) as [hi|]; qsolve. }
  rewrite Px, Py. ring.
Qed.

(** The tax is linear, with the segment's rate as slope, between any two
    incomes of one segment. *)
Lemma tax_linear_in_segment (l1 l2 : list BracketSegment)
    (s : BracketSegment) (x y : Q) :
  wellFormed (l1 ++ s :: l2) = true ->
  lowerBound s <= x -> x <= y -> reaches y s = true ->
  sumContributions (map toBracket (l1 ++ s :: l2)) y
  - sumContributions (map toBracket (l1 ++ s :: l2)) x
  == (y - x) * marginalRate s.
Proof.
  intros Hwf Hlo Hxy Hy.
  pose proof (wellFormed_suffix l1 (s :: l2) Hwf) as Hs.
  pose proof (wellFormed_cons _ _ Hs) as [Hok _].
  rewrite map_app, !sumContributions_app. cbn [map sumContributions].
  pose proof (wellFormed_behind l2 s y Hs Hy) as Hl2.
  assert (Hy0 : sumContributions (map toBracket l2) y == 0).
  { apply sumContributions_zero, Forall_map.
    eapply Forall_impl; [|exact Hl2]. intros a Ha. exact Ha. }
  assert (Hx0 : sumContributions (map toBracket l2) x == 0).
  { apply sumContributions_zero, Forall_map.
    eapply Forall_impl; [|exact Hl2]. intros a Ha. simpl in *. lra. }
  pose proof (sumContributions_full l1 (lowerBound s) x y
                (wellFormed_before l1 l2 s Hwf) Hlo) as H1.
  pose proof (contribution_linear x y s Hok Hlo Hxy Hy) as Hc.
  rewrite Hy0, Hx0, H1 by lra. lra.
Qed.

(** A segment that holds the income is the last one to set the rate. *)
Lemma rate_of_holding_segment (l1 l2 : list BracketSegment)
    (s : BracketSegment) (x : Q) :
  wellFormed (l1 ++ s :: l2) = true ->
  lowerBound s < x -> reaches x s = true ->
  marginalRateAt (l1 ++ s :: l2) x = Fin (marginalRate s).
Proof.
  intros Hwf Hlo Hx.
  pose proof (wellFormed_suffix l1 (s :: l2) Hwf) as Hs.
  pose proof (wellFormed_cons _ _ Hs) as [Hok _].
  rewrite marginalRateAt_fin, map_app. cbn [map].
  rewrite (fold_rate_last (map toBracket l1) (map toBracket l2)
             (toBracket s) x 0 0); [reflexivity| |].
  - unfold holds, within. rewrite (upper_toBracket s Hok).
    apply andb_true_iff. split; [apply Qltb_true; exact Hlo|exact Hx].
  - apply Forall_map.
    eapply Forall_impl; [|exact (wellFormed_behind l2 s x Hs Hx)].
    intros a Ha. unfold holds. simpl in *.
    apply Qltb_false in Ha. rewrite Ha. reflexivity.
Qed.

Lemma is_fin_eq (n : num) (p q : Q) : n =F= p -> p == q -> n =F= q.
Proof.
  destruct n; simpl; try contradiction. intros H1 H2.
  rewrite H1. exact H2.
Qed.

Lemma sub_is_fin (a b : num) (p q : Q) :
  a =F= p -> b =F= q -> sub a b =F= p - q.
Proof.
  destruct a, b; simpl; try contradiction. intros Ha Hb.
  rewrite Ha, Hb. reflexivity.
Qed.

End PositionFacts.

(** ** The claims on the marginal rate and on continuity *)

Section RateClaims.

Import Provincial Walk Core Federal.

(** C6, as amended.  On a well-formed table the loop of
    [calculateProvincialTax] leaves as marginal rate the rate of the
    segment with [lowerBound < income <= upperBound], the same whichever
    such segment is named, and leaves 0 when the income is at or below
    the lowest bound; on [[{0, 50000, 0.15}, {50000, +inf, 0.26}]] it
    is 0.26 at 75000 and 0.15 at 40000. *)
Theorem C6_marginal_rate :
  (forall (segs : list BracketSegment) (s : BracketSegment) (x : Q),
      wellFormed segs = true -> In s segs ->
      lowerBound s < x -> reaches x s = true ->
      marginalRateAt segs x = Fin (marginalRate s))
  /\ (forall (segs : list BracketSegment) (s1 s2 : BracketSegment) (x : Q),
        wellFormed segs = true -> In s1 segs -> In s2 segs ->
        lowerBound s1 < x -> reaches x s1 = true ->
        lowerBound s2 < x -> reaches x s2 = true ->
        marginalRate s1 = marginalRate s2)
  /\ (forall (segs : list BracketSegment) (lo x : Q),
        wellFormed segs = true -> lowestBound segs = Some lo -> x <= lo ->
        marginalRateAt segs x = Fin 0)
  /\ marginalRateAt scenarioSegments 75000 =F= 0.26
  /\ marginalRateAt scenarioSegments 40000 =F= 0.15
  /\ (forall abatement : Q,
        Provincial.marginalRate
          (calculateProvincialTax scenarioData scenarioData abatement
             (Fin 75000) "ON") =F= 0.26).
Proof.
  assert (Hmain : forall segs s x,
             wellFormed segs = true -> In s segs ->
             lowerBound s < x -> reaches x s = true ->
             marginalRateAt segs x = Fin (marginalRate s)).
  { intros segs s x Hwf Hin Hlo Hx.
    destruct (in_split s segs Hin) as [l1 [l2 Heq]]. subst segs.
    apply rate_of_holding_segment; assumption. }
  split; [exact Hmain|].
  split; [|split; [|split; [|split]]].
  - intros segs s1 s2 x Hwf H1 H2 Hlo1 Hx1 Hlo2 Hx2.
    pose proof (Hmain segs s1 x Hwf H1 Hlo1 Hx1) as E1.
    pose proof (Hmain segs s2 x Hwf H2 Hlo2 Hx2) as E2.
    rewrite E1 in E2. inversion E2. reflexivity.
  - intros segs lo x Hwf Hlo Hx.
    rewrite marginalRateAt_fin.
    rewrite fold_rate_none; [reflexivity|].
    destruct segs as [|s rest]; [constructor|].
    simpl in Hlo. inversion Hlo; subst lo.
    apply Forall_map.
    eapply Forall_impl; [|exact (wellFormed_lowest s rest Hwf)].
    intros a Ha. unfold holds. simpl in *.
    assert (Hf : Qltb (lowerBound a) x = false) by (apply Qltb_false; lra).
    rewrite Hf. reflexivity.
  - vm_compute. reflexivity.
  - vm_compute. reflexivity.
  - intro abatement. vm_compute. reflexivity.
Qed.

Lemma C6_marginal_rate_witness :
  marginalRateAt federalSegments 120000 = Fin 0.26.
Proof.
  apply (proj1 C6_marginal_rate federalSegments
           {| lowerBound := 106717; upperBound := Some 165026;
              marginalRate := 0.26 |} 120000).
  - reflexivity.
  - simpl. right. right. left. reflexivity.
  - reflexivity.
  - reflexivity.
Defined.

(** C6, as stated, fails at the lowest bound: on the scenario table the
    income 0 is at the lowest bound and the loop leaves 0, not the first
    segment's 0.15. *)
Lemma C6_counterexample :
  lowestBound scenarioSegments = Some 0
  /\ marginalRateAt scenarioSegments 0 =F= 0
  /\ ~ marginalRateAt scenarioSegments 0 =F= 0.15
  /\ Provincial.marginalRate
       (calculateProvincialTax scenarioData scenarioData 0.165
          (Fin 10000) "AB") =F= 0
  /\ firstRate defaultData =F= 0.10.
Proof.
  split; [reflexivity|]. split; [|split; [|split]].
  - vm_compute. reflexivity.
  - vm_compute. discriminate.
  - vm_compute. reflexivity.
  - vm_compute. reflexivity.
Qed.

(** C9, as amended.  For adjacent segments of a well-formed table with
    shared boundary [b], the tax at any income [x] of the previous segment,
    the boundary included, is the tax at the previous boundary plus
    [(x - previousBoundary) * previousRate], and it is not above the tax at
    [b]; so the tax at [b] is the tax at the previous boundary plus
    [(b - previousBoundary) * previousRate].  Above a contiguous boundary
    the tax at [y] of the next segment is the tax at [b] plus
    [(y - b) * nextRate], and not below the tax at [b]: the next rate
    applies only to what exceeds [b], and the two formulas agree at [b].
    The cascade of [calculateIncomeTax] behaves the same at its
    boundaries.  Each equation is the sum as the loop itself forms it. *)
Theorem C9_bracket_continuity :
  (forall (l1 l2 : list BracketSegment) (prev next : BracketSegment)
          (b x : Q),
      wellFormed (l1 ++ prev :: next :: l2) = true ->
      upperBound prev = Some b -> lowerBound prev <= x -> x <= b ->
      exists t,
        grossTax (l1 ++ prev :: next :: l2) x =F= t
        /\ add (grossTax (l1 ++ prev :: next :: l2) (lowerBound prev))
               (mul (sub (Fin x) (Fin (lowerBound prev)))
                    (Fin (marginalRate prev)))
           =F= t
        /\ le (grossTax (l1 ++ prev :: next :: l2) x)
              (grossTax (l1 ++ prev :: next :: l2) b) = true)
  /\ (forall (l1 l2 : list BracketSegment) (prev next : BracketSegment)
             (b : Q),
        wellFormed (l1 ++ prev :: next :: l2) = true ->
        upperBound prev = Some b ->
        exists t,
          grossTax (l1 ++ prev :: next :: l2) b =F= t
          /\ add (grossTax (l1 ++ prev :: next :: l2) (lowerBound prev))
                 (mul (sub (Fin b) (Fin (lowerBound prev)))
                      (Fin (marginalRate prev)))
             =F= t)
  /\ (forall (l1 l2 : list BracketSegment) (prev next : BracketSegment)
             (b y : Q),
        wellFormed (l1 ++ prev :: next :: l2) = true ->
        upperBound prev = Some b -> lowerBound next == b ->
        b <= y -> reaches y next = true ->
        exists t,
          grossTax (l1 ++ prev :: next :: l2) y =F= t
          /\ add (grossTax (l1 ++ prev :: next :: l2) b)
                 (mul (sub (Fin y) (Fin b)) (Fin (marginalRate next)))
             =F= t
          /\ le (grossTax (l1 ++ prev :: next :: l2) b)
                (grossTax (l1 ++ prev :: next :: l2) y) = true)
  /\ (forall (l1 l2 : list BracketSegment) (prev next : BracketSegment)
             (b x : Q),
        federalSegments = l1 ++ prev :: next :: l2 ->
        upperBound prev = Some b -> lowerBound prev <= x -> x <= b ->
        exists t,
          federalTaxOf (Fin x) =F= t
          /\ add (federalTaxOf (Fin (lowerBound prev)))
                 (mul (sub (Fin x) (Fin (lowerBound prev)))
                      (Fin (marginalRate prev)))
             =F= t
          /\ le (federalTaxOf (Fin x)) (federalTaxOf (Fin b)) = true).
Proof.
  assert (Hlin : forall l1 l2 prev next b x,
             wellFormed (l1 ++ prev :: next :: l2) = true ->
             upperBound prev = Some b -> lowerBound prev <= x -> x <= b ->
             sumContributions
               (map toBracket (l1 ++ prev :: next :: l2)) x
             == sumContributions
                  (map toBracket (l1 ++ prev :: next :: l2))
                  (lowerBound prev)
                + (x - lowerBound prev) * marginalRate prev).
  { intros l1 l2 prev next b x Hwf Hu Hlo Hx.
    assert (Hr : reaches x prev = true).
    { unfold reaches. rewrite Hu. apply Qle_bool_iff. exact Hx. }
    pose proof (tax_linear_in_segment l1 (next :: l2) prev
                  (lowerBound prev) x Hwf (Qle_refl _) Hlo Hr) as H.
    lra. }
  assert (Hsum : forall segs p x r,
             sumContributions (map toBracket segs) x
             == sumContributions (map toBracket segs) p + (x - p) * r ->
             add (grossTax segs p) (mul (sub (Fin x) (Fin p)) (Fin r))
             =F= sumContributions (map toBracket segs) x).
  { intros segs p x r H. rewrite (grossTax_fin segs p).
    cbn [sub mul add is_fin]. rewrite fold_tax. rewrite H. lra. }
  assert (Hle : forall segs x y,
             wellFormed segs = true -> x <= y ->
             le (grossTax segs x) (grossTax segs y) = true).
  { intros segs x y Hwf Hxy. rewrite !grossTax_fin. cbn [le].
    apply Qle_bool_iff. rewrite !fold_tax.
    pose proof (sumContributions_mono segs x y Hwf Hxy). lra. }
  split; [|split; [|split]].
  - intros l1 l2 prev next b x Hwf Hu Hlo Hx.
    exists (sumContributions (map toBracket (l1 ++ prev :: next :: l2)) x).
    split; [apply grossTax_sum|]. split.
    + apply Hsum. apply (Hlin l1 l2 prev next b x Hwf Hu Hlo Hx).
    + apply Hle; assumption.
  - intros l1 l2 prev next b Hwf Hu.
    pose proof (wellFormed_suffix l1 _ Hwf) as Hs.
    pose proof (wellFormed_cons _ _ Hs) as [Hok _].
    apply segmentOk_spec in Hok. destruct Hok as [_ Hb].
    rewrite Hu in Hb. destruct Hb as [Hlo _].
    exists (sumContributions (map toBracket (l1 ++ prev :: next :: l2)) b).
    split; [apply grossTax_sum|].
    apply Hsum. apply (Hlin l1 l2 prev next b b Hwf Hu Hlo (Qle_refl _)).
  - intros l1 l2 prev next b y Hwf Hu Hcontig Hby Hy.
    exists (sumContributions (map toBracket (l1 ++ prev :: next :: l2)) y).
    split; [apply grossTax_sum|]. split.
    + apply Hsum.
      assert (Hwf' : wellFormed ((l1 ++ [prev]) ++ next :: l2) = true).
      { rewrite <- app_assoc. exact Hwf. }
      pose proof (tax_linear_in_segment (l1 ++ [prev]) l2 next b y Hwf'
                    ltac:(lra) Hby Hy) as H.
      rewrite <- app_assoc in H. cbn [app] in H. lra.
    + apply Hle; assumption.
  - intros l1 l2 prev next b x Heq Hu Hlo Hx.
    pose proof federalSegments_wellFormed as Hwf.
    assert (Hfed : forall z,
               federalTaxOf (Fin z)
               =F= sumContributions (map toBracket federalSegments) z).
    { intro z. apply (is_fin_eq _ _ _ (federalTaxOf_sum z)).
      apply accumulate_sum. exact Hwf. }
    pose proof (Hfed x) as Fx. pose proof (Hfed b) as Fb.
    pose proof (Hfed (lowerBound prev)) as Fp.
    pose proof (sumContributions_mono federalSegments x b Hwf Hx) as Hm.
    assert (Hl : sumContributions (map toBracket federalSegments) x
                 == sumContributions (map toBracket federalSegments)
                      (lowerBound prev)
                    + (x - lowerBound prev) * marginalRate prev).
    { rewrite Heq in Hwf |- *.
      apply (Hlin l1 l2 prev next b x Hwf Hu Hlo Hx). }
    exists (sumContributions (map toBracket federalSegments) x).
    split; [exact Fx|].
    destruct (federalTaxOf (Fin x)) as [tx| | |]; try contradiction.
    destruct (federalTaxOf (Fin b)) as [tb| | |]; try contradiction.
    destruct (federalTaxOf (Fin (lowerBound prev))) as [tp| | |];
      try contradiction.
    cbn [is_fin] in Fx, Fb, Fp. cbn [sub mul add is_fin le].
    split; [rewrite Hl, Fp; lra|].
    apply Qle_bool_iff. lra.
Qed.

Lemma C9_bracket_continuity_witness :
  exists t,
    grossTax scenarioSegments 49999 =F= t
    /\ add (grossTax scenarioSegments 0)
           (mul (sub (Fin 49999) (Fin 0)) (Fin 0.15))
       =F= t
    /\ le (grossTax scenarioSegments 49999) (grossTax scenarioSegments 50000)
       = true.
Proof.
  apply (proj1 C9_bracket_continuity []%list []%list
           {| lowerBound := 0; upperBound := Some 50000;
              marginalRate := 0.15 |}
           {| lowerBound := 50000; upperBound := None;
              marginalRate := 0.26 |} 50000 49999).
  - reflexivity.
  - reflexivity.
  - simpl. lra.
  - lra.
Defined.

(** C9, as stated, fails: on the scenario table the boundary is 50000,
    the previous boundary 0 and the previous rate 0.15; the tax at 50000
    and the tax just below, at 49999, differ by less than 1 and not by
    (50000 - 0) * 0.15 = 7500.  The cascade does the same at its first
    boundary, 53359. *)
Lemma C9_counterexample :
  le (sub (grossTax scenarioSegments 50000) (grossTax scenarioSegments 49999))
     (Fin 1) = true
  /\ ~ sub (grossTax scenarioSegments 50000)
           (grossTax scenarioSegments 49999)
       =F= (50000 - 0) * 0.15
  /\ le (sub (federalTaxOf (Fin 53359)) (federalTaxOf (Fin 53358))) (Fin 1)
     = true
  /\ ~ sub (federalTaxOf (Fin 53359)) (federalTaxOf (Fin 53358))
       =F= (53359 - 0) * 0.15.
Proof.
  split; [|split; [|split]].
  - vm_compute. reflexivity.
  - vm_compute. discriminate.
  - vm_compute. reflexivity.
  - vm_compute. discriminate.
Qed.

End RateClaims.


(** ** The claims on indexation and on the input policy *)

Section CoreClaims.

Import Provincial Walk Core.

Lemma sameSegment_index_one (s : BracketSegment) :
  sameSegment (indexSegment 1 s) s.
Proof.
  unfold sameSegment, indexSegment; simpl.
  split; [lra|]. split; [|reflexivity].
  destruct (upperBound s); simpl; [lra|exact I].
Qed.

Lemma sameSegments_index (f : Q) (segs : list BracketSegment) :
  f == 1 -> Forall2 sameSegment (map (indexSegment f) segs) segs.
Proof.
  intro Hf. induction segs as [|s rest IH]; simpl; constructor; [|exact IH].
  unfold sameSegment, indexSegment; simpl.
  split; [rewrite Hf; lra|]. split; [|reflexivity].
  destruct (upperBound s); simpl; [rewrite Hf; lra|exact I].
Qed.

(** C3. [indexTable(table, r, n)] multiplies the lower bound, the bounded
    upper bound of every segment and the base credit by [(1 + r)^n], keeps
    an unbounded upper limit unbounded and keeps the rates; with zero
    years the result equals the table bound for bound. *)
Theorem C3_index_scaling :
  forall (t : BracketTable) (r : Q) (n : nat),
    List.length (segments (indexTable t r n)) = List.length (segments t)
    /\ (forall (i : nat) (s : BracketSegment),
          nth_error (segments t) i = Some s ->
          exists s',
            nth_error (segments (indexTable t r n)) i = Some s'
            /\ lowerBound s' == lowerBound s * (1 + r) ^ Z.of_nat n
            /\ match upperBound s with
               | Some u =>
                   exists u', upperBound s' = Some u'
                              /\ u' == u * (1 + r) ^ Z.of_nat n
               | None => upperBound s' = None
               end
            /\ marginalRate s' = marginalRate s)
    /\ baseCredit (indexTable t r n)
       == baseCredit t * (1 + r) ^ Z.of_nat n
    /\ sameTable (indexTable t r 0) t
    /\ Forall2 sameSegment
         (segments (indexTable scenarioTable 0.02 2))
         [ {| lowerBound := 0; upperBound := Some 52020;
              marginalRate := 0.15 |};
           {| lowerBound := 52020; upperBound := None;
              marginalRate := 0.26 |} ].
Proof.
  intros t r n. split; [|split; [|split; [|split]]].
  - unfold indexTable; simpl. apply length_map.
  - intros i s Hi. exists (indexSegment (inflationFactor r n) s).
    unfold indexTable; cbn [segments].
    rewrite nth_error_map, Hi. split; [reflexivity|].
    unfold indexSegment, inflationFactor; simpl.
    split; [reflexivity|]. split; [|reflexivity].
    destruct (upperBound s) as [u|]; simpl; [|reflexivity].
    exists (u * (1 + r) ^ Z.of_nat n). split; reflexivity.
  - unfold indexTable; simpl. reflexivity.
  - unfold sameTable, indexTable; cbn [jurisdiction taxYear segments
      baseCredit baseCreditRate].
    pose proof (inflationFactor_zero_years r) as H1.
    repeat split; try reflexivity.
    + apply sameSegments_index. exact H1.
    + rewrite H1. lra.
  - repeat constructor; vm_compute; reflexivity.
Qed.

Lemma C3_index_scaling_witness :
  exists s',
    nth_error (segments (indexTable scenarioTable 0.02 2)) 0 = Some s'
    /\ lowerBound s' == 0 * (1 + 0.02) ^ Z.of_nat 2
    /\ (exists u', upperBound s' = Some u'
                   /\ u' == 50000 * (1 + 0.02) ^ Z.of_nat 2)
    /\ marginalRate s' = 0.15.
Proof.
  apply (proj1 (proj2 (C3_index_scaling scenarioTable 0.02 2)) 0%nat
           {| lowerBound := 0; upperBound := Some 50000;
              marginalRate := 0.15 |}).
  reflexivity.
Defined.

(** C8. [evaluateTax] is total; on a negative, infinite or [NaN] income
    it computes on the income 0 and, on a well-formed table whose lowest
    bound is not negative, returns zero tax.  The bracket loop of
    [calculateProvincialTax] likewise leaves zero tax on [NaN] and on a
    negative income. *)
Theorem C8_invalid_income_is_zero :
  (forall (t : BracketTable) (income : num),
      negativeOrNonFinite income ->
      evaluateTax t income = evaluateTax t (Fin 0))
  /\ (forall (t : BracketTable) (income : num) (lo : Q),
        negativeOrNonFinite income ->
        wellFormed (segments t) = true ->
        lowestBound (segments t) = Some lo -> 0 <= lo ->
        evaluateTax t income == 0)
  /\ (forall bs : list Bracket, bracketLoop bs NaN = (Fin 0, Fin 0))
  /\ (forall (segs : list BracketSegment) (lo x : Q),
        wellFormed segs = true -> lowestBound segs = Some lo -> 0 <= lo ->
        x < 0 -> grossTax segs x =F= 0).
Proof.
  assert (Hclamp : forall income,
             negativeOrNonFinite income -> clampToZero income = 0).
  { intros [x| | |] H; simpl in *; try reflexivity.
    assert (E : Qle_bool 0 x = false) by (apply Qle_bool_false; exact H).
    rewrite E. reflexivity. }
  split; [|split; [|split]].
  - intros t income H. unfold evaluateTax. rewrite (Hclamp income H).
    reflexivity.
  - intros t income lo H Hwf Hlo H0. unfold evaluateTax.
    rewrite (Hclamp income H), (accumulate_sum _ _ Hwf).
    apply (grossTax_below_lowest _ lo 0 Hwf Hlo H0).
  - intro bs. unfold bracketLoop.
    induction bs as [|b bs IH]; [reflexivity|exact IH].
  - intros segs lo x Hwf Hlo H0 Hx.
    apply (is_fin_eq _ _ _ (grossTax_sum segs x)).
    apply (grossTax_below_lowest segs lo x Hwf Hlo). lra.
Qed.

Lemma C8_invalid_income_is_zero_witness :
  evaluateTax scenarioTable NaN == 0
  /\ evaluateTax scenarioTable (Fin (-1000)) == 0
  /\ evaluateTax scenarioTable PInf == 0.
Proof.
  split; [|split].
  - apply (proj1 (proj2 C8_invalid_income_is_zero) scenarioTable NaN 0);
      [exact I | reflexivity | reflexivity | lra].
  - apply (proj1 (proj2 C8_invalid_income_is_zero) scenarioTable
             (Fin (-1000)) 0);
      [simpl; lra | reflexivity | reflexivity | lra].
  - apply (proj1 (proj2 C8_invalid_income_is_zero) scenarioTable PInf 0);
      [exact I | reflexivity | reflexivity | lra].
Defined.

End CoreClaims.


(** ** The claims on abatement, credit and effective rate *)

Section StepClaims.

Import Provincial Walk Core Federal.

(** C4. The abatement step of [calculateFederalTax] turns a federal tax
    [x] into [x * (1 - 0.165)] for Quebec and leaves it as it is for every
    other province code, so the adjusted tax never exceeds a non-negative
    gross tax; 14000 becomes 11690.  The rate the step applies is the
    [federalAbatement] that [calculateProvincialTax] reports. *)
Theorem C4_quebec_abatement :
  (forall x : Q, applyAbatement (Fin x) "QC" =F= x * (1 - 0.165))
  /\ (forall (x : num) (j : string), j <> "QC"%string -> applyAbatement x j = x)
  /\ (forall (x : Q) (j : string),
        0 <= x -> le (applyAbatement (Fin x) j) (Fin x) = true)
  /\ applyAbatement (Fin 14000) "QC" =F= 14000 * 0.835
  /\ applyAbatement (Fin 14000) "QC" =F= 11690
  /\ (forall (taxableIncome : num) (j : string),
        Federal.taxOwing (calculateFederalTax taxableIncome j)
        = applyAbatement
            (flowTaxOf (Math_max (Fin 0) (sub taxableIncome (Fin 15000)))) j)
  /\ (forall (ontarioData quebecData : ProvincialData) (income : num)
             (j : string),
        Provincial.federalAbatement
          (calculateProvincialTax ontarioData quebecData 0.165 income j)
        = Fin (if String.eqb j "QC" then 0.165 else 0))
  /\ (forall (x : Q) (j : string),
        applyAbatement (Fin x) j
        =F= x * (1 - (if String.eqb j "QC" then 0.165 else 0))).
Proof.
  split; [|split; [|split; [|split; [|split; [|split; [|split]]]]]].
  - intro x. unfold applyAbatement; simpl. lra.
  - intros x j Hj. unfold applyAbatement.
    destruct (String.eqb j "QC") eqn:E; [|reflexivity].
    apply String.eqb_eq in E. contradiction.
  - intros x j Hx. unfold applyAbatement.
    destruct (String.eqb j "QC"); simpl; apply Qle_bool_iff; lra.
  - vm_compute. reflexivity.
  - vm_compute. reflexivity.
  - intros taxableIncome j. reflexivity.
  - intros ontarioData quebecData income j.
    unfold calculateProvincialTax.
    destruct (bracketLoop _ _) as [tax rate0].
    cbn [Provincial.federalAbatement].
    destruct (String.eqb j "QC"); reflexivity.
  - intros x j. unfold applyAbatement.
    destruct (String.eqb j "QC"); simpl; lra.
Qed.

Lemma C4_quebec_abatement_witness :
  le (applyAbatement (Fin 14000) "QC") (Fin 14000) = true
  /\ applyAbatement (Fin 14000) "ON" = Fin 14000.
Proof.
  split.
  - apply (proj1 (proj2 (proj2 C4_quebec_abatement)) 14000 "QC"%string). lra.
  - apply (proj1 (proj2 C4_quebec_abatement) (Fin 14000) "ON"%string).
    discriminate.
Defined.

(** C5. The credit step [Math.max(0, tax - credit)] of the calculators
    equals [max(0, tax - credit)] on all non-negative amounts: it is never
    negative and it is [tax - credit] whenever [credit <= tax]; credit 2000
    on tax 11690 leaves 9690 and credit 20000 leaves 0.  Every calculator
    forms its [netTax] with this step. *)
Theorem C5_credit_floor :
  (forall t c : Q,
      0 <= t -> 0 <= c ->
      applyCredit (Fin t) (Fin c) =F= Qmax 0 (t - c)
      /\ le (Fin 0) (applyCredit (Fin t) (Fin c)) = true)
  /\ (forall t c : Q,
        0 <= t -> 0 <= c -> c <= t ->
        applyCredit (Fin t) (Fin c) =F= t - c)
  /\ applyCredit (Fin 11690) (Fin 2000) =F= 9690
  /\ applyCredit (Fin 11690) (Fin 20000) =F= 0
  /\ (forall (ontarioData quebecData : ProvincialData) (abatement : Q)
             (income : num) (j : string),
        let r :=
          calculateProvincialTax ontarioData quebecData abatement income j in
        Provincial.netTax r
        = applyCredit (Provincial.taxOwing r)
            (Provincial.nonRefundableCredits r)
        /\ Provincial.finalTax r = Provincial.netTax r)
  /\ (forall (totalIncome : num) (rrsp : option num),
        let r := calculateIncomeTax_federal totalIncome rrsp in
        Federal.netTax r
        = applyCredit (Federal.taxOwing r) (Federal.nonRefundableCredits r))
  /\ (forall (taxableIncome : num) (j : string),
        let r := calculateFederalTax taxableIncome j in
        Federal.netTax r
        = applyCredit (Federal.taxOwing r) (Federal.nonRefundableCredits r)).
Proof.
  split; [|split; [|split; [|split; [|split; [|split]]]]].
  - intros t c Ht Hc. unfold applyCredit; simpl.
    destruct (Qle_bool 0 (t - c)) eqn:E; simpl; qprop.
    + split; [|apply Qle_bool_iff; exact E].
      rewrite Q.max_r by exact E. reflexivity.
    + split; [|reflexivity].
      rewrite Q.max_l by lra. reflexivity.
  - intros t c Ht Hc Hct. unfold applyCredit; simpl.
    assert (E : Qle_bool 0 (t - c) = true) by (apply Qle_bool_iff; lra).
    rewrite E. simpl. reflexivity.
  - vm_compute. reflexivity.
  - vm_compute. reflexivity.
  - intros ontarioData quebecData abatement income j.
    unfold calculateProvincialTax.
    destruct (bracketLoop _ _) as [tax rate0]. simpl. split; reflexivity.
  - intros totalIncome rrsp. reflexivity.
  - intros taxableIncome j. reflexivity.
Qed.

Lemma C5_credit_floor_witness :
  applyCredit (Fin 11690) (Fin 2000) =F= 11690 - 2000
  /\ applyCredit (Fin 11690) (Fin 20000) =F= Qmax 0 (11690 - 20000).
Proof.
  split.
  - apply (proj1 (proj2 C5_credit_floor) 11690 2000); lra.
  - apply (proj1 C5_credit_floor 11690 20000); lra.
Defined.

(** Division by a positive finite income is finite. *)
Lemma div_fin_pos (t i : Q) : 0 < i -> div (Fin t) (Fin i) = Fin (t / i).
Proof.
  intro H. simpl.
  assert (E : Qeq_bool i 0 = false) by (apply Qeq_bool_false; lra).
  rewrite E. reflexivity.
Qed.

(** C7. The effective rate [income > 0 ? totalTax / income : 0] is
    [finalTax / income] when the income is positive and 0 when it is zero
    or not positive ([NaN] included); for a finite tax the result is
    always a finite number, never [Infinity] or [NaN].  The service class
    and [calculateProvincialTax] compute their effective rate this way. *)
Theorem C7_effective_rate :
  (forall t i : Q,
      0 < i -> effectiveRate (Fin t) (Fin i) =F= t / i)
  /\ (forall (tax income : num),
        gt income (Fin 0) = true -> effectiveRate tax income = div tax income)
  /\ (forall (tax income : num),
        gt income (Fin 0) = false -> effectiveRate tax income = Fin 0)
  /\ (forall tax : num, effectiveRate tax (Fin 0) = Fin 0)
  /\ (forall (t : Q) (income : num),
        isFinite (effectiveRate (Fin t) income) = true)
  /\ (forall (ontarioData quebecData : ProvincialData) (abatement : Q)
             (income : num) (j : string),
        let r :=
          calculateProvincialTax ontarioData quebecData abatement income j in
        Provincial.effectiveRateOf r
        = effectiveRate (Provincial.taxOwing r) income)
  /\ (forall (Rates : Type)
             (getFederalTaxAmount getProvincialTaxAmount getTotalTaxAmount
                : string -> num -> num -> num -> num)
             (getTaxRates : string -> Rates)
             (getRate : Rates -> num -> num -> num -> num)
             (roundToPrecision : num -> Z -> num)
             (request : Api.IncomeTaxRequest),
        Api.effectiveTaxRate
          (Api.calculateIncomeTax Rates getFederalTaxAmount
             getProvincialTaxAmount getTotalTaxAmount getTaxRates getRate
             roundToPrecision request)
        = roundToPrecision
            (effectiveRate
               (getTotalTaxAmount (Api.province request)
                  (Api.grossIncome request)
                  (Api.withDefault (Api.inflationRate request) (Fin 0))
                  (Api.withDefault (Api.yearsToInflate request) (Fin 0)))
               (Api.grossIncome request)) 4%Z).
Proof.
  split; [|split; [|split; [|split; [|split; [|split]]]]].
  - intros t i Hi. unfold effectiveRate.
    assert (E : gt (Fin i) (Fin 0) = true) by (apply Qltb_true; exact Hi).
    rewrite E, (div_fin_pos t i Hi). simpl. reflexivity.
  - intros tax income H. unfold effectiveRate. rewrite H. reflexivity.
  - intros tax income H. unfold effectiveRate. rewrite H. reflexivity.
  - intro tax. reflexivity.
  - intros t income. unfold effectiveRate.
    destruct income as [i| | |]; simpl; try reflexivity.
    destruct (Qltb 0 i) eqn:E; [|reflexivity].
    apply Qltb_true in E.
    assert (E0 : Qeq_bool i 0 = false) by (apply Qeq_bool_false; lra).
    rewrite E0. reflexivity.
  - intros ontarioData quebecData abatement income j.
    unfold calculateProvincialTax.
    destruct (bracketLoop _ _) as [tax rate0]. reflexivity.
  - intros. reflexivity.
Qed.

Lemma C7_effective_rate_witness :
  effectiveRate (Fin 14000) (Fin 75000) =F= 14000 / 75000
  /\ effectiveRate (Fin 14000) NaN = Fin 0.
Proof.
  split.
  - apply (proj1 C7_effective_rate 14000 75000). reflexivity.
  - apply (proj1 (proj2 (proj2 C7_effective_rate)) (Fin 14000) NaN).
    reflexivity.
Defined.

End StepClaims.

(** ** The claim on request validation *)

Section ValidationClaims.

Import Api.

Lemma lookup_filter_declared (s : ObjectSchema) (key : string)
    (members : list (string * json)) :
  declared s key = true ->
  lookup key (filter (fun m => declared s (fst m)) members)
  = lookup key members.
Proof.
  intro Hk. induction members as [|[k v] rest IH]; [reflexivity|].
  simpl. destruct (declared s k) eqn:Ed; simpl.
  - rewrite IH. reflexivity.
  - destruct (String.eqb k key) eqn:E; [|exact IH].
    apply String.eqb_eq in E. subst k. congruence.
Qed.

Lemma filter_declared_all (s : ObjectSchema)
    (members : list (string * json)) :
  forallb (fun m => declared s (fst m))
    (filter (fun m => declared s (fst m)) members) = true.
Proof.
  induction members as [|m rest IH]; [reflexivity|].
  simpl. destruct (declared s (fst m)) eqn:E; simpl; [rewrite E|]; exact IH.
Qed.

Lemma numberProperty_spec (lo hi : Q) (v : json) :
  validProperty {| type := TNumber; minimum := Some lo; maximum := Some hi;
                   enum := None |} v = true
  <-> numberIn lo hi v.
Proof.
  unfold validProperty, hasType, inRange, inEnum, numberIn; simpl.
  destruct v; simpl; try (split; [discriminate|contradiction]).
  rewrite andb_true_r, andb_true_iff, !Qle_bool_iff. reflexivity.
Qed.

Lemma enumProperty_spec (allowed : list string) (v : json) :
  validProperty {| type := TString; minimum := None; maximum := None;
                   enum := Some allowed |} v = true
  <-> exists p, v = JStr p /\ In p allowed.
Proof.
  unfold validProperty, hasType, inRange, inEnum; simpl.
  destruct v as [| | |p| |]; simpl;
    try (split; [discriminate | intros [p [Hp _]]; discriminate]).
  rewrite existsb_exists. split.
  - intros [y [Hin He]]. apply String.eqb_eq in He. subst y.
    exists p. split; [reflexivity|exact Hin].
  - intros [q [Hq Hin]]. inversion Hq; subst q.
    exists p. split; [exact Hin|apply String.eqb_refl].
Qed.

Lemma optionalNumber_spec (lo hi : Q) (v : option json) :
  match v with
  | Some x =>
      validProperty {| type := TNumber; minimum := Some lo;
                       maximum := Some hi; enum := None |} x
  | None => true
  end = true
  <-> optionalNumberIn lo hi v.
Proof.
  destruct v as [x|]; simpl; [apply numberProperty_spec|tauto].
Qed.

(** The compiled validator accepts exactly the conforming objects. *)
Lemma validateObject_conforms (members : list (string * json)) :
  fst (validateObject ajv incomeTaxRequestSchema members) = true
  <-> conforms (JObj members).
Proof.
  unfold validateObject, conforms.
  cbn [fst properties required additionalProperties incomeTaxRequestSchema
       removeAdditional ajv forallb snd orb negb andb].
  rewrite !andb_true_r, !andb_true_iff.
  rewrite (optionalNumber_spec 2000 2030), (optionalNumber_spec (-0.1) 0.3),
    (optionalNumber_spec 0 50).
  destruct (lookup "grossIncome" members) as [g|];
    destruct (lookup "province" members) as [p|].
  - rewrite numberProperty_spec, enumProperty_spec. split.
    + intros [[Hg [[q [Hq Hin]] [Hy [Hi Hn]]]] _]. subst p.
      repeat split; try assumption.
      * exists g. split; [reflexivity|exact Hg].
      * exists q. split; [reflexivity|exact Hin].
    + intros [[g' [Eg Hg]] [[q [Eq Hin]] [Hy [Hi Hn]]]].
      inversion Eg; subst g'. inversion Eq; subst p.
      repeat split; try assumption.
      exists q. split; [reflexivity|exact Hin].
  - split.
    + intros [_ [_ H]]. discriminate.
    + intros [_ [[q [Eq _]] _]]. discriminate.
  - split.
    + intros [_ [H _]]. discriminate.
    + intros [[g' [Eg _]] _]. discriminate.
  - split.
    + intros [_ [H _]]. discriminate.
    + intros [[g' [Eg _]] _]. discriminate.
Qed.

Lemma validateRequest_cases (body : json) :
  (conforms body
   /\ exists members,
        body = JObj members
        /\ validateRequest incomeTaxRequestSchema body
           = Next (JObj (filter
                           (fun m => declared incomeTaxRequestSchema (fst m))
                           members)))
  \/ (~ conforms body
      /\ validateRequest incomeTaxRequestSchema body
         = Respond 400 false "VALIDATION_ERROR").
Proof.
  destruct body as [| | | | |members];
    try (right; split; [intro H; exact H | reflexivity]).
  pose proof (validateObject_conforms members) as Hc.
  unfold validateRequest, validate.
  destruct (validateObject ajv incomeTaxRequestSchema members)
    as [ok members'] eqn:E.
  assert (Hm : members'
               = filter (fun m => declared incomeTaxRequestSchema (fst m))
                   members).
  { unfold validateObject in E. inversion E. reflexivity. }
  simpl in Hc. destruct ok.
  - left. split; [apply Hc; reflexivity|].
    exists members. split; [reflexivity|]. rewrite Hm. reflexivity.
  - right. split; [|reflexivity].
    intro H. apply Hc in H. discriminate.
Qed.

(** C10, as amended.  The validation middleware answers a body with HTTP
    400 and code VALIDATION_ERROR, and the controller is not run, exactly
    when the body does not conform to the schema: it is not an object,
    [grossIncome] is missing, not a number, negative or above 10000000,
    [province] is missing or not one of the thirteen codes, or a supplied
    [year], [inflationRate] or [yearsToInflate] is not a number in its
    range.  A member the schema does not declare is removed, not rejected.
    The controller only ever sees a body whose [grossIncome] is a finite
    number between 0 and 10000000. *)
Theorem C10_validation_gate :
  (forall body : json,
      validateRequest incomeTaxRequestSchema body
      = Respond 400 false "VALIDATION_ERROR"
      <-> ~ conforms body)
  /\ (forall (R : Type) (controller : json -> R) (body : json),
        postIncomeTax controller body = Rejected 400 "VALIDATION_ERROR"
        <-> ~ conforms body)
  /\ (forall (R : Type) (controller : json -> R) (body : json),
        conforms body ->
        exists members kept,
          body = JObj members
          /\ kept = filter (fun m => declared incomeTaxRequestSchema (fst m))
                      members
          /\ postIncomeTax controller body = Handled (controller (JObj kept))
          /\ conforms (JObj kept)
          /\ forallb (fun m => declared incomeTaxRequestSchema (fst m)) kept
             = true)
  /\ (forall (R : Type) (controller : json -> R) (body : json) (r : R),
        postIncomeTax controller body = Handled r ->
        exists body' g,
          r = controller body'
          /\ grossIncomeOf body' = Some g
          /\ 0 <= g /\ g <= 10000000).
Proof.
  assert (Hkept : forall members,
             conforms (JObj members) ->
             conforms (JObj (filter
                               (fun m => declared incomeTaxRequestSchema
                                           (fst m)) members))).
  { intros members H. unfold conforms in *.
    rewrite !lookup_filter_declared by reflexivity. exact H. }
  split; [|split; [|split]].
  - intro body.
    destruct (validateRequest_cases body) as [[Hc [m [_ E]]]|[Hn E]];
      rewrite E; split; intro H; try assumption; try reflexivity.
    + discriminate.
    + contradiction.
  - intros R controller body. unfold postIncomeTax.
    destruct (validateRequest_cases body) as [[Hc [m [_ E]]]|[Hn E]];
      rewrite E; split; intro H; try assumption; try reflexivity.
    + discriminate.
    + contradiction.
  - intros R controller body Hc. unfold postIncomeTax.
    destruct (validateRequest_cases body) as [[_ [m [Hb E]]]|[Hn _]];
      [|contradiction].
    exists m, (filter (fun x => declared incomeTaxRequestSchema (fst x)) m).
    rewrite E. subst body.
    split; [reflexivity|]. split; [reflexivity|]. split; [reflexivity|].
    split; [apply Hkept; exact Hc | apply filter_declared_all].
  - intros R controller body r H. unfold postIncomeTax in H.
    destruct (validateRequest_cases body) as [[Hc [m [Hb E]]]|[Hn E]];
      rewrite E in H; [|discriminate].
    inversion H; subst r. subst body.
    pose proof (Hkept m Hc) as Hk.
    destruct Hk as [[g [Eg Hg]] _].
    unfold numberIn in Hg. destruct g as [| |n| | |]; try contradiction.
    exists (JObj (filter (fun x => declared incomeTaxRequestSchema (fst x)) m)),
      n.
    split; [reflexivity|]. split; [|exact Hg].
    unfold grossIncomeOf. rewrite Eg. reflexivity.
Qed.

Lemma C10_validation_gate_witness :
  exists body' g,
    true = (fun _ : json => true) body'
    /\ grossIncomeOf body' = Some g /\ 0 <= g /\ g <= 10000000.
Proof.
  apply (proj2 (proj2 (proj2 C10_validation_gate)) bool (fun _ => true)
           (JObj [ ("grossIncome"%string, JNum 75000);
                   ("province"%string, JStr "ON") ]) true).
  reflexivity.
Defined.

(** C10, as stated, fails on an extra property: the body
    [{grossIncome: 75000, province: "ON", debug: true}] is not answered
    with 400; the middleware deletes [debug] and calls [next()]. *)
Lemma C10_counterexample :
  validateRequest incomeTaxRequestSchema
    (JObj [ ("grossIncome"%string, JNum 75000);
            ("province"%string, JStr "ON");
            ("debug"%string, JBool true) ])
  = Next (JObj [ ("grossIncome"%string, JNum 75000);
                 ("province"%string, JStr "ON") ])
  /\ validateRequest incomeTaxRequestSchema
       (JObj [ ("grossIncome"%string, JNum 75000);
               ("province"%string, JStr "ON");
               ("debug"%string, JBool true) ])
     <> Respond 400 false "VALIDATION_ERROR".
Proof.
  split.
  - vm_compute. reflexivity.
  - vm_compute. discriminate.
Qed.

End ValidationClaims.

(** * Further properties of the code *)

(** Case analysis on every comparison of the goal and of the hypotheses,
    closing contradictory branches with non-linear arithmetic. *)
Ltac qcrush :=
  repeat (first [qcase | qcase_in]; qprop; cbv beta iota in *;
          try (exfalso; nra)).

(** ** [calculateProvincialTax] as a whole *)

Section ProvincialWhole.

Import Provincial Walk Core.

(** The surtax block is finite, non-negative and monotone in the tax. *)
Lemma surtaxOf_mono (province : string) (data : ProvincialData) (t u : Q) :
  (forall s, surtax data = Some s ->
             threshold1 s <= threshold2 s /\ 0 <= rate1 s /\ 0 <= rate2 s) ->
  t <= u ->
  exists a b,
    surtaxOf province data (Fin t) = Fin a
    /\ surtaxOf province data (Fin u) = Fin b
    /\ 0 <= a /\ a <= b.
Proof.
  intros Hs Htu. unfold surtaxOf.
  destruct (surtax data) as [s|]; [|exists 0, 0; repeat split; lra].
  destruct (Hs s eq_refl) as [H12 [Hr1 Hr2]].
  destruct (String.eqb province "ON"); [|exists 0, 0; repeat split; lra].
  unfold gt, sub, Math_min, le, mul, add.
  destruct (Qltb (threshold1 s) t) eqn:E1;
    destruct (Qltb (threshold2 s) t) eqn:E2;
    destruct (Qltb (threshold1 s) u) eqn:E3;
    destruct (Qltb (threshold2 s) u) eqn:E4;
    destruct (Qle_bool (t - threshold1 s) (threshold2 s - threshold1 s)) eqn:E5;
    destruct (Qle_bool (u - threshold1 s) (threshold2 s - threshold1 s)) eqn:E6;
    qprop; try (exfalso; lra);
    eexists; eexists; (split; [reflexivity|]); (split; [reflexivity|]);
    split; nra.
Qed.

(** X1. The Ontario surtax of [calculateProvincialTax] is charged only
    when the province is 'ON'; with [threshold1 <= threshold2] and
    non-negative rates it is zero up to [threshold1], never negative, and
    never decreases when the tax grows. *)
Theorem X1_surtax_monotone :
  (forall (province : string) (data : ProvincialData) (tax : num),
      province <> "ON"%string -> surtaxOf province data tax = Fin 0)
  /\ (forall (province : string) (data : ProvincialData) (s : Surtax)
             (t u : Q),
        surtax data = Some s ->
        threshold1 s <= threshold2 s -> 0 <= rate1 s -> 0 <= rate2 s ->
        t <= u ->
        le (Fin 0) (surtaxOf province data (Fin t)) = true
        /\ le (surtaxOf province data (Fin t))
              (surtaxOf province data (Fin u)) = true
        /\ (t <= threshold1 s -> surtaxOf province data (Fin t) = Fin 0)).
Proof.
  split.
  - intros province data tax Hp. unfold surtaxOf.
    destruct (surtax data); [|reflexivity].
    destruct (String.eqb province "ON") eqn:E; [|reflexivity].
    apply String.eqb_eq in E. contradiction.
  - intros province data s t u Hs H12 Hr1 Hr2 Htu.
    destruct (surtaxOf_mono province data t u) as [a [b [Ea [Eb [H0 Hab]]]]];
      [|exact Htu|].
    { intros s' Hs'. rewrite Hs in Hs'. inversion Hs'; subst s'.
      repeat split; assumption. }
    split; [rewrite Ea; apply Qle_bool_iff; exact H0|].
    split; [rewrite Ea, Eb; apply Qle_bool_iff; exact Hab|].
    intro Ht. unfold surtaxOf. rewrite Hs.
    destruct (String.eqb province "ON"); [|reflexivity].
    unfold gt.
    assert (E1 : Qltb (threshold1 s) t = false) by (apply Qltb_false; lra).
    assert (E2 : Qltb (threshold2 s) t = false) by (apply Qltb_false; lra).
    rewrite E1, E2. reflexivity.
Qed.

Lemma X1_surtax_monotone_witness :
  let data := {| basicPersonalAmount := 11865; taxBrackets := [];
                 surtax := Some {| threshold1 := 5315; threshold2 := 6802;
                                   rate1 := 0.20; rate2 := 0.36 |} |} in
  le (Fin 0) (surtaxOf "ON" data (Fin 6000)) = true
  /\ le (surtaxOf "ON" data (Fin 6000)) (surtaxOf "ON" data (Fin 9000)) = true
  /\ (6000 <= 5315 -> surtaxOf "ON" data (Fin 6000) = Fin 0).
Proof.
  intro data.
  apply (proj2 X1_surtax_monotone "ON"%string data
           {| threshold1 := 5315; threshold2 := 6802;
              rate1 := 0.20; rate2 := 0.36 |} 6000 9000);
    [reflexivity | simpl; lra | simpl; lra | simpl; lra | lra].
Defined.

Lemma Math_max_fin (a b : Q) :
  Math_max (Fin a) (Fin b) = Fin (if Qle_bool a b then b else a).
Proof. simpl. destruct (Qle_bool a b); reflexivity. Qed.

Lemma Math_min_fin (a b : Q) :
  Math_min (Fin a) (Fin b) = Fin (if Qle_bool a b then a else b).
Proof. simpl. destruct (Qle_bool a b); reflexivity. Qed.

Lemma Math_max_zero_nonpos (d : Q) :
  d <= 0 -> exists e, Math_max (Fin 0) (Fin d) = Fin e /\ e == 0.
Proof.
  intro H. simpl. destruct (Qle_bool 0 d) eqn:E; qprop.
  - exists d. split; [reflexivity|lra].
  - exists 0. split; reflexivity.
Qed.

(** A taxable income at or below every bracket minimum leaves the loop at
    its initial state. *)
Lemma bracketLoop_nothing (bs : list Bracket) (d : Q) :
  Forall (fun b => d <= min b) bs ->
  exists t, bracketLoop bs (Fin d) = (Fin t, Fin 0) /\ t == 0.
Proof.
  intro H. unfold bracketLoop. rewrite bracketFold_fin.
  exists (fst (fold_left (stepQ d) bs (0, 0))). split.
  - rewrite fold_rate_none; [reflexivity|].
    eapply Forall_impl; [|exact H]. intros b Hb. unfold holds.
    apply Qltb_false in Hb. rewrite Hb. reflexivity.
  - rewrite fold_tax, (sumContributions_zero bs d H). lra.
Qed.

Lemma firstRate_nonneg (data : ProvincialData) :
  Forall (fun b => 0 <= min b /\ 0 <= rate b) (taxBrackets data) ->
  exists c, firstRate data = Fin c /\ 0 <= c.
Proof.
  intro H. unfold firstRate.
  destruct (taxBrackets data) as [|b rest].
  - exists 0.05. split; [reflexivity|lra].
  - inversion H as [|? ? [_ Hr] _]; subst.
    unfold or_else, truthy. destruct (Qeq_bool (rate b) 0); simpl.
    + exists 0.05. split; [reflexivity|lra].
    + exists (rate b). split; [reflexivity|exact Hr].
Qed.

(** X2. An income at or below the basic personal amount owes nothing:
    with non-negative bracket minimums, rates, surtax thresholds and
    personal amount, [calculateProvincialTax] returns tax owing 0, net and
    final tax 0, marginal rate 0 and effective rate 0. *)
Theorem X2_nothing_below_basic_personal :
  forall (ontarioData quebecData : ProvincialData) (abatement : Q)
         (x : Q) (province : string),
    let data := getProvincialData ontarioData quebecData province in
    0 <= basicPersonalAmount data ->
    Forall (fun b => 0 <= min b /\ 0 <= rate b) (taxBrackets data) ->
    (forall s, surtax data = Some s ->
               0 <= threshold1 s /\ 0 <= threshold2 s) ->
    x <= basicPersonalAmount data ->
    let r := calculateProvincialTax ontarioData quebecData abatement
               (Fin x) province in
    Provincial.taxOwing r =F= 0
    /\ Provincial.netTax r =F= 0
    /\ Provincial.finalTax r =F= 0
    /\ Provincial.marginalRate r = Fin 0
    /\ Provincial.effectiveRateOf r =F= 0.
Proof.
  intros ontarioData quebecData abatement x province data Hbpa Hb Hs Hx r.
  subst r. unfold calculateProvincialTax. fold data.
  destruct (Math_max_zero_nonpos (x - basicPersonalAmount data))
    as [d [Ed Hd]]; [lra|].
  cbn [sub]. rewrite Ed.
  destruct (bracketLoop_nothing (taxBrackets data) d) as [t [Et Ht]].
  { eapply Forall_impl; [|exact Hb]. intros b [Hm _]. lra. }
  rewrite Et.
  assert (Esur : surtaxOf province data (Fin t) = Fin 0).
  { unfold surtaxOf. destruct (surtax data) as [s|] eqn:Es; [|reflexivity].
    destruct (Hs s eq_refl) as [H1 H2].
    destruct (String.eqb province "ON"); [|reflexivity].
    unfold gt.
    assert (E1 : Qltb (threshold1 s) t = false) by (apply Qltb_false; lra).
    assert (E2 : Qltb (threshold2 s) t = false) by (apply Qltb_false; lra).
    rewrite E1, E2. reflexivity. }
  rewrite Esur.
  destruct (firstRate_nonneg data Hb) as [c [Ec Hc]]. rewrite Ec.
  cbn [Provincial.taxOwing Provincial.netTax Provincial.finalTax
       Provincial.marginalRate Provincial.effectiveRateOf add mul].
  assert (Hnet : applyCredit (Fin (t + 0))
                   (Fin (basicPersonalAmount data * c)) =F= 0).
  { unfold applyCredit. cbn [sub].
    destruct (Math_max_zero_nonpos
                (t + 0 - basicPersonalAmount data * c)) as [e [Ee He]];
      [nra|].
    rewrite Ee. exact He. }
  split; [simpl; lra|]. split; [exact Hnet|]. split; [exact Hnet|].
  split; [reflexivity|].
  unfold effectiveRate, gt.
  destruct (Qltb 0 x) eqn:E; [|reflexivity].
  apply Qltb_true in E. rewrite (div_fin_pos _ x E). simpl.
  rewrite Ht. field. lra.
Qed.

Lemma X2_nothing_below_basic_personal_witness :
  Provincial.taxOwing
    (calculateProvincialTax scenarioData scenarioData 0.165 (Fin 9000) "NS")
  =F= 0.
Proof.
  apply (X2_nothing_below_basic_personal scenarioData scenarioData 0.165
           9000 "NS"%string).
  - simpl. lra.
  - repeat constructor; simpl; lra.
  - intros s H. discriminate.
  - simpl. lra.
Defined.

(** X3. Every province other than 'ON' and 'QC', valid or not, is taxed on
    the default data: 10% of the income above 12000, capped at 5000 from
    62000 on because the single bracket ends at 50000; the marginal rate
    is 0.10 inside the bracket and 0 below 12000 and above 62000. *)
Theorem X3_default_province :
  forall (ontarioData quebecData : ProvincialData) (abatement : Q)
         (x : Q) (province : string),
    province <> "ON"%string -> province <> "QC"%string ->
    let r := calculateProvincialTax ontarioData quebecData abatement
               (Fin x) province in
    (x <= 12000 -> Provincial.taxOwing r =F= 0)
    /\ (12000 <= x -> x <= 62000 ->
        Provincial.taxOwing r =F= 0.10 * (x - 12000))
    /\ (62000 <= x -> Provincial.taxOwing r =F= 5000)
    /\ (12000 < x -> x <= 62000 -> Provincial.marginalRate r =F= 0.10)
    /\ (x <= 12000 \/ 62000 < x -> Provincial.marginalRate r =F= 0).
Proof.
  intros ontarioData quebecData abatement x province Hon Hqc r. subst r.
  unfold calculateProvincialTax, getProvincialData.
  assert (E1 : String.eqb province "ON" = false)
    by (apply String.eqb_neq; exact Hon).
  assert (E2 : String.eqb province "QC" = false)
    by (apply String.eqb_neq; exact Hqc).
  rewrite E1, E2.
  cbn [sub basicPersonalAmount defaultData taxBrackets].
  rewrite Math_max_fin. unfold bracketLoop. rewrite bracketFold_fin.
  unfold surtaxOf. cbn [surtax defaultData].
  cbn [Provincial.taxOwing Provincial.marginalRate add fold_left].
  unfold stepQ, inBracket, within, upper, qmin, is_fin.
  cbn [Provincial.min Provincial.max Provincial.rate fst snd].
  repeat split; intros; qsplit; cbn [fst snd andb]; try lra;
    try (destruct H; lra).
Qed.

Lemma X3_default_province_witness :
  Provincial.taxOwing
    (calculateProvincialTax scenarioData scenarioData 0.165 (Fin 100000)
       "XX") =F= 5000.
Proof.
  apply (X3_default_province scenarioData scenarioData 0.165 100000
           "XX"%string); [discriminate | discriminate | lra].
Defined.

Lemma sumContributions_nonneg (segs : list BracketSegment) (x : Q) :
  wellFormed segs = true -> 0 <= sumContributions (map toBracket segs) x.
Proof.
  intro Hwf. destruct segs as [|s rest]; [simpl; lra|].
  destruct (Qlt_le_dec x (lowerBound s)) as [Hlt|Hge].
  - rewrite (grossTax_below_lowest (s :: rest) (lowerBound s) x Hwf eq_refl);
      lra.
  - pose proof (sumContributions_mono (s :: rest) (lowerBound s) x Hwf Hge).
    rewrite (grossTax_below_lowest (s :: rest) (lowerBound s) (lowerBound s)
               Hwf eq_refl) in H; lra.
Qed.

(** X4. The tax owing of [calculateProvincialTax], loop and surtax
    together, is never negative and never decreases when the income
    grows, whenever the province's brackets form a well-formed table and
    its surtax has [threshold1 <= threshold2] and non-negative rates. *)
Theorem X4_tax_owing_monotone :
  forall (ontarioData quebecData : ProvincialData) (abatement : Q)
         (province : string) (segs : list BracketSegment) (x y : Q),
    let data := getProvincialData ontarioData quebecData province in
    taxBrackets data = map toBracket segs ->
    wellFormed segs = true ->
    (forall s, surtax data = Some s ->
               threshold1 s <= threshold2 s /\ 0 <= rate1 s /\ 0 <= rate2 s) ->
    x <= y ->
    le (Fin 0)
       (Provincial.taxOwing
          (calculateProvincialTax ontarioData quebecData abatement (Fin x)
             province)) = true
    /\ le (Provincial.taxOwing
             (calculateProvincialTax ontarioData quebecData abatement (Fin x)
                province))
          (Provincial.taxOwing
             (calculateProvincialTax ontarioData quebecData abatement (Fin y)
                province)) = true.
Proof.
  intros ontarioData quebecData abatement province segs x y data Hb Hwf Hs Hxy.
  unfold calculateProvincialTax. fold data.
  cbn [sub]. rewrite !Math_max_fin. unfold bracketLoop.
  rewrite !bracketFold_fin. rewrite Hb.
  set (dx := if Qle_bool 0 (x - basicPersonalAmount data)
             then x - basicPersonalAmount data else 0).
  set (dy := if Qle_bool 0 (y - basicPersonalAmount data)
             then y - basicPersonalAmount data else 0).
  assert (Hd : dx <= dy) by (subst dx dy; qsolve).
  set (tx := fst (fold_left (stepQ dx) (map toBracket segs) (0, 0))).
  set (ty := fst (fold_left (stepQ dy) (map toBracket segs) (0, 0))).
  assert (Htx : tx == sumContributions (map toBracket segs) dx)
    by (subst tx; rewrite fold_tax; lra).
  assert (Hty : ty == sumContributions (map toBracket segs) dy)
    by (subst ty; rewrite fold_tax; lra).
  pose proof (sumContributions_mono segs dx dy Hwf Hd) as Hmono.
  pose proof (sumContributions_nonneg segs dx Hwf) as Hnn.
  destruct (surtaxOf_mono province data tx ty Hs) as [a [b [Ea [Eb [H0 Hab]]]]];
    [lra|].
  rewrite Ea, Eb.
  cbn [Provincial.taxOwing add le]. rewrite !Qle_bool_iff. split; lra.
Qed.

Lemma X4_tax_owing_monotone_witness :
  le (Provincial.taxOwing
        (calculateProvincialTax scenarioData scenarioData 0.165 (Fin 40000)
           "ON"))
     (Provincial.taxOwing
        (calculateProvincialTax scenarioData scenarioData 0.165 (Fin 75000)
           "ON")) = true.
Proof.
  apply (X4_tax_owing_monotone scenarioData scenarioData 0.165 "ON"%string
           scenarioSegments 40000 75000).
  - reflexivity.
  - reflexivity.
  - intros s H. discriminate.
  - lra.
Defined.

End ProvincialWhole.

(** ** Premiums, credits and contributions of the provincial helpers *)

Section BenefitFacts.

Import JsMath Benefits.

(** X5. [calculateOntarioHealthPremium] returns the premium of the first
    bracket, in table order, that covers the income with [min <= income <
    max]; the upper end is excluded, so an income equal to [max] is not in
    the bracket.  It returns 0 when no bracket covers the income, when the
    data has no health premium and when the income is [NaN]. *)
Theorem X5_health_premium_first_match :
  (forall (before after : list PremiumBracket) (b : PremiumBracket) (x : Q),
      Forall (fun c => ~ covers c x) before -> covers b x ->
      calculateOntarioHealthPremium (Some (before ++ b :: after)) (Fin x)
      = Fin (premium b))
  /\ (forall (brackets : list PremiumBracket) (x : Q),
        Forall (fun c => ~ covers c x) brackets ->
        calculateOntarioHealthPremium (Some brackets) (Fin x) = Fin 0)
  /\ (forall (b : PremiumBracket) (m : Q),
        max b = Some m -> ~ covers b m)
  /\ (forall healthPremium,
        calculateOntarioHealthPremium healthPremium NaN = Fin 0)
  /\ (forall income, calculateOntarioHealthPremium None income = Fin 0).
Proof.
  assert (Hskip : forall c x rest,
             ~ covers c x ->
             firstPremium (c :: rest) (Fin x) = firstPremium rest (Fin x)).
  { intros c x rest Hc. cbn [firstPremium]. unfold ge, lt, le, gt, covers in *.
    destruct (Qle_bool (min c) x) eqn:E1; [|reflexivity].
    destruct (max c) as [m|].
    - destruct (Qltb x m) eqn:E2; [|reflexivity].
      qprop. exfalso. apply Hc. split; assumption.
    - qprop. exfalso. apply Hc. split; [assumption|exact I]. }
  split; [|split; [|split; [|split]]].
  - intros before after b x Hbefore Hb. cbn [calculateOntarioHealthPremium].
    induction Hbefore as [|c before Hc _ IH].
    + cbn [app firstPremium]. unfold ge, lt, le, gt, covers in *.
      destruct Hb as [H1 H2].
      apply Qle_bool_iff in H1. rewrite H1.
      destruct (max b) as [m|]; [|reflexivity].
      apply Qltb_true in H2. rewrite H2. reflexivity.
    + cbn [app]. rewrite (Hskip c x _ Hc). exact IH.
  - intros brackets x H. cbn [calculateOntarioHealthPremium].
    induction H as [|c rest Hc _ IH]; [reflexivity|].
    rewrite (Hskip c x rest Hc). exact IH.
  - intros b m Hm [_ H]. rewrite Hm in H. lra.
  - intros [brackets|]; [|reflexivity]. cbn [calculateOntarioHealthPremium].
    induction brackets as [|c rest IH]; [reflexivity|exact IH].
  - reflexivity.
Qed.

Lemma X5_health_premium_first_match_witness :
  calculateOntarioHealthPremium
    (Some ([ {| min := 0; max := Some 20000; premium := 0 |} ]
           ++ {| min := 20000; max := Some 36000; premium := 300 |}
           :: [ {| min := 36000; max := None; premium := 450 |} ]))
    (Fin 20000)
  = Fin 300.
Proof.
  apply (proj1 X5_health_premium_first_match
           [ {| min := 0; max := Some 20000; premium := 0 |} ]
           [ {| min := 36000; max := None; premium := 450 |} ]
           {| min := 20000; max := Some 36000; premium := 300 |} 20000).
  - constructor; [|constructor]. unfold covers; simpl. lra.
  - unfold covers; simpl. lra.
Defined.

(** X6. The Quebec solidarity credit is the full [maxCredit] up to the
    income threshold; above it the credit is reduced by the clawback and
    floored at 0, so for a non-negative [maxCredit] and clawback rate it
    stays between 0 and [maxCredit], never grows with the income, and is
    0 once the reduction reaches [maxCredit].  A status without credit
    data gives 0. *)
Theorem X6_solidarity_credit :
  (forall (solidarity : Status -> option SolidarityCredit) (status : Status)
          (income : num),
      solidarity status = None ->
      calculateQuebecSolidarityCredit solidarity income status = Fin 0)
  /\ (forall (solidarity : Status -> option SolidarityCredit)
             (status : Status) (c : SolidarityCredit) (x y : Q),
        solidarity status = Some c ->
        0 <= maxCredit c -> 0 <= clawbackRate c -> x <= y ->
        le (Fin 0)
           (calculateQuebecSolidarityCredit solidarity (Fin y) status) = true
        /\ le (calculateQuebecSolidarityCredit solidarity (Fin y) status)
              (calculateQuebecSolidarityCredit solidarity (Fin x) status)
           = true
        /\ le (calculateQuebecSolidarityCredit solidarity (Fin x) status)
              (Fin (maxCredit c)) = true
        /\ (x <= incomeThreshold c ->
            calculateQuebecSolidarityCredit solidarity (Fin x) status
            = Fin (maxCredit c))
        /\ (maxCredit c <= (y - incomeThreshold c) * clawbackRate c ->
            calculateQuebecSolidarityCredit solidarity (Fin y) status
            =F= 0)).
Proof.
  split.
  - intros solidarity status income H.
    unfold calculateQuebecSolidarityCredit. rewrite H. reflexivity.
  - intros solidarity status c x y Hc Hm Hr Hxy.
    unfold calculateQuebecSolidarityCredit. rewrite Hc.
    unfold gt, sub, mul, Math_max, le.
    repeat split; intros;
      repeat (qcase; qprop; cbv beta iota; try (exfalso; nra));
      try reflexivity; try (apply Qle_bool_iff); cbn [is_fin]; try nra.
Qed.

Lemma X6_solidarity_credit_witness :
  calculateQuebecSolidarityCredit
    (fun _ => Some {| maxCredit := 1000; incomeThreshold := 40000;
                      clawbackRate := 0.06 |}) (Fin 60000) single
  =F= 0.
Proof.
  apply (proj2 X6_solidarity_credit
           (fun _ => Some {| maxCredit := 1000; incomeThreshold := 40000;
                             clawbackRate := 0.06 |})
           single
           {| maxCredit := 1000; incomeThreshold := 40000;
              clawbackRate := 0.06 |} 50000 60000);
    [reflexivity | simpl; lra | simpl; lra | lra | simpl; lra].
Defined.

(** X7. The provincial age credit is 0 for every province other than
    'ON' and 'QC'.  Where age-credit data exists, a clawback rate that is
    missing or 0 is replaced by 0.15, so above the threshold the credit
    is [max(0, maxAmount * creditRate - (income - threshold) * 0.15)];
    with non-negative data the credit stays between 0 and
    [maxAmount * creditRate] and never grows with the income. *)
Theorem X7_age_credit :
  (forall (ontarioAge quebecAge : option AgeCredit) (income : num)
          (province : string),
      province <> "ON"%string -> province <> "QC"%string ->
      calculateProvincialAgeCredit ontarioAge quebecAge income province
      = Fin 0)
  /\ (forall (ontarioAge quebecAge : option AgeCredit) (province : string)
             (a : AgeCredit) (x : Q),
        ageCreditOf ontarioAge quebecAge province = Some a ->
        (ageClawbackRate a = None
         \/ exists r, ageClawbackRate a = Some r /\ r == 0) ->
        ageIncomeThreshold a < x ->
        calculateProvincialAgeCredit ontarioAge quebecAge (Fin x) province
        =F= Qmax 0 (maxAmount a * creditRate a
                    - (x - ageIncomeThreshold a) * 0.15))
  /\ (forall (ontarioAge quebecAge : option AgeCredit) (province : string)
             (a : AgeCredit) (x y : Q),
        ageCreditOf ontarioAge quebecAge province = Some a ->
        0 <= maxAmount a * creditRate a ->
        (forall r, ageClawbackRate a = Some r -> 0 <= r) ->
        x <= y ->
        le (Fin 0)
           (calculateProvincialAgeCredit ontarioAge quebecAge (Fin y)
              province) = true
        /\ le (calculateProvincialAgeCredit ontarioAge quebecAge (Fin y)
                 province)
              (calculateProvincialAgeCredit ontarioAge quebecAge (Fin x)
                 province) = true
        /\ le (calculateProvincialAgeCredit ontarioAge quebecAge (Fin x)
                 province)
              (Fin (maxAmount a * creditRate a)) = true).
Proof.
  split; [|split].
  - intros ontarioAge quebecAge income province Hon Hqc.
    unfold calculateProvincialAgeCredit, ageCreditOf.
    apply String.eqb_neq in Hon. apply String.eqb_neq in Hqc.
    rewrite Hon, Hqc. reflexivity.
  - intros ontarioAge quebecAge province a x Ha Hr Hx.
    unfold calculateProvincialAgeCredit. rewrite Ha.
    assert (Ec : ageClawback a = Fin 0.15).
    { unfold ageClawback. destruct Hr as [Hn|[r [Hs Hz]]].
      - rewrite Hn. reflexivity.
      - rewrite Hs. unfold or_else, truthy.
        apply Qeq_bool_iff in Hz. rewrite Hz. reflexivity. }
    rewrite Ec. unfold gt.
    assert (E : Qltb (ageIncomeThreshold a) x = true)
      by (apply Qltb_true; exact Hx).
    rewrite E. cbn [mul sub]. rewrite Math_max_fin. cbn [is_fin].
    destruct (Qle_bool 0 _) eqn:E0; qprop.
    + rewrite Q.max_r by exact E0. reflexivity.
    + rewrite Q.max_l by lra. reflexivity.
  - intros ontarioAge quebecAge province a x y Ha HM Hr Hxy.
    unfold calculateProvincialAgeCredit. rewrite Ha.
    assert (Ec : exists k, ageClawback a = Fin k /\ 0 <= k).
    { unfold ageClawback. destruct (ageClawbackRate a) as [r|] eqn:Er.
      - unfold or_else, truthy. destruct (Qeq_bool r 0).
        + exists 0.15. split; [reflexivity|lra].
        + exists r. split; [reflexivity|apply Hr; reflexivity].
      - exists 0.15. split; [reflexivity|lra]. }
    destruct Ec as [k [Ek Hk]]. rewrite Ek.
    unfold gt, sub, mul, Math_max, le.
    repeat split;
      repeat (qcase; qprop; cbv beta iota; try (exfalso; nra));
      try reflexivity; try (apply Qle_bool_iff); try nra.
Qed.

Lemma X7_age_credit_witness :
  calculateProvincialAgeCredit
    (Some {| maxAmount := 5000; creditRate := 0.05; ageIncomeThreshold := 40000;
             ageClawbackRate := Some 0 |}) None (Fin 41000) "ON"
  =F= Qmax 0 (5000 * 0.05 - (41000 - 40000) * 0.15).
Proof.
  apply (proj1 (proj2 X7_age_credit)
           (Some {| maxAmount := 5000; creditRate := 0.05;
                    ageIncomeThreshold := 40000; ageClawbackRate := Some 0 |})
           None "ON"%string
           {| maxAmount := 5000; creditRate := 0.05;
              ageIncomeThreshold := 40000;
              ageClawbackRate := Some 0 |} 41000).
  - reflexivity.
  - right. exists 0. split; reflexivity.
  - simpl. lra.
Defined.

(** X8. The Quebec health services fund contribution is 0 up to the
    threshold and [max(0, (income - exemption) * rate)] above it: never
    negative, and never decreasing when [exemption <= threshold] and the
    rate is non-negative.  When the exemption is below the threshold the
    contribution jumps at the threshold: just above it the contribution
    already exceeds [(threshold - exemption) * rate].  A [NaN] income
    yields [NaN], not 0. *)
Theorem X8_health_services_fund :
  (forall (h : HealthServices) (x : Q),
      x <= threshold h ->
      calculateQuebecHealthServicesFund (Some h) (Fin x) = Fin 0)
  /\ (forall (h : HealthServices) (x : Q),
        le (Fin 0) (calculateQuebecHealthServicesFund (Some h) (Fin x))
        = true)
  /\ (forall (h : HealthServices) (x y : Q),
        exemption h <= threshold h -> 0 <= hsfRate h -> x <= y ->
        le (calculateQuebecHealthServicesFund (Some h) (Fin x))
           (calculateQuebecHealthServicesFund (Some h) (Fin y)) = true)
  /\ (forall (h : HealthServices) (x : Q),
        exemption h < threshold h -> 0 < hsfRate h -> threshold h < x ->
        gt (calculateQuebecHealthServicesFund (Some h) (Fin x))
           (Fin ((threshold h - exemption h) * hsfRate h)) = true)
  /\ (forall h : HealthServices,
        calculateQuebecHealthServicesFund (Some h) NaN = NaN)
  /\ (forall income, calculateQuebecHealthServicesFund None income = Fin 0).
Proof.
  split; [|split; [|split; [|split; [|split]]]].
  - intros h x Hx. unfold calculateQuebecHealthServicesFund, le.
    apply Qle_bool_iff in Hx. rewrite Hx. reflexivity.
  - intros h x. unfold calculateQuebecHealthServicesFund.
    cbn [sub mul]. rewrite Math_max_fin. unfold le.
    qcrush; reflexivity.
  - intros h x y He Hr Hxy. unfold calculateQuebecHealthServicesFund.
    cbn [sub mul]. rewrite !Math_max_fin. unfold le.
    qcrush; reflexivity.
  - intros h x He Hr Hx. unfold calculateQuebecHealthServicesFund.
    cbn [sub mul]. rewrite Math_max_fin. unfold le, gt.
    qcrush; reflexivity.
  - intro h. reflexivity.
  - intro income. reflexivity.
Qed.

Lemma X8_health_services_fund_witness :
  gt (calculateQuebecHealthServicesFund
        (Some {| threshold := 15000; exemption := 14000; hsfRate := 0.01 |})
        (Fin 15001))
     (Fin ((15000 - 14000) * 0.01)) = true.
Proof.
  apply (proj1 (proj2 (proj2 (proj2 X8_health_services_fund)))
           {| threshold := 15000; exemption := 14000; hsfRate := 0.01 |}
           15001); simpl; lra.
Defined.

End BenefitFacts.

(** ** The federal calculators as a whole *)

Section FederalWhole.

Import Provincial Walk Core Federal.

Lemma flowTaxOf_fin (x : Q) :
  exists t, flowTaxOf (Fin x) = Fin t
            /\ t == sumContributions (map toBracket federalSegments) x.
Proof.
  pose proof (is_fin_eq _ _ _ (flowTaxOf_sum x)
                (accumulate_sum _ x federalSegments_wellFormed)) as H.
  destruct (flowTaxOf (Fin x)) as [t| | |]; try contradiction.
  exists t. split; [reflexivity|exact H].
Qed.

Lemma federalTaxOf_fin (x : Q) :
  exists t, federalTaxOf (Fin x) = Fin t
            /\ t == sumContributions (map toBracket federalSegments) x.
Proof.
  pose proof (is_fin_eq _ _ _ (federalTaxOf_sum x)
                (accumulate_sum _ x federalSegments_wellFormed)) as H.
  destruct (federalTaxOf (Fin x)) as [t| | |]; try contradiction.
  exists t. split; [reflexivity|exact H].
Qed.

(** The cascade taxes a non-negative base at no less than 15% and no more
    than 33%. *)
Lemma cascade_bounds (x : Q) :
  0 <= x ->
  0.15 * x <= accumulate federalSegments x
  /\ accumulate federalSegments x <= 0.33 * x.
Proof.
  intro Hx.
  unfold accumulate, federalSegments, portionInSegment, clamp, reaches;
    simpl.
  split; qsplit; lra.
Qed.

(** X9. Both federal cascades tax a non-negative finite base at an
    average rate between 15% and 33%: the tax is at least 0.15 times the
    base and at most 0.33 times the base, and it is 0 for a base that is
    zero or negative. *)
Theorem X9_federal_average_rate_bounds :
  (forall x : Q,
      0 <= x ->
      le (Fin (0.15 * x)) (flowTaxOf (Fin x)) = true
      /\ le (flowTaxOf (Fin x)) (Fin (0.33 * x)) = true
      /\ le (Fin (0.15 * x)) (federalTaxOf (Fin x)) = true
      /\ le (federalTaxOf (Fin x)) (Fin (0.33 * x)) = true)
  /\ (forall x : Q,
        x <= 0 ->
        flowTaxOf (Fin x) = Fin 0 /\ federalTaxOf (Fin x) = Fin 0).
Proof.
  split.
  - intros x Hx.
    destruct (cascade_bounds x Hx) as [Hlo Hhi].
    pose proof (flowTaxOf_sum x) as H1.
    pose proof (federalTaxOf_sum x) as H2.
    destruct (flowTaxOf (Fin x)) as [t| | |]; try contradiction.
    destruct (federalTaxOf (Fin x)) as [u| | |]; try contradiction.
    cbn [is_fin le] in *. rewrite !Qle_bool_iff. repeat split; lra.
  - intros x Hx. unfold flowTaxOf, federalTaxOf, gt.
    assert (E : Qltb 0 x = false) by (apply Qltb_false; exact Hx).
    rewrite E. split; reflexivity.
Qed.

Lemma X9_federal_average_rate_bounds_witness :
  le (Fin (0.15 * 120000)) (flowTaxOf (Fin 120000)) = true
  /\ le (flowTaxOf (Fin 120000)) (Fin (0.33 * 120000)) = true
  /\ le (Fin (0.15 * 120000)) (federalTaxOf (Fin 120000)) = true
  /\ le (federalTaxOf (Fin 120000)) (Fin (0.33 * 120000)) = true.
Proof.
  apply (proj1 X9_federal_average_rate_bounds 120000). lra.
Defined.

(** The net tax of [calculateFederalTax] in terms of the table sum. *)
Lemma calculateFederalTax_netTax (x : Q) (province : string) :
  exists t,
    t == sumContributions (map toBracket federalSegments)
           (if Qle_bool 0 (x - 15000) then x - 15000 else 0)
    /\ Federal.netTax (calculateFederalTax (Fin x) province)
       = Fin (let tax := if String.eqb province "QC" then t * 0.835 else t in
              if Qle_bool 0 (tax - 15000 * 0.15)
              then tax - 15000 * 0.15 else 0).
Proof.
  unfold calculateFederalTax, Federal.basicPersonalAmount.
  cbn [sub]. rewrite Math_max_fin.
  destruct (flowTaxOf_fin (if Qle_bool 0 (x - 15000) then x - 15000 else 0))
    as [t [Et Ht]].
  exists t. split; [exact Ht|].
  cbn [Federal.netTax]. rewrite Et. unfold applyAbatement, applyCredit.
  destruct (String.eqb province "QC"); cbn [mul sub];
    rewrite Math_max_fin; reflexivity.
Qed.

(** X10. The net federal tax of [calculateFederalTax] never decreases
    when the taxable income grows, is never higher in Quebec than in any
    other province, is 0 for every taxable income up to 30000, and is
    positive above 30000 outside Quebec. *)
Theorem X10_federal_net_tax :
  (forall (x y : Q) (province : string),
      x <= y ->
      le (Federal.netTax (calculateFederalTax (Fin x) province))
         (Federal.netTax (calculateFederalTax (Fin y) province)) = true)
  /\ (forall (x : Q) (province : string),
        le (Federal.netTax (calculateFederalTax (Fin x) "QC"))
           (Federal.netTax (calculateFederalTax (Fin x) province)) = true)
  /\ (forall (x : Q) (province : string),
        x <= 30000 ->
        Federal.netTax (calculateFederalTax (Fin x) province) =F= 0)
  /\ (forall (x : Q) (province : string),
        province <> "QC"%string -> 30000 < x ->
        gt (Federal.netTax (calculateFederalTax (Fin x) province)) (Fin 0)
        = true).
Proof.
  assert (Hwf := federalSegments_wellFormed).
  split; [|split; [|split]].
  - intros x y province Hxy.
    destruct (calculateFederalTax_netTax x province) as [t [Ht Et]].
    destruct (calculateFederalTax_netTax y province) as [u [Hu Eu]].
    rewrite Et, Eu. cbn [le]. apply Qle_bool_iff.
    assert (Hd : (if Qle_bool 0 (x - 15000) then x - 15000 else 0)
                 <= (if Qle_bool 0 (y - 15000) then y - 15000 else 0))
      by qsolve.
    pose proof (sumContributions_mono federalSegments _ _ Hwf Hd) as Hm.
    cbv zeta. destruct (String.eqb province "QC"); qcrush; lra.
  - intros x province.
    destruct (calculateFederalTax_netTax x "QC") as [t [Ht Et]].
    destruct (calculateFederalTax_netTax x province) as [u [Hu Eu]].
    rewrite Et, Eu. cbn [le]. apply Qle_bool_iff.
    pose proof (sumContributions_nonneg federalSegments
                  (if Qle_bool 0 (x - 15000) then x - 15000 else 0) Hwf)
      as Hnn.
    cbv zeta. change (String.eqb "QC" "QC") with true. cbv iota.
    destruct (String.eqb province "QC"); qcrush; lra.
  - intros x province Hx.
    destruct (calculateFederalTax_netTax x province) as [t [Ht Et]].
    rewrite Et. cbn [is_fin].
    rewrite <- (accumulate_sum _ _ Hwf) in Ht.
    assert (Hb : 0 <= (if Qle_bool 0 (x - 15000) then x - 15000 else 0)
                 /\ (if Qle_bool 0 (x - 15000) then x - 15000 else 0)
                    <= 15000) by (split; qsolve).
    destruct Hb as [Hb0 Hb1].
    assert (Hacc : accumulate federalSegments
                     (if Qle_bool 0 (x - 15000) then x - 15000 else 0)
                   <= 0.15 * 15000).
    { set (d := if Qle_bool 0 (x - 15000) then x - 15000 else 0) in *.
      unfold accumulate, federalSegments, portionInSegment, clamp, reaches;
        simpl. qsplit; lra. }
    pose proof (sumContributions_nonneg federalSegments
                  (if Qle_bool 0 (x - 15000) then x - 15000 else 0) Hwf)
      as Hnn.
    rewrite <- (accumulate_sum _ _ Hwf) in Hnn.
    cbv zeta. destruct (String.eqb province "QC"); qcrush; lra.
  - intros x province Hp Hx.
    destruct (calculateFederalTax_netTax x province) as [t [Ht Et]].
    rewrite Et. cbn [gt]. apply Qltb_true.
    rewrite <- (accumulate_sum _ _ Hwf) in Ht.
    assert (Hd : (if Qle_bool 0 (x - 15000) then x - 15000 else 0)
                 == x - 15000) by qsolve.
    destruct (cascade_bounds
                (if Qle_bool 0 (x - 15000) then x - 15000 else 0))
      as [Hlo _]; [lra|].
    apply String.eqb_neq in Hp. rewrite Hp. cbv zeta.
    qcrush; lra.
Qed.

Lemma X10_federal_net_tax_witness :
  le (Federal.netTax (calculateFederalTax (Fin 50000) "ON"))
     (Federal.netTax (calculateFederalTax (Fin 90000) "ON")) = true
  /\ Federal.netTax (calculateFederalTax (Fin 28000) "QC") =F= 0
  /\ gt (Federal.netTax (calculateFederalTax (Fin 30001) "ON")) (Fin 0)
     = true.
Proof.
  split; [|split].
  - apply (proj1 X10_federal_net_tax 50000 90000 "ON"%string). lra.
  - apply (proj1 (proj2 (proj2 X10_federal_net_tax)) 28000 "QC"%string). lra.
  - apply (proj2 (proj2 (proj2 X10_federal_net_tax)) 30001 "ON"%string);
      [discriminate|lra].
Defined.

Lemma rrspOrZero_fin (rrsp : option Q) :
  exists r, rrspOrZero (option_map Fin rrsp) = Fin r
            /\ r == match rrsp with Some v => v | None => 0 end.
Proof.
  destruct rrsp as [v|]; simpl.
  - unfold or_else, truthy. destruct (Qeq_bool v 0) eqn:E; simpl.
    + exists 0. split; [reflexivity|]. apply Qeq_bool_iff in E. lra.
    + exists v. split; reflexivity.
  - exists 0. split; reflexivity.
Qed.

(** The federal result of [calculateIncomeTax] in terms of the table
    sum. *)
Lemma calculateIncomeTax_federal_fin (x : Q) (rrsp : option Q) :
  exists r t,
    r == match rrsp with Some v => v | None => 0 end
    /\ t == sumContributions (map toBracket federalSegments)
              (if Qle_bool 0 (x - r - 15000) then x - r - 15000 else 0)
    /\ Federal.taxableIncome
         (calculateIncomeTax_federal (Fin x) (option_map Fin rrsp))
       = Fin ((if Qle_bool 0 (x - r - 15000) then x - r - 15000 else 0)
              + 15000)
    /\ Federal.netTax
         (calculateIncomeTax_federal (Fin x) (option_map Fin rrsp))
       = Fin (if Qle_bool 0 (t - 15000 * 0.15)
              then t - 15000 * 0.15 else 0).
Proof.
  destruct (rrspOrZero_fin rrsp) as [r [Er Hr]].
  unfold calculateIncomeTax_federal, taxableIncomeOf,
    Federal.basicPersonalAmount.
  rewrite Er. cbn [sub]. rewrite Math_max_fin.
  destruct (federalTaxOf_fin
              (if Qle_bool 0 (x - r - 15000) then x - r - 15000 else 0))
    as [t [Et Ht]].
  exists r, t. split; [exact Hr|]. split; [exact Ht|].
  cbn [Federal.taxableIncome Federal.netTax add]. rewrite Et.
  unfold applyCredit. cbn [mul sub]. rewrite Math_max_fin.
  split; reflexivity.
Qed.

(** X11. In the federal part of [calculateIncomeTax], the taxable income
    that is reported is [max(totalIncome - rrsp, 15000)], so it is never
    below 15000 even for a smaller total income; the net tax is 0 exactly
    when [totalIncome - rrsp <= 30000]; and an RRSP contribution that is
    not negative never raises the net tax. *)
Theorem X11_income_tax_federal :
  (forall (x : Q) (rrsp : option Q),
      Federal.taxableIncome
        (calculateIncomeTax_federal (Fin x) (option_map Fin rrsp))
      =F= Qmax (x - match rrsp with Some v => v | None => 0 end) 15000)
  /\ (forall (x : Q) (rrsp : option Q),
        x - match rrsp with Some v => v | None => 0 end <= 30000 ->
        Federal.netTax
          (calculateIncomeTax_federal (Fin x) (option_map Fin rrsp))
        =F= 0)
  /\ (forall (x : Q) (rrsp : option Q),
        30000 < x - match rrsp with Some v => v | None => 0 end ->
        gt (Federal.netTax
              (calculateIncomeTax_federal (Fin x) (option_map Fin rrsp)))
           (Fin 0) = true)
  /\ (forall (x v : Q),
        0 <= v ->
        le (Federal.netTax
              (calculateIncomeTax_federal (Fin x) (Some (Fin v))))
           (Federal.netTax (calculateIncomeTax_federal (Fin x) None))
        = true).
Proof.
  assert (Hwf := federalSegments_wellFormed).
  split; [|split; [|split]].
  - intros x rrsp.
    destruct (calculateIncomeTax_federal_fin x rrsp)
      as [r [t [Hr [_ [Et _]]]]].
    rewrite Et. cbn [is_fin]. rewrite <- Hr.
    destruct (Qle_bool 0 (x - r - 15000)) eqn:E; qprop.
    + rewrite Q.max_l by lra. lra.
    + rewrite Q.max_r by lra. lra.
  - intros x rrsp Hx.
    destruct (calculateIncomeTax_federal_fin x rrsp)
      as [r [t [Hr [Ht [_ En]]]]].
    rewrite En. cbn [is_fin]. rewrite <- Hr in Hx.
    rewrite <- (accumulate_sum _ _ Hwf) in Ht.
    set (d := if Qle_bool 0 (x - r - 15000) then x - r - 15000 else 0) in *.
    assert (Hb : 0 <= d /\ d <= 15000) by (subst d; split; qsolve).
    destruct Hb as [Hb0 Hb1].
    assert (Hacc : accumulate federalSegments d <= 0.15 * 15000).
    { unfold accumulate, federalSegments, portionInSegment, clamp, reaches;
        simpl. qsplit; lra. }
    qcrush; lra.
  - intros x rrsp Hx.
    destruct (calculateIncomeTax_federal_fin x rrsp)
      as [r [t [Hr [Ht [_ En]]]]].
    rewrite En. cbn [gt]. apply Qltb_true. rewrite <- Hr in Hx.
    rewrite <- (accumulate_sum _ _ Hwf) in Ht.
    set (d := if Qle_bool 0 (x - r - 15000) then x - r - 15000 else 0) in *.
    assert (Hd : d == x - r - 15000) by (subst d; qsolve).
    destruct (cascade_bounds d) as [Hlo _]; [lra|].
    qcrush; lra.
  - intros x v Hv.
    destruct (calculateIncomeTax_federal_fin x (Some v))
      as [r [t [Hr [Ht [_ En]]]]].
    destruct (calculateIncomeTax_federal_fin x None)
      as [r0 [t0 [Hr0 [Ht0 [_ En0]]]]].
    cbn [option_map] in En, En0. rewrite En, En0. cbn [le].
    apply Qle_bool_iff.
    assert (Hd : (if Qle_bool 0 (x - r - 15000) then x - r - 15000 else 0)
                 <= (if Qle_bool 0 (x - r0 - 15000)
                     then x - r0 - 15000 else 0)) by qsolve.
    pose proof (sumContributions_mono federalSegments _ _ Hwf Hd) as Hm.
    qcrush; lra.
Qed.

Lemma X11_income_tax_federal_witness :
  Federal.netTax (calculateIncomeTax_federal (Fin 32000) (Some (Fin 3000)))
  =F= 0
  /\ le (Federal.netTax
           (calculateIncomeTax_federal (Fin 80000) (Some (Fin 5000))))
        (Federal.netTax (calculateIncomeTax_federal (Fin 80000) None))
     = true.
Proof.
  split.
  - apply (proj1 (proj2 X11_income_tax_federal) 32000 (Some 3000)). lra.
  - apply (proj2 (proj2 (proj2 X11_income_tax_federal)) 80000 5000). lra.
Defined.

End FederalWhole.

(** ** Contributions in the complete tax flow *)

Section FlowFacts.

Import JsMath Flow.

Lemma orZero_fin (v : option num) :
  finiteAmount v -> exists q, orZero v = Fin q.
Proof.
  destruct v as [[x| | |]|]; simpl; intro H; try contradiction.
  - unfold or_else, truthy. destruct (Qeq_bool x 0); simpl; eauto.
  - exists 0. reflexivity.
  - exists 0. reflexivity.
Qed.

Lemma sumOf_fin (field : Employment -> option num) (l : list Employment) :
  Forall (fun emp => finiteAmount (field emp)) l ->
  exists s, sumOf field l = Fin s.
Proof.
  unfold sumOf. generalize 0 as a.
  induction l as [|emp l IH]; intros a H; simpl; [eauto|].
  inversion H as [|? ? He Hl]; subst.
  destruct (orZero_fin (field emp) He) as [q Eq]. rewrite Eq. simpl.
  apply IH. exact Hl.
Qed.

Lemma totalOf_fin (field : Employment -> option num) (income : Income) :
  match employment income with
  | Some l => Forall (fun emp => finiteAmount (field emp)) l
  | None => True
  end ->
  exists s, totalOf field income = Fin s.
Proof.
  unfold totalOf. destruct (employment income) as [l|]; intro H.
  - destruct (sumOf_fin field l H) as [s Es]. rewrite Es.
    unfold or_else, truthy. destruct (Qeq_bool s 0); simpl; eauto.
  - exists 0. reflexivity.
Qed.

(** X12. [calculateContributions] on amounts that are finite, missing or
    [NaN] (a [NaN] or missing amount counts as 0): the required CPP
    contribution never exceeds 3754.45 and the required EI premium never
    exceeds 1357.50; the additional amounts are never negative; and an
    additional amount is 0 exactly when what was paid is at least what is
    required. *)
Theorem X12_contributions_capped :
  forall income : Income,
    finiteIncome income ->
    let c := calculateContributions income in
    le (cppRequired c) (Fin 3754.45) = true
    /\ le (eiRequired c) (Fin 1357.50) = true
    /\ le (Fin 0) (additionalCpp c) = true
    /\ le (Fin 0) (additionalEi c) = true
    /\ (le (cppRequired c) (cppPaid c) = true <-> additionalCpp c =F= 0)
    /\ (le (eiRequired c) (eiPaid c) = true <-> additionalEi c =F= 0).
Proof.
  intros income [Hb He] c. subst c. unfold calculateContributions.
  assert (Hf : forall field,
             (forall emp, finiteEmployment emp -> finiteAmount (field emp)) ->
             exists s, totalOf field income = Fin s).
  { intros field Hfield. apply totalOf_fin.
    destruct (employment income) as [l|]; [|exact I].
    eapply Forall_impl; [|exact He].
    intros emp Hemp. apply Hfield; exact Hemp. }
  destruct (Hf grossIncome) as [g Eg]; [intros emp [H _]; exact H|].
  destruct (Hf cppContributions) as [p Ep];
    [intros emp [_ [H _]]; exact H|].
  destruct (Hf eiContributions) as [e Ee];
    [intros emp [_ [_ [H _]]]; exact H|].
  destruct (orZero_fin (businessIncome income) Hb) as [b Eb].
  rewrite Eg, Ep, Ee, Eb.
  cbn [cppRequired eiRequired additionalCpp additionalEi cppPaid eiPaid
       add mul].
  rewrite !Math_min_fin. cbn [sub]. rewrite !Math_max_fin.
  cbn [le is_fin]. rewrite !Qle_bool_iff.
  split; [|split; [|split; [|split; [|split]]]].
  - qcrush; lra.
  - qcrush; lra.
  - qcrush; lra.
  - qcrush; lra.
  - split; intro H; qcrush; lra.
  - split; intro H; qcrush; lra.
Qed.

Lemma X12_contributions_capped_witness :
  let income :=
    {| employment :=
         Some [ {| grossIncome := Some (Fin 90000);
                   cppContributions := Some (Fin 3000);
                   eiContributions := Some NaN;
                   incomeTaxDeducted := None |} ];
       businessIncome := None |} in
  let c := calculateContributions income in
  le (cppRequired c) (Fin 3754.45) = true
  /\ le (eiRequired c) (Fin 1357.50) = true
  /\ le (Fin 0) (additionalCpp c) = true
  /\ le (Fin 0) (additionalEi c) = true
  /\ (le (cppRequired c) (cppPaid c) = true <-> additionalCpp c =F= 0)
  /\ (le (eiRequired c) (eiPaid c) = true <-> additionalEi c =F= 0).
Proof.
  intro income.
  apply (X12_contributions_capped income).
  split; [exact I|].
  repeat constructor.
Defined.

End FlowFacts.

(** ** Validation of any schema, the API key check and the route chain *)

Section GatewayFacts.

Import Api Gateway.

Lemma declared_property (s : ObjectSchema) (p : string * PropertySchema) :
  In p (properties s) -> declared s (fst p) = true.
Proof.
  intro H. unfold declared. apply existsb_exists.
  exists p. split; [exact H|apply String.eqb_refl].
Qed.

Lemma forallb_same {A : Type} (f g : A -> bool) (l : list A) :
  (forall x, In x l -> f x = g x) -> forallb f l = forallb g l.
Proof.
  induction l as [|a l IH]; intro H; [reflexivity|].
  simpl. rewrite (H a (or_introl eq_refl)), IH; [reflexivity|].
  intros x Hx. apply H. right. exact Hx.
Qed.

Lemma filter_twice {A : Type} (f : A -> bool) (l : list A) :
  filter f (filter f l) = filter f l.
Proof.
  induction l as [|a l IH]; [reflexivity|].
  simpl. destruct (f a) eqn:E; simpl; [rewrite E, IH|]; auto.
Qed.

(** Validation reads only the declared members, so it gives the same
    verdict on the body it leaves behind. *)
Lemma validateObject_kept (s : ObjectSchema) (members : list (string * json)) :
  requiredDeclared s = true ->
  fst (validateObject ajv s
         (filter (fun m => declared s (fst m)) members))
  = fst (validateObject ajv s members).
Proof.
  intro Hreq. unfold validateObject. cbn [fst removeAdditional ajv].
  f_equal; [f_equal|].
  - apply forallb_same. intros p Hp.
    rewrite (lookup_filter_declared s (fst p) members
               (declared_property s p Hp)). reflexivity.
  - apply forallb_same. intros k Hk.
    unfold requiredDeclared in Hreq. rewrite forallb_forall in Hreq.
    rewrite (lookup_filter_declared s k members (Hreq k Hk)). reflexivity.
  - rewrite !orb_true_r. reflexivity.
Qed.

(** A body that is let through is an object, passed on with its
    declared members only. *)
Lemma validateRequest_next (s : ObjectSchema) (body body' : json) :
  additionalProperties s = false ->
  validateRequest s body = Next body' ->
  exists members,
    body = JObj members
    /\ body' = JObj (filter (fun m => declared s (fst m)) members)
    /\ fst (validateObject ajv s members) = true.
Proof.
  intros Hadd H.
  destruct body as [| | | | |members]; try discriminate.
  unfold validateRequest, validate in H.
  destruct (validateObject ajv s members) as [ok kept] eqn:E.
  destruct ok; [|discriminate]. inversion H; subst body'. clear H.
  exists members. split; [reflexivity|].
  split; [|rewrite E; reflexivity].
  unfold validateObject in E. rewrite Hadd in E. simpl in E.
  inversion E. reflexivity.
Qed.

(** X13. For every schema that forbids additional properties and
    declares each required property, a body that [validateRequest] lets
    through is passed on with exactly its declared members, and
    validating the passed-on body again lets it through unchanged; a body
    that is not an object is always answered with 400.  The three request
    schemas for CPP, EI and capital gains are of this kind, like the
    income-tax schema. *)
Theorem X13_validation_strips_and_is_idempotent :
  (forall (s : ObjectSchema) (body body' : json),
      additionalProperties s = false -> requiredDeclared s = true ->
      validateRequest s body = Next body' ->
      (exists members,
          body = JObj members
          /\ body' = JObj (filter (fun m => declared s (fst m)) members))
      /\ validateRequest s body' = Next body')
  /\ (forall (s : ObjectSchema) (body : json),
        (forall members, body <> JObj members) ->
        validateRequest s body = Respond 400 false "VALIDATION_ERROR")
  /\ Forall (fun s => additionalProperties s = false
                      /\ requiredDeclared s = true)
       [ incomeTaxRequestSchema; cppContributionRequestSchema;
         eiContributionRequestSchema; capitalGainsRequestSchema ].
Proof.
  split; [|split].
  - intros s body body' Hadd Hreq H.
    destruct (validateRequest_next s body body' Hadd H)
      as [members [Hb [Hk Hv]]].
    split; [exists members; split; assumption|].
    set (kept := filter (fun m => declared s (fst m)) members) in *.
    subst body'. unfold validateRequest, validate.
    destruct (validateObject ajv s kept) as [ok' kept'] eqn:E'.
    assert (Hok : ok' = true).
    { pose proof (validateObject_kept s members Hreq) as Hs.
      fold kept in Hs. rewrite E', Hv in Hs. exact Hs. }
    assert (Hk' : kept' = kept).
    { unfold validateObject in E'. rewrite Hadd in E'. simpl in E'.
      inversion E'. subst kept. apply filter_twice. }
    rewrite Hok, Hk'. reflexivity.
  - intros s body H. destruct body; try reflexivity.
    exfalso. apply (H members). reflexivity.
  - repeat constructor.
Qed.

Lemma X13_validation_strips_and_is_idempotent_witness :
  validateRequest cppContributionRequestSchema
    (JObj [ ("income"%string, JNum 75000) ])
  = Next (JObj [ ("income"%string, JNum 75000) ]).
Proof.
  apply (proj1 X13_validation_strips_and_is_idempotent
           cppContributionRequestSchema
           (JObj [ ("note"%string, JStr "x");
                   ("income"%string, JNum 75000) ])
           (JObj [ ("income"%string, JNum 75000) ]));
    reflexivity.
Defined.

(** No piece of a split string holds a comma. *)
Lemma splitComma_pieces (v : string) :
  splitComma v <> []
  /\ Forall (fun piece => hasComma piece = false) (splitComma v).
Proof.
  induction v as [|c rest [Hne IH]]; simpl.
  - split; [discriminate|repeat constructor].
  - destruct (Ascii.eqb c ",") eqn:E.
    + split; [discriminate|]. constructor; [reflexivity|exact IH].
    + destruct (splitComma rest) as [|piece pieces]; [contradiction|].
      split; [discriminate|].
      inversion IH as [|? ? Hp Hps]; subst.
      constructor; [simpl; rewrite E, Hp; reflexivity|exact Hps].
Qed.

(** X14. [authenticate] calls [next()] exactly when the [x-api-key]
    header is present, not empty and equal to one of the comma-separated
    entries of [VALID_API_KEYS]; without that variable only
    'demo-key-123' passes.  A missing or empty header is answered 401
    MISSING_API_KEY, any other failure 401 INVALID_API_KEY.  When the
    variable is set, a key that contains a comma can never pass. *)
Theorem X14_authenticate :
  (forall (env apiKey : option string),
      authenticate env apiKey = Granted
      <-> exists key, apiKey = Some key /\ key <> ""%string
                      /\ In key (validApiKeys env))
  /\ (forall apiKey : option string,
        authenticate None apiKey = Granted
        <-> apiKey = Some "demo-key-123"%string)
  /\ (forall (env apiKey : option string),
        authenticate env apiKey = Denied 401 "MISSING_API_KEY"
        <-> (apiKey = None \/ apiKey = Some ""%string))
  /\ (forall (env apiKey : option string),
        authenticate env apiKey = Granted
        \/ authenticate env apiKey = Denied 401 "MISSING_API_KEY"
        \/ authenticate env apiKey = Denied 401 "INVALID_API_KEY")
  /\ (forall (v key : string),
        hasComma key = true -> authenticate (Some v) (Some key) <> Granted).
Proof.
  assert (Hmain : forall env apiKey,
             authenticate env apiKey = Granted
             <-> exists key, apiKey = Some key /\ key <> ""%string
                             /\ In key (validApiKeys env)).
  { intros env apiKey. unfold authenticate.
    destruct apiKey as [key|].
    - destruct (String.eqb key "") eqn:E0.
      + apply String.eqb_eq in E0. split; [discriminate|].
        intros [k [Hk [Hne _]]]. inversion Hk; subst. contradiction.
      + apply String.eqb_neq in E0.
        destruct (existsb (String.eqb key) (validApiKeys env)) eqn:E.
        * split; [|reflexivity]. intros _.
          apply existsb_exists in E. destruct E as [k [Hin He]].
          apply String.eqb_eq in He. subst k.
          exists key. repeat split; assumption.
        * split; [discriminate|].
          intros [k [Hk [_ Hin]]]. inversion Hk; subst k.
          assert (Ht : existsb (String.eqb key) (validApiKeys env) = true).
          { apply existsb_exists. exists key.
            split; [exact Hin|apply String.eqb_refl]. }
          congruence.
    - split; [discriminate|]. intros [k [Hk _]]. discriminate. }
  split; [exact Hmain|]. split; [|split; [|split]].
  - intro apiKey. rewrite Hmain. simpl. split.
    + intros [key [Hk [_ [Hin|[]]]]]. subst. reflexivity.
    + intro H. exists "demo-key-123"%string.
      repeat split; [exact H|discriminate|left; reflexivity].
  - intros env apiKey. unfold authenticate.
    destruct apiKey as [key|].
    + destruct (String.eqb key "") eqn:E0.
      * apply String.eqb_eq in E0. subst key.
        split; [right; reflexivity|reflexivity].
      * apply String.eqb_neq in E0.
        destruct (existsb _ _); split; try discriminate;
          intros [H|H]; try discriminate; inversion H; contradiction.
    + split; [left; reflexivity|reflexivity].
  - intros env apiKey. unfold authenticate.
    destruct apiKey as [key|]; [|right; left; reflexivity].
    destruct (String.eqb key ""); [right; left; reflexivity|].
    destruct (existsb _ _); [left|right; right]; reflexivity.
  - intros v key Hc H. apply Hmain in H.
    destruct H as [k [Hk [_ Hin]]]. inversion Hk; subst k.
    destruct (splitComma_pieces v) as [_ Hall].
    rewrite Forall_forall in Hall. simpl in Hin.
    rewrite (Hall key Hin) in Hc. discriminate.
Qed.

Lemma X14_authenticate_witness :
  authenticate (Some "alpha,beta"%string) (Some "alpha,beta"%string)
  <> Granted.
Proof.
  apply (proj2 (proj2 (proj2 (proj2 X14_authenticate)))
           "alpha,beta"%string "alpha,beta"%string).
  reflexivity.
Defined.

(** X15. The income-tax endpoint answers in the order of its chain.  A
    request over the general limit of 100 is answered 429
    RATE_LIMIT_EXCEEDED whatever its key and body.  Within that limit, a
    body the parsers cannot read goes to [errorHandler] before the API key
    is looked at, and is answered 500 INTERNAL_ERROR unless the error
    carries both [statusCode] and [code]; a readable request whose key
    fails is answered 401 whatever the body; with a good key, a request
    over the calculation limit of 30 is answered 429
    CALCULATION_RATE_LIMIT_EXCEEDED whatever the body; within it, a
    non-conforming body is answered 400 VALIDATION_ERROR.  The controller
    runs exactly when the request is within both limits, its body is
    readable and conforms, and its key is good. *)
Theorem X15_endpoint_order :
  forall (R : Type) (env : option string) (controller : json -> R)
         (req : ApiRequest),
    let reply := incomeTaxEndpoint env controller req in
    ((100 < hits req)%Z -> reply = Rejected 429 "RATE_LIMIT_EXCEEDED")
    /\ (forall error : ThrownError,
          (hits req <= 100)%Z -> parsed req = Unreadable error ->
          reply = errorHandler error
          /\ (statusCode error = None \/ code error = None ->
              reply = Rejected 500 "INTERNAL_ERROR"))
    /\ (forall (body : json) (c : string),
          (hits req <= 100)%Z -> parsed req = Parsed body ->
          authenticate env (x_api_key req) = Denied 401 c ->
          reply = Rejected 401 c)
    /\ (forall body : json,
          (hits req <= 100)%Z -> parsed req = Parsed body ->
          authenticate env (x_api_key req) = Granted ->
          (30 < calculationHits req)%Z ->
          reply = Rejected 429 "CALCULATION_RATE_LIMIT_EXCEEDED")
    /\ (forall body : json,
          (hits req <= 100)%Z -> parsed req = Parsed body ->
          authenticate env (x_api_key req) = Granted ->
          (calculationHits req <= 30)%Z -> ~ conforms body ->
          reply = Rejected 400 "VALIDATION_ERROR")
    /\ ((exists r, reply = Handled r)
        <-> ((hits req <= 100)%Z
             /\ (calculationHits req <= 30)%Z
             /\ authenticate env (x_api_key req) = Granted
             /\ exists body, parsed req = Parsed body /\ conforms body)).
Proof.
  intros R env controller req reply. subst reply.
  unfold incomeTaxEndpoint, limited, generalLimiter, calculationLimiter.
  cbn [max limitCode].
  split; [|split; [|split; [|split; [|split]]]].
  - intro H. apply Z.ltb_lt in H. rewrite H. reflexivity.
  - intros error H Hp. apply Z.ltb_ge in H. rewrite H, Hp.
    split; [reflexivity|].
    unfold errorHandler. intros [E|E]; rewrite E.
    + reflexivity.
    + destruct (statusCode error); reflexivity.
  - intros body c H Hp Ha. apply Z.ltb_ge in H. rewrite H, Hp, Ha.
    reflexivity.
  - intros body H Hp Ha Hc. apply Z.ltb_ge in H. apply Z.ltb_lt in Hc.
    rewrite H, Hp, Ha, Hc. reflexivity.
  - intros body H Hp Ha Hc Hn. apply Z.ltb_ge in H. apply Z.ltb_ge in Hc.
    rewrite H, Hp, Ha, Hc. unfold postIncomeTax.
    destruct (validateRequest_cases body) as [[Hok _]|[_ E]];
      [contradiction|].
    rewrite E. reflexivity.
  - destruct (Z.ltb_spec 100 (hits req)) as [Hg|Hg].
    { split; [intros [r H]; discriminate|intros [H _]; lia]. }
    destruct (parsed req) as [error|body] eqn:Hp.
    { split.
      - intros [r H]. unfold errorHandler in H.
        destruct (statusCode error), (code error); discriminate.
      - intros [_ [_ [_ [body [H _]]]]]. discriminate. }
    destruct (authenticate env (x_api_key req)) as [status c|] eqn:Ha.
    { split; [intros [r H]; discriminate|].
      intros [_ [_ [H _]]]. discriminate. }
    destruct (Z.ltb_spec 30 (calculationHits req)) as [Hc|Hc].
    { split; [intros [r H]; discriminate|intros [_ [H _]]; lia]. }
    unfold postIncomeTax.
    destruct (validateRequest_cases body) as [[Hok [m [_ E]]]|[Hn E]];
      rewrite E.
    + split.
      * intros _. split; [exact Hg|]. split; [exact Hc|].
        split; [reflexivity|]. exists body. split; [reflexivity|exact Hok].
      * intros _. eexists. reflexivity.
    + split; [intros [r H]; discriminate|].
      intros [_ [_ [_ [body' [Hb Hok]]]]].
      inversion Hb; subst body'. contradiction.
Qed.

Lemma X15_endpoint_order_witness :
  incomeTaxEndpoint None (fun _ : json => true)
    {| hits := 1;
       parsed := Parsed (JObj [ ("grossIncome"%string, JNum 75000);
                                ("province"%string, JStr "ON") ]);
       x_api_key := None;
       calculationHits := 1 |}
  = Rejected 401 "MISSING_API_KEY".
Proof.
  apply (proj1 (proj2 (proj2
           (X15_endpoint_order bool None (fun _ => true)
              {| hits := 1;
                 parsed := Parsed (JObj [ ("grossIncome"%string, JNum 75000);
                                          ("province"%string, JStr "ON") ]);
                 x_api_key := None;
                 calculationHits := 1 |})))
           (JObj [ ("grossIncome"%string, JNum 75000);
                   ("province"%string, JStr "ON") ])
           "MISSING_API_KEY"%string).
  - simpl. lia.
  - reflexivity.
  - reflexivity.
Defined.

End GatewayFacts.

(** ** The contribution and dividend methods of the service class *)

Section ServiceFacts.

Import Api Gateway.

(** X16. With [0 <= BASIC_EXEMPTION <= YMPE <= YAMPE] and non-negative
    rates, the total CPP contribution the service computes (before
    rounding) is 0 up to the basic exemption, never negative, never
    decreasing in the income, and constant from YAMPE on, where it reaches
    its maximum [(YMPE - BASIC_EXEMPTION) * BASE + (YAMPE - YMPE) *
    ENHANCEMENT_STEP_2]; the response carries this total, rounded. *)
Theorem X16_cpp_contribution_bounds :
  forall (YMPE BASIC_EXEMPTION YAMPE BASE ENHANCEMENT_STEP_2 : Q),
    0 <= BASIC_EXEMPTION -> BASIC_EXEMPTION <= YMPE -> YMPE <= YAMPE ->
    0 <= BASE -> 0 <= ENHANCEMENT_STEP_2 ->
    let total :=
      CppService.total YMPE BASIC_EXEMPTION YAMPE BASE ENHANCEMENT_STEP_2 in
    let maximum :=
      (YMPE - BASIC_EXEMPTION) * BASE
      + (YAMPE - YMPE) * ENHANCEMENT_STEP_2 in
    (forall x y : Q,
        x <= y ->
        le (Fin 0) (total (Fin x)) = true
        /\ le (total (Fin x)) (total (Fin y)) = true
        /\ le (total (Fin y)) (Fin maximum) = true)
    /\ (forall x : Q, x <= BASIC_EXEMPTION -> total (Fin x) =F= 0)
    /\ (forall x : Q, YAMPE <= x -> total (Fin x) =F= maximum)
    /\ (forall (roundToPrecision : num -> Z -> num) (currentYear : num)
               (request : CppService.CPPContributionRequest),
          CppService.totalContribution
            (CppService.calculateCPPContribution YMPE BASIC_EXEMPTION YAMPE
               BASE ENHANCEMENT_STEP_2 roundToPrecision currentYear request)
          = roundToPrecision (total (CppService.income request)) 2%Z).
Proof.
  intros YMPE E YAMPE BASE ENH HE HEY HYY HB HN total maximum.
  subst total maximum.
  unfold CppService.total, CppService.pensionable,
    CppService.enhancedPensionable.
  split; [|split; [|split]].
  - intros x y Hxy.
    rewrite !Math_min_fin. cbn [sub]. rewrite !Math_max_fin.
    cbn [mul add le]. rewrite !Qle_bool_iff.
    repeat split; qcrush; nra.
  - intros x Hx.
    rewrite !Math_min_fin. cbn [sub]. rewrite !Math_max_fin.
    cbn [mul add is_fin]. qcrush; nra.
  - intros x Hx.
    rewrite !Math_min_fin. cbn [sub]. rewrite !Math_max_fin.
    cbn [mul add is_fin]. qcrush; nra.
  - intros. reflexivity.
Qed.

Lemma X16_cpp_contribution_bounds_witness :
  CppService.total 71300 3500 81200 0.0595 0.04 (Fin 100000)
  =F= (71300 - 3500) * 0.0595 + (81200 - 71300) * 0.04.
Proof.
  apply (proj1 (proj2 (proj2 (X16_cpp_contribution_bounds
                                71300 3500 81200 0.0595 0.04
                                ltac:(lra) ltac:(lra) ltac:(lra)
                                ltac:(lra) ltac:(lra)))) 100000).
  lra.
Defined.

(** A body the EI schema lets through has a numeric income in range and
    one of the thirteen province codes. *)
Lemma ei_accepted (body body' : json) :
  validateRequest eiContributionRequestSchema body = Next body' ->
  exists members n p,
    body' = JObj members
    /\ lookup "income" members = Some (JNum n)
    /\ 0 <= n /\ n <= 10000000
    /\ lookup "province" members = Some (JStr p)
    /\ In p provinceCodes
    /\ optionalNumberIn 2000 2030 (lookup "year" members).
Proof.
  intro H.
  destruct (validateRequest_next eiContributionRequestSchema body body'
              eq_refl H) as [members [Hb [Hk Hok]]].
  subst body. clear H. unfold validateObject in Hok.
  cbn [fst properties required additionalProperties
       eiContributionRequestSchema removeAdditional ajv forallb snd orb
       negb andb] in Hok.
  rewrite !andb_true_r, !andb_true_iff in Hok.
  destruct Hok as [[Hi [Hp Hy]] [Hri Hrp]].
  unfold incomeProperty, provinceProperty, yearProperty in *.
  rewrite (optionalNumber_spec 2000 2030) in Hy.
  destruct (lookup "income" members) as [g|] eqn:Eg; [|discriminate].
  destruct (lookup "province" members) as [pv|] eqn:Ep; [|discriminate].
  apply numberProperty_spec in Hi. apply enumProperty_spec in Hp.
  destruct Hp as [p [Hpv Hin]]. subst pv.
  destruct g as [| |n| | |]; try contradiction.
  exists (filter (fun m => declared eiContributionRequestSchema (fst m))
            members), n, p.
  rewrite !lookup_filter_declared by reflexivity.
  rewrite Eg, Ep. destruct Hi as [H0 H1].
  repeat split; assumption.
Qed.

(** X17. The EI premium the service computes (before rounding) is
    [min(income, MAX_INSURABLE_EARNINGS)] times the Quebec rate for 'QC'
    and the federal rate for every other province; it has no floor, so a
    negative income gives a negative premium.  Every body the EI schema
    lets through reads as a request whose premium lies between 0 and
    [MAX_INSURABLE_EARNINGS] times the rate; the response carries the
    premium, rounded. *)
Theorem X17_ei_premium :
  forall (MAX_INSURABLE_EARNINGS PREMIUM_CA PREMIUM_QC : Q),
    0 <= MAX_INSURABLE_EARNINGS -> 0 < PREMIUM_CA -> 0 < PREMIUM_QC ->
    let rateOf := EiService.rateOf PREMIUM_CA PREMIUM_QC in
    let premium :=
      EiService.premium MAX_INSURABLE_EARNINGS PREMIUM_CA PREMIUM_QC in
    (forall (x : Q) (province : string),
        MAX_INSURABLE_EARNINGS <= x ->
        premium (Fin x) province
        =F= MAX_INSURABLE_EARNINGS * rateOf province)
    /\ (forall (x : Q) (province : string),
          x < 0 -> gt (Fin 0) (premium (Fin x) province) = true)
    /\ (forall (body body' : json),
          validateRequest eiContributionRequestSchema body = Next body' ->
          exists request,
            EiService.requestOf body' = Some request
            /\ In (EiService.province request) provinceCodes
            /\ le (Fin 0)
                  (premium (EiService.income request)
                     (EiService.province request)) = true
            /\ le (premium (EiService.income request)
                     (EiService.province request))
                  (Fin (MAX_INSURABLE_EARNINGS
                        * rateOf (EiService.province request))) = true)
    /\ (forall (roundToPrecision : num -> Z -> num) (currentYear : num)
               (request : EiService.EIContributionRequest),
          EiService.contribution
            (EiService.calculateEIContribution MAX_INSURABLE_EARNINGS
               PREMIUM_CA PREMIUM_QC roundToPrecision currentYear request)
          = roundToPrecision
              (premium (EiService.income request)
                 (EiService.province request)) 2%Z).
Proof.
  intros MAX CA QC HM HCA HQC rateOf premium. subst rateOf premium.
  assert (Hrate : forall p, 0 < EiService.rateOf CA QC p).
  { intro p. unfold EiService.rateOf.
    destruct (String.eqb p "QC"); assumption. }
  unfold EiService.premium.
  split; [|split; [|split]].
  - intros x province Hx. rewrite Math_min_fin. cbn [mul is_fin].
    pose proof (Hrate province). qcrush; nra.
  - intros x province Hx. rewrite Math_min_fin. cbn [mul gt].
    apply Qltb_true. pose proof (Hrate province). qcrush; nra.
  - intros body body' H.
    destruct (ei_accepted body body' H)
      as [members [n [p [Hb [Ei [H0 [H1 [Ep [Hin Hy]]]]]]]]].
    subst body'. unfold EiService.requestOf. rewrite Ei, Ep.
    pose proof (Hrate p) as Hr.
    destruct (lookup "year" members) as [y|]; simpl in Hy.
    + destruct y as [| |yn| | |]; try contradiction.
      eexists. split; [reflexivity|].
      cbn [EiService.province EiService.income]. split; [exact Hin|].
      rewrite Math_min_fin. cbn [mul le]. rewrite !Qle_bool_iff.
      split; qcrush; nra.
    + eexists. split; [reflexivity|].
      cbn [EiService.province EiService.income]. split; [exact Hin|].
      rewrite Math_min_fin. cbn [mul le]. rewrite !Qle_bool_iff.
      split; qcrush; nra.
  - intros. reflexivity.
Qed.

Lemma X17_ei_premium_witness :
  EiService.premium 65700 0.0164 0.0131 (Fin 80000) "QC"
  =F= 65700 * EiService.rateOf 0.0164 0.0131 "QC".
Proof.
  apply (proj1 (X17_ei_premium 65700 0.0164 0.0131
                  ltac:(lra) ltac:(lra) ltac:(lra)) 80000 "QC"%string).
  lra.
Defined.

End ServiceFacts.

(** ** Dividends in the service class *)

Section DividendFacts.

Import DividendService.

(** X18. For a finite dividend [d >= 0], a non-negative gross-up factor,
    non-negative credit rates and non-negative lowest bracket rates,
    [calculateDividendTax] computes (before rounding) a net tax that is
    finite, never negative and never above the tax on the grossed-up
    dividend; the after-tax dividend is [d] less the net tax; the effective
    rate is never negative and is [netTax / d] when [d > 0]; and the net tax
    is 0 as soon as the two credit rates together reach the two lowest
    bracket rates together.  The response carries the net tax rounded to
    two places. *)
Theorem X18_dividend_net_tax :
  forall (E N : DividendRates) (fed : Q) (prov : string -> Q)
         (request : DividendTaxRequest) (d : Q),
    let rates := if isEligible request then E else N in
    let p := province request in
    let u := unrounded E N fed prov request in
    dividendAmount request = Fin d ->
    0 <= d -> 0 <= GROSS_UP rates -> 0 <= CA rates ->
    0 <= provincial rates p -> 0 <= fed -> 0 <= prov p ->
    exists net,
      netTax u = Fin net
      /\ 0 <= net
      /\ le (netTax u) (taxOnGrossedUp u) = true
      /\ afterTaxDividend u =F= d - net
      /\ le (Fin 0) (effectiveTaxRate u) = true
      /\ (0 < d -> effectiveTaxRate u =F= net / d)
      /\ (fed + prov p <= CA rates + provincial rates p -> net == 0)
      /\ (forall roundToPrecision : num -> Z -> num,
            netTax (calculateDividendTax E N fed prov roundToPrecision
                      request)
            = roundToPrecision (Fin net) 2%Z).
Proof.
  intros E N fed prov request d rates p u Hd H0 Hg Hc Hp Hf Hv.
  subst u. unfold calculateDividendTax, unrounded.
  fold rates. fold p. rewrite Hd.
  cbn [mul add sub]. rewrite Math_max_fin.
  set (G := d * GROSS_UP rates).
  assert (HG : 0 <= G) by (subst G; nra).
  set (tax := G * (fed + prov p)).
  set (credit := G * CA rates + G * provincial rates p).
  eexists. split; [reflexivity|].
  cbn [netTax taxOnGrossedUp afterTaxDividend effectiveTaxRate sub].
  split; [|split; [|split; [|split; [|split; [|split]]]]].
  - subst tax credit. qcrush; nra.
  - subst tax credit. cbn [le]. rewrite Qle_bool_iff. qcrush; nra.
  - cbn [is_fin]. reflexivity.
  - cbn [gt]. destruct (Qltb 0 d) eqn:Ed.
    + apply Qltb_true in Ed. rewrite div_fin_pos by exact Ed.
      cbn [le]. rewrite Qle_bool_iff. apply Qle_shift_div_l; [exact Ed|].
      subst tax credit. qcrush; nra.
    + cbn [le]. reflexivity.
  - intro Hpos. cbn [gt].
    assert (Ed : Qltb 0 d = true) by (apply Qltb_true; exact Hpos).
    rewrite Ed. rewrite div_fin_pos by exact Hpos. cbn [is_fin]. reflexivity.
  - intro Hle. subst tax credit. qcrush; nra.
  - intro roundToPrecision. reflexivity.
Qed.

Lemma X18_dividend_net_tax_witness :
  exists net,
    netTax (unrounded
              {| GROSS_UP := 1.38; CA := 0.150198;
                 provincial := fun _ => 0.1 |}
              {| GROSS_UP := 1.15; CA := 0.090301;
                 provincial := fun _ => 0.029863 |}
              0.15 (fun _ => 0.0505)
              {| dividendAmount := Fin 1000; isEligible := true;
                 province := "ON" |})
    = Fin net
    /\ 0 <= net.
Proof.
  destruct (X18_dividend_net_tax
              {| GROSS_UP := 1.38; CA := 0.150198;
                 provincial := fun _ => 0.1 |}
              {| GROSS_UP := 1.15; CA := 0.090301;
                 provincial := fun _ => 0.029863 |}
              0.15 (fun _ => 0.0505)
              {| dividendAmount := Fin 1000; isEligible := true;
                 province := "ON" |}
              1000 eq_refl
              ltac:(cbn; lra) ltac:(cbn; lra) ltac:(cbn; lra)
              ltac:(cbn; lra) ltac:(cbn; lra) ltac:(cbn; lra))
    as [net [Hn [H0 _]]].
  exists net. split; [exact Hn | exact H0].
Defined.

End DividendFacts.

(** ** Calendar arithmetic of utils/date.ts *)

Section DateFacts.

Import DateUtil.

#[local] Open Scope Z_scope.

Lemma daysInMonth_bounds (y m : Z) : 28 <= daysInMonth y m <= 31.
Proof.
  unfold daysInMonth.
  destruct (m =? 1); [destruct (isLeapYear y); lia|].
  destruct ((m =? 3) || (m =? 5) || (m =? 8) || (m =? 10)); lia.
Qed.

Lemma daysInMonth_other (y y' m : Z) :
  m <> 1 -> daysInMonth y m = daysInMonth y' m.
Proof.
  intro H. unfold daysInMonth.
  destruct (Z.eqb_spec m 1); [contradiction | reflexivity].
Qed.

Lemma daysInMonth_feb (y : Z) :
  daysInMonth y 1 = if isLeapYear y then 29 else 28.
Proof. reflexivity. Qed.

Lemma validDate_spec (d : UTCDate) :
  validDate d = true
  <-> 0 <= month d <= 11
      /\ 1 <= date d <= daysInMonth (fullYear d) (month d).
Proof.
  unfold validDate. rewrite !andb_true_iff, !Z.leb_le. tauto.
Qed.

(** X19. [getMonthsDiff] counts whole months: it is 0 from a date to
    itself, it is the calendar difference [12 * years + months] when the
    second day of the month is not before the first and one less
    otherwise, going back and forth between two dates gives 0 when they
    fall on the same day of the month and -1 otherwise, and between two
    calendar dates in order it is never negative. *)
Theorem X19_months_diff :
  forall a b : UTCDate,
    validDate a = true -> validDate b = true ->
    getMonthsDiff a a = 0
    /\ (date a <= date b ->
        getMonthsDiff a b
        = 12 * (fullYear b - fullYear a) + (month b - month a))
    /\ (date b < date a ->
        getMonthsDiff a b
        = 12 * (fullYear b - fullYear a) + (month b - month a) - 1)
    /\ getMonthsDiff a b + getMonthsDiff b a
       = (if date a =? date b then 0 else -1)
    /\ (notAfter a b -> 0 <= getMonthsDiff a b).
Proof.
  intros a b Ha Hb.
  apply validDate_spec in Ha. apply validDate_spec in Hb.
  unfold getMonthsDiff, notAfter.
  split; [|split; [|split; [|split]]].
  - rewrite Z.ltb_irrefl. lia.
  - intro H. destruct (Z.ltb_spec (date b) (date a)); lia.
  - intro H. destruct (Z.ltb_spec (date b) (date a)); lia.
  - destruct (Z.ltb_spec (date b) (date a));
      destruct (Z.ltb_spec (date a) (date b));
      destruct (Z.eqb_spec (date a) (date b)); lia.
  - intro H. destruct (Z.ltb_spec (date b) (date a)); lia.
Qed.

Lemma X19_months_diff_witness :
  getMonthsDiff {| fullYear := 2024; month := 0; date := 31 |}
                {| fullYear := 2024; month := 1; date := 29 |}
  + getMonthsDiff {| fullYear := 2024; month := 1; date := 29 |}
                  {| fullYear := 2024; month := 0; date := 31 |}
  = -1.
Proof.
  exact (proj1 (proj2 (proj2 (proj2
           (X19_months_diff
              {| fullYear := 2024; month := 0; date := 31 |}
              {| fullYear := 2024; month := 1; date := 29 |}
              eq_refl eq_refl))))).
Defined.

(** X20. [addYearsToDate] on a calendar date, for a whole number of
    years that leads to a year within the range of [Date]: the result is a
    calendar date in the year [fullYear + years];
    the month and the day are kept, except that 29 February lands on
    1 March when the target year is not a leap year; [getMonthsDiff] from
    the date to the result is exactly [12 * years]; and adding 0 years
    changes nothing. *)
Theorem X20_add_years :
  forall (d : UTCDate) (years : Z),
    validDate d = true ->
    wholeYearInRange (fullYear d + years) = true ->
    let r := addYearsToDate d years in
    validDate r = true
    /\ fullYear r = fullYear d + years
    /\ (month d = 1 /\ date d = 29
        /\ isLeapYear (fullYear d + years) = false ->
        month r = 2 /\ date r = 1)
    /\ (~ (month d = 1 /\ date d = 29
           /\ isLeapYear (fullYear d + years) = false) ->
        month r = month d /\ date r = date d)
    /\ getMonthsDiff d r = 12 * years
    /\ addYearsToDate d 0 = d.
Proof.
  intros d years Hd _ r. subst r.
  apply validDate_spec in Hd. destruct Hd as [Hm Hday].
  destruct d as [y m day]. cbn [fullYear month date] in *.
  assert (Hzero : addYearsToDate {| fullYear := y; month := m; date := day |} 0
                  = {| fullYear := y; month := m; date := day |}).
  { unfold addYearsToDate, setUTCFullYear. cbn [fullYear month date].
    rewrite Z.add_0_r.
    destruct (Z.leb_spec day (daysInMonth y m)); [reflexivity | lia]. }
  unfold addYearsToDate, setUTCFullYear. cbn [fullYear month date].
  destruct (Z.eq_dec m 1) as [E|E].
  - subst m. rewrite daysInMonth_feb in *.
    destruct (isLeapYear (y + years)) eqn:L'.
    + assert (Hle : (day <=? 29) = true)
        by (apply Z.leb_le; destruct (isLeapYear y); lia).
      rewrite Hle. cbn [fullYear month date].
      split; [|split; [|split; [|split; [|split]]]].
      * apply validDate_spec. cbn [fullYear month date].
        rewrite daysInMonth_feb, L'. apply Z.leb_le in Hle. lia.
      * reflexivity.
      * intros [_ [_ H]]. discriminate H.
      * intros _. split; reflexivity.
      * unfold getMonthsDiff. cbn [fullYear month date].
        rewrite Z.ltb_irrefl. lia.
      * exact Hzero.
    + destruct (Z.leb_spec day 28) as [Hle|Hgt]; cbn [fullYear month date].
      * split; [|split; [|split; [|split; [|split]]]].
        -- apply validDate_spec. cbn [fullYear month date].
           rewrite daysInMonth_feb, L'. lia.
        -- reflexivity.
        -- intros [_ [H _]]. lia.
        -- intros _. split; reflexivity.
        -- unfold getMonthsDiff. cbn [fullYear month date].
           rewrite Z.ltb_irrefl. lia.
        -- exact Hzero.
      * assert (Hday29 : day = 29) by (destruct (isLeapYear y); lia).
        subst day.
        split; [|split; [|split; [|split; [|split]]]].
        -- apply validDate_spec. cbn [fullYear month date].
           unfold daysInMonth. cbn. lia.
        -- reflexivity.
        -- intros _. split; reflexivity.
        -- intro H. exfalso. apply H. repeat split; reflexivity.
        -- unfold getMonthsDiff. cbn [fullYear month date].
           replace (29 - 28 <? 29) with true by reflexivity. lia.
        -- exact Hzero.
  - rewrite <- (daysInMonth_other y (y + years) m E).
    destruct (Z.leb_spec day (daysInMonth y m)) as [Hle|Hgt]; [|lia].
    cbn [fullYear month date].
    split; [|split; [|split; [|split; [|split]]]].
    + apply validDate_spec. cbn [fullYear month date].
      rewrite <- (daysInMonth_other y (y + years) m E). lia.
    + reflexivity.
    + intros [H _]. contradiction.
    + intros _. split; reflexivity.
    + unfold getMonthsDiff. cbn [fullYear month date].
      rewrite Z.ltb_irrefl. lia.
    + exact Hzero.
Qed.

Lemma X20_add_years_witness :
  addYearsToDate {| fullYear := 2024; month := 1; date := 29 |} 1
  = {| fullYear := 2025; month := 2; date := 1 |}
  /\ getMonthsDiff {| fullYear := 2024; month := 1; date := 29 |}
       (addYearsToDate {| fullYear := 2024; month := 1; date := 29 |} 1)
     = 12.
Proof.
  split; [reflexivity|].
  exact (proj1 (proj2 (proj2 (proj2 (proj2
           (X20_add_years {| fullYear := 2024; month := 1; date := 29 |} 1
              eq_refl eq_refl)))))).
Defined.

End DateFacts.

(** ** The random fixtures of tests/api/fixtures/data-generator.ts *)

Section GeneratorFacts.

Import JsMath Generators.

Lemma Qfloor_nonneg (x : Q) : 0 <= x -> (0 <= Qfloor x)%Z.
Proof.
  intro H. pose proof (Qfloor_resp_le (inject_Z 0) x H) as H'.
  rewrite Qfloor_Z in H'. exact H'.
Qed.

Lemma Qfloor_range (x : Q) (n : Z) :
  0 <= x -> x < inject_Z (n + 1) -> (0 <= Qfloor x <= n)%Z.
Proof.
  intros H0 H1. split.
  - apply Qfloor_nonneg. exact H0.
  - pose proof (Qfloor_le x) as Hf.
    assert (Hlt : inject_Z (Qfloor x) < inject_Z (n + 1)) by lra.
    rewrite <- Zlt_Qlt in Hlt. lia.
Qed.

(** A draw in [0, 1) scaled to [max - min + 1], floored and shifted by
    [min] is a whole number from [min] to [max]. *)
Lemma scaled_draw_range (random : Q) (min max : Z) :
  0 <= random -> random < 1 -> (min <= max)%Z ->
  exists r : Z,
    add (Math_floor
           (mul (Fin random)
              (add (sub (Fin (inject_Z max)) (Fin (inject_Z min))) (Fin 1))))
        (Fin (inject_Z min))
    =F= inject_Z r
    /\ (min <= r <= max)%Z.
Proof.
  intros H0 H1 Hle. cbn [sub add mul Math_floor].
  set (x := random * (inject_Z max - inject_Z min + 1)).
  assert (Hspan : 0 <= inject_Z max - inject_Z min).
  { rewrite Zle_Qle in Hle. lra. }
  assert (Hx : (0 <= Qfloor x <= max - min)%Z).
  { apply Qfloor_range.
    - subst x. nra.
    - subst x. rewrite inject_Z_plus. unfold Z.sub.
      rewrite inject_Z_plus, inject_Z_opp.
      change (inject_Z 1) with 1. nra. }
  exists (Qfloor x + min)%Z. split; [|lia].
  cbn [is_fin]. rewrite inject_Z_plus. reflexivity.
Qed.

(** X21. For whole numbers [min <= max] and a draw of [Math.random()] in
    [0, 1), [generateRandomIncome] and [generateRandomAge] each return a
    whole number between [min] and [max], both included; the draw 0 gives
    [min]. *)
Theorem X21_random_income_range :
  forall (random : Q) (min max : Z),
    0 <= random -> random < 1 -> (min <= max)%Z ->
    (exists r : Z,
        generateRandomIncome (Fin random) (Fin (inject_Z min))
          (Fin (inject_Z max))
        =F= inject_Z r
        /\ (min <= r <= max)%Z)
    /\ (exists r : Z,
          generateRandomAge (Fin random) (Fin (inject_Z min))
            (Fin (inject_Z max))
          =F= inject_Z r
          /\ (min <= r <= max)%Z)
    /\ generateRandomIncome (Fin 0) (Fin (inject_Z min)) (Fin (inject_Z max))
       =F= inject_Z min
    /\ generateRandomAge (Fin 0) (Fin (inject_Z min)) (Fin (inject_Z max))
       =F= inject_Z min.
Proof.
  intros u lo hi H0 H1 Hle.
  assert (E : Qfloor (0 * (inject_Z hi - inject_Z lo + 1)) = 0%Z).
  { transitivity (Qfloor (inject_Z 0)); [|apply Qfloor_Z].
    apply Qfloor_comp. change (inject_Z 0) with 0. lra. }
  split; [|split; [|split]].
  - apply scaled_draw_range; assumption.
  - apply scaled_draw_range; assumption.
  - unfold generateRandomIncome. cbn [sub add mul Math_floor is_fin].
    rewrite E. change (inject_Z 0) with 0. lra.
  - unfold generateRandomAge. cbn [sub add mul Math_floor is_fin].
    rewrite E. change (inject_Z 0) with 0. lra.
Qed.

Lemma X21_random_income_range_witness :
  exists r : Z,
    generateRandomIncome (Fin 0.5) (Fin (inject_Z 30000))
      (Fin (inject_Z 150000))
    =F= inject_Z r
    /\ (30000 <= r <= 150000)%Z.
Proof.
  exact (proj1 (X21_random_income_range 0.5 30000 150000
                  ltac:(lra) ltac:(lra) ltac:(lia))).
Defined.

(** X22. For a finite income [x >= 0] and a draw of [Math.random()] in
    [0, 1), [generateRRSPContribution] returns a whole number that is
    never negative, never above 15% of the income (so never above the 18%
    limit) and never above 31560. *)
Theorem X22_rrsp_contribution_range :
  forall (random income : Q),
    0 <= random -> random < 1 -> 0 <= income ->
    exists r : Z,
      generateRRSPContribution (Fin random) (Fin income) =F= inject_Z r
      /\ (0 <= r <= 31560)%Z
      /\ inject_Z r <= income * 0.15
      /\ inject_Z r <= income * 0.18.
Proof.
  intros u x H0 H1 Hx.
  unfold generateRRSPContribution.
  cbn [mul Math_floor]. rewrite !Math_min_fin.
  set (c := x * (u * 0.15)).
  assert (Hc0 : 0 <= c) by (subst c; nra).
  assert (Hc1 : c <= x * 0.15) by (subst c; nra).
  pose proof (Qfloor_le c) as Hf.
  assert (Hfl : (0 <= Qfloor c)%Z).
  { apply Qfloor_nonneg. exact Hc0. }
  assert (Hfq : 0 <= inject_Z (Qfloor c)).
  { change 0 with (inject_Z 0). rewrite <- Zle_Qle. exact Hfl. }
  destruct (Z_le_gt_dec (Qfloor c) 31560) as [Hs|Hb].
  - exists (Qfloor c). 
    assert (Hsq : inject_Z (Qfloor c) <= 31560).
    { change 31560 with (inject_Z 31560). rewrite <- Zle_Qle. exact Hs. }
    split; [|split; [lia | split; lra]].
    cbn [is_fin]. qcrush; lra.
  - exists 31560%Z.
    assert (Hbq : 31560 < inject_Z (Qfloor c)).
    { change 31560 with (inject_Z 31560). rewrite <- Zlt_Qlt. lia. }
    change (inject_Z 31560) with 31560.
    split; [|split; [lia | split; lra]].
    cbn [is_fin]. qcrush; lra.
Qed.

Lemma X22_rrsp_contribution_range_witness :
  exists r : Z,
    generateRRSPContribution (Fin 0.5) (Fin 80000) =F= inject_Z r
    /\ (0 <= r <= 31560)%Z.
Proof.
  destruct (X22_rrsp_contribution_range 0.5 80000
              ltac:(lra) ltac:(lra) ltac:(lra)) as [r [Hr [Hb _]]].
  exists r. split; [exact Hr | exact Hb].
Defined.

End GeneratorFacts.
